(** * The Doclayer webhook receiver (supabase/functions/doclayer-webhook/index.ts)

    A shallow embedding of the Edge Function that authenticates, audits and
    routes Doclayer webhook deliveries, together with the parts of its
    platform that decide its behaviour: the Web Crypto HMAC the signature
    check calls, [JSON.parse], and the Postgres tables of the migrations as
    PostgREST exposes them to the handler. *)

From Stdlib Require Import String Ascii List Bool Arith NArith ZArith Lia.
From Stdlib.Strings Require Import Byte.
From Stdlib Require Import ListDec DecimalString.
Import ListNotations.

Local Open Scope string_scope.
Local Open Scope list_scope.

(* ===================================================================== *)
(** ** JavaScript strings

    A JavaScript string is modelled by the sequence of bytes of its UTF-8
    encoding, so [TextEncoder.encode] is the passage to the list of bytes. *)
(* ===================================================================== *)

Module JsString.

(** [s.startsWith(p)] *)
Definition startsWith (s p : string) : bool := String.prefix p s.

Fixpoint drop (n : nat) (s : string) : string :=
  match n, s with
  | O, _ => s
  | S _, EmptyString => EmptyString
  | S n', String _ s' => drop n' s'
  end.

(** [s.replace(pat, rep)] with a string pattern: only the first
    occurrence is replaced ([rep] holds no [$] pattern in this program). *)
Fixpoint replace (s pat rep : string) : string :=
  if String.prefix pat s then rep ++ drop (String.length pat) s
  else match s with
       | EmptyString => EmptyString
       | String c s' => String c (replace s' pat rep)
       end.

Fixpoint repeat_to (n : nat) (p : string) (fuel : nat) : string :=
  match fuel with
  | O => EmptyString
  | S fuel' => substring 0 n (p ++ repeat_to (n - String.length p) p fuel')
  end.

(** [s.padStart(n, p)] *)
Definition padStart (s : string) (n : nat) (p : string) : string :=
  if (n <=? String.length s)%nat then s
  else if (String.length p =? 0)%nat then s
  else repeat_to (n - String.length s) p (n - String.length s) ++ s.

(** [parts.join("")] *)
Definition join (parts : list string) : string :=
  fold_right String.append EmptyString parts.

(** [new TextEncoder().encode(s)] *)
Definition encode (s : string) : list byte := list_byte_of_string s.

Definition hex_digit (d : N) : ascii :=
  match d with
  | 0 => "0" | 1 => "1" | 2 => "2" | 3 => "3" | 4 => "4" | 5 => "5"
  | 6 => "6" | 7 => "7" | 8 => "8" | 9 => "9" | 10 => "a" | 11 => "b"
  | 12 => "c" | 13 => "d" | 14 => "e" | _ => "f"
  end%N%char.

Fixpoint to_radix16 (fuel : nat) (n : N) : string :=
  match fuel with
  | O => EmptyString
  | S fuel' =>
      let d := String (hex_digit (n mod 16)) EmptyString in
      if (n <? 16)%N then d else to_radix16 fuel' (n / 16) ++ d
  end.

(** [n.toString(16)] for a non-negative integer *)
Definition toString16 (n : N) : string :=
  to_radix16 (S (N.to_nat (N.log2 n))) n.

End JsString.

(* ===================================================================== *)
(** ** SHA-256 and HMAC, as [crypto.subtle] computes them (FIPS 180-4,
    RFC 2104). Words are 32-bit integers held in [N] with the wrap-around
    written out. *)
(* ===================================================================== *)

Module SHA256.
Local Open Scope N_scope.

Definition mask32 : N := 0xFFFFFFFF.
Definition wrap (x : N) : N := N.land x mask32.
Definition add32 (x y : N) : N := wrap (x + y).
Definition rotr (k x : N) : N :=
  N.lor (N.shiftr x k) (wrap (N.shiftl x (32 - k))).
Definition not32 (x : N) : N := N.lxor x mask32.

Definition choose (e f g : N) : N :=
  N.lxor (N.land e f) (N.land (not32 e) g).
Definition majority (a b c : N) : N :=
  N.lxor (N.lxor (N.land a b) (N.land a c)) (N.land b c).
Definition bigsig0 (a : N) : N :=
  N.lxor (N.lxor (rotr 2 a) (rotr 13 a)) (rotr 22 a).
Definition bigsig1 (e : N) : N :=
  N.lxor (N.lxor (rotr 6 e) (rotr 11 e)) (rotr 25 e).
Definition smallsig0 (x : N) : N :=
  N.lxor (N.lxor (rotr 7 x) (rotr 18 x)) (N.shiftr x 3).
Definition smallsig1 (x : N) : N :=
  N.lxor (N.lxor (rotr 17 x) (rotr 19 x)) (N.shiftr x 10).

Definition round_constants : list N :=
  [ 0x428A2F98; 0x71374491; 0xB5C0FBCF; 0xE9B5DBA5;
    0x3956C25B; 0x59F111F1; 0x923F82A4; 0xAB1C5ED5;
    0xD807AA98; 0x12835B01; 0x243185BE; 0x550C7DC3;
    0x72BE5D74; 0x80DEB1FE; 0x9BDC06A7; 0xC19BF174;
    0xE49B69C1; 0xEFBE4786; 0x0FC19DC6; 0x240CA1CC;
    0x2DE92C6F; 0x4A7484AA; 0x5CB0A9DC; 0x76F988DA;
    0x983E5152; 0xA831C66D; 0xB00327C8; 0xBF597FC7;
    0xC6E00BF3; 0xD5A79147; 0x06CA6351; 0x14292967;
    0x27B70A85; 0x2E1B2138; 0x4D2C6DFC; 0x53380D13;
    0x650A7354; 0x766A0ABB; 0x81C2C92E; 0x92722C85;
    0xA2BFE8A1; 0xA81A664B; 0xC24B8B70; 0xC76C51A3;
    0xD192E819; 0xD6990624; 0xF40E3585; 0x106AA070;
    0x19A4C116; 0x1E376C08; 0x2748774C; 0x34B0BCB5;
    0x391C0CB3; 0x4ED8AA4A; 0x5B9CCA4F; 0x682E6FF3;
    0x748F82EE; 0x78A5636F; 0x84C87814; 0x8CC70208;
    0x90BEFFFA; 0xA4506CEB; 0xBEF9A3F7; 0xC67178F2 ].

(** The eight working words. *)
Record state := State
  { sa : N; sb : N; sc : N; sd : N; se : N; sf : N; sg : N; sh : N }.

Definition initial : state :=
  State 0x6A09E667 0xBB67AE85 0x3C6EF372 0xA54FF53A
        0x510E527F 0x9B05688C 0x1F83D9AB 0x5BE0CD19.

Definition be32 (b0 b1 b2 b3 : N) : N :=
  N.lor (N.lor (N.shiftl b0 24) (N.shiftl b1 16)) (N.lor (N.shiftl b2 8) b3).

Fixpoint words_of_bytes (bs : list N) : list N :=
  match bs with
  | b0 :: b1 :: b2 :: b3 :: rest => be32 b0 b1 b2 b3 :: words_of_bytes rest
  | _ => []
  end.

Definition bytes_of_word (x : N) : list N :=
  [ N.land (N.shiftr x 24) 255; N.land (N.shiftr x 16) 255;
    N.land (N.shiftr x 8) 255; N.land x 255 ].

(** Message schedule: sixteen block words extended to sixty-four. *)
Fixpoint extend (n : nat) (ws : list N) : list N :=
  match n with
  | O => ws
  | S n' =>
      let t := List.length ws in
      let at_back k := nth (t - k) ws 0 in
      extend n' (ws ++ [ add32 (add32 (smallsig1 (at_back 2%nat)) (at_back 7%nat))
                               (add32 (smallsig0 (at_back 15%nat)) (at_back 16%nat)) ])
  end.

Definition step (s : state) (kw : N * N) : state :=
  let '(k, w) := kw in
  let t1 := add32 (add32 (add32 (sh s) (bigsig1 (se s)))
                         (add32 (choose (se s) (sf s) (sg s)) k)) w in
  let t2 := add32 (bigsig0 (sa s)) (majority (sa s) (sb s) (sc s)) in
  State (add32 t1 t2) (sa s) (sb s) (sc s) (add32 (sd s) t1) (se s) (sf s) (sg s).

Definition compress (s : state) (block : list N) : state :=
  let w := extend 48 (words_of_bytes block) in
  let r := fold_left step (combine round_constants w) s in
  State (add32 (sa s) (sa r)) (add32 (sb s) (sb r))
        (add32 (sc s) (sc r)) (add32 (sd s) (sd r))
        (add32 (se s) (se r)) (add32 (sf s) (sf r))
        (add32 (sg s) (sg r)) (add32 (sh s) (sh r)).

Definition length_field (bits : N) : list N :=
  bytes_of_word (N.shiftr bits 32) ++ bytes_of_word (wrap bits).

Definition pad (msg : list N) : list N :=
  let n := List.length msg in
  let zeros := ((64 - ((n + 9) mod 64)) mod 64)%nat in
  msg ++ [128] ++ repeat 0 zeros ++ length_field (8 * N.of_nat n).

Fixpoint blocks (fuel : nat) (bs : list N) : list (list N) :=
  match fuel, bs with
  | O, _ => []
  | _, [] => []
  | S fuel', _ => firstn 64 bs :: blocks fuel' (skipn 64 bs)
  end.

Definition byte_of_N (n : N) : byte :=
  match Byte.of_N (N.land n 255) with
  | Some b => b
  | None => x00
  end.

Definition output (s : state) : list byte :=
  map byte_of_N
    (bytes_of_word (sa s) ++ bytes_of_word (sb s) ++
     bytes_of_word (sc s) ++ bytes_of_word (sd s) ++
     bytes_of_word (se s) ++ bytes_of_word (sf s) ++
     bytes_of_word (sg s) ++ bytes_of_word (sh s)).

Definition digest (msg : list byte) : list byte :=
  let padded := pad (map Byte.to_N msg) in
  output (fold_left compress (blocks (List.length padded) padded) initial).

End SHA256.

Module HMAC.

Definition block_size : nat := 64.

Definition xor_with (c : N) (key : list byte) : list byte :=
  map (fun b => SHA256.byte_of_N (N.lxor (Byte.to_N b) c)) key.

Definition block_key (key : list byte) : list byte :=
  let k := if (block_size <? List.length key)%nat then SHA256.digest key else key in
  k ++ repeat x00 (block_size - List.length k).

(** [HMAC(K, m) = H((K' xor opad) || H((K' xor ipad) || m))] *)
Definition hmac_sha256 (key msg : list byte) : list byte :=
  let k := block_key key in
  SHA256.digest (xor_with 0x5c k ++ SHA256.digest (xor_with 0x36 k ++ msg)).

End HMAC.

(* ===================================================================== *)
(** ** JSON values and the JavaScript operations the handler applies to them

    A number is held exactly, as the decimal [m * 10^e] of its literal with
    the trailing zeros of [m] removed. [undefined] is the [None] of
    [value]. *)
(* ===================================================================== *)

#[local] Set Warnings "-register-all".

Inductive json : Type :=
| JNull
| JBool (b : bool)
| JNum (m e : Z)
| JStr (s : string)
| JArr (items : list json)
| JObj (fields : list (string * json)).

Definition value : Type := option json.

Definition dquote : ascii := ascii_of_nat 34.
Definition backslash : ascii := ascii_of_nat 92.

Fixpoint assoc {A : Type} (k : string) (fs : list (string * A)) : option A :=
  match fs with
  | [] => None
  | (k', v) :: rest => if String.eqb k k' then Some v else assoc k rest
  end.

Fixpoint assoc_set {A : Type} (k : string) (v : A) (fs : list (string * A))
  : list (string * A) :=
  match fs with
  | [] => [(k, v)]
  | (k', v') :: rest =>
      if String.eqb k k' then (k, v) :: rest else (k', v') :: assoc_set k v rest
  end.

Module JSON.

Definition is_ws (c : ascii) : bool :=
  let n := nat_of_ascii c in
  ((n =? 32) || (n =? 9) || (n =? 10) || (n =? 13))%nat.

Fixpoint skip_ws (s : string) : string :=
  match s with
  | String c r => if is_ws c then skip_ws r else s
  | EmptyString => s
  end.

Definition is_digit (c : ascii) : bool :=
  let n := nat_of_ascii c in ((48 <=? n) && (n <=? 57))%nat.

Definition hex_val (c : ascii) : option N :=
  let n := N_of_ascii c in
  if ((48 <=? n) && (n <=? 57))%N then Some (n - 48)%N
  else if ((97 <=? n) && (n <=? 102))%N then Some (n - 87)%N
  else if ((65 <=? n) && (n <=? 70))%N then Some (n - 55)%N
  else None.

Definition hex4 (s : string) : option (N * string) :=
  match s with
  | String a (String b (String c (String d r))) =>
      match hex_val a, hex_val b, hex_val c, hex_val d with
      | Some a, Some b, Some c, Some d =>
          Some ((((a * 16 + b) * 16 + c) * 16 + d)%N, r)
      | _, _, _, _ => None
      end
  | _ => None
  end.

Definition of_codes (cs : list N) : string :=
  fold_right (fun n s => String (ascii_of_N n) s) EmptyString cs.

(** UTF-8 encoding of a code point *)
Definition utf8 (cp : N) : string :=
  (if cp <? 0x80 then of_codes [cp]
   else if cp <? 0x800 then of_codes [0xC0 + cp / 64; 0x80 + cp mod 64]
   else if cp <? 0x10000 then
     of_codes [0xE0 + cp / 4096; 0x80 + (cp / 64) mod 64; 0x80 + cp mod 64]
   else
     of_codes [0xF0 + cp / 262144; 0x80 + (cp / 4096) mod 64;
               0x80 + (cp / 64) mod 64; 0x80 + cp mod 64])%N.

Definition is_high (u : N) : bool := ((0xD800 <=? u) && (u <=? 0xDBFF))%N.
Definition is_low (u : N) : bool := ((0xDC00 <=? u) && (u <=? 0xDFFF))%N.

Definition cons_str (p : string) (r : option (string * string))
  : option (string * string) :=
  match r with
  | Some (s, rest) => Some ((p ++ s)%string, rest)
  | None => None
  end.

Definition one (n : nat) : string := String (ascii_of_nat n) EmptyString.

(** The characters of a string literal, after its opening quote, up to
    and including the closing quote. A surrogate escape with no partner
    is read as U+FFFD. *)
Fixpoint parse_chars (fuel : nat) (s : string) : option (string * string) :=
  match fuel with
  | O => None
  | S fuel' =>
      match s with
      | EmptyString => None
      | String c r =>
          if Ascii.eqb c dquote then Some (EmptyString, r)
          else if Ascii.eqb c backslash then
            match r with
            | EmptyString => None
            | String e r' =>
                if Ascii.eqb e dquote then cons_str (one 34) (parse_chars fuel' r')
                else if Ascii.eqb e backslash then cons_str (one 92) (parse_chars fuel' r')
                else if Ascii.eqb e "/" then cons_str "/" (parse_chars fuel' r')
                else if Ascii.eqb e "b" then cons_str (one 8) (parse_chars fuel' r')
                else if Ascii.eqb e "f" then cons_str (one 12) (parse_chars fuel' r')
                else if Ascii.eqb e "n" then cons_str (one 10) (parse_chars fuel' r')
                else if Ascii.eqb e "r" then cons_str (one 13) (parse_chars fuel' r')
                else if Ascii.eqb e "t" then cons_str (one 9) (parse_chars fuel' r')
                else if Ascii.eqb e "u" then
                  match hex4 r' with
                  | None => None
                  | Some (u, r2) =>
                      if is_high u then
                        match r2 with
                        | String e1 (String e2 r3) =>
                            if Ascii.eqb e1 backslash && Ascii.eqb e2 "u" then
                              match hex4 r3 with
                              | Some (l, r4) =>
                                  if is_low l then
                                    cons_str
                                      (utf8 (0x10000 + (u - 0xD800) * 1024 + (l - 0xDC00))%N)
                                      (parse_chars fuel' r4)
                                  else cons_str (utf8 0xFFFD) (parse_chars fuel' r2)
                              | None => None
                              end
                            else cons_str (utf8 0xFFFD) (parse_chars fuel' r2)
                        | _ => cons_str (utf8 0xFFFD) (parse_chars fuel' r2)
                        end
                      else if is_low u then cons_str (utf8 0xFFFD) (parse_chars fuel' r2)
                      else cons_str (utf8 u) (parse_chars fuel' r2)
                  end
                else None
            end
          else if (nat_of_ascii c <? 32)%nat then None
          else cons_str (String c EmptyString) (parse_chars fuel' r)
      end
  end.

Definition parse_string (s : string) : option (string * string) :=
  parse_chars (S (String.length s)) s.

Fixpoint take_digits (s : string) : string * string :=
  match s with
  | String c r =>
      if is_digit c then let '(ds, rest) := take_digits r in (String c ds, rest)
      else (EmptyString, s)
  | EmptyString => (EmptyString, EmptyString)
  end.

Fixpoint digits_val (acc : Z) (ds : string) : Z :=
  match ds with
  | String c r => digits_val (acc * 10 + Z.of_nat (nat_of_ascii c - 48)) r
  | EmptyString => acc
  end.

Fixpoint strip_zeros (fuel : nat) (m e : Z) : Z * Z :=
  match fuel with
  | O => (m, e)
  | S fuel' =>
      if (m =? 0)%Z then (0, 0)%Z
      else if (m mod 10 =? 0)%Z then strip_zeros fuel' (m / 10)%Z (e + 1)%Z
      else (m, e)
  end.

Definition number (neg : bool) (ip fp : string) (ex : Z) : json :=
  let m := digits_val 0 (ip ++ fp)%string in
  let '(m', e') := strip_zeros (S (String.length (ip ++ fp)%string)) m
                               (ex - Z.of_nat (String.length fp))%Z in
  JNum (if neg then - m' else m')%Z e'.

Definition parse_exponent (s : string) : option (Z * string) :=
  match s with
  | String c r =>
      if Ascii.eqb c "e" || Ascii.eqb c "E" then
        let '(neg, r1) :=
          match r with
          | String sg r' =>
              if Ascii.eqb sg "-" then (true, r')
              else if Ascii.eqb sg "+" then (false, r')
              else (false, r)
          | EmptyString => (false, r)
          end in
        let '(ds, r2) := take_digits r1 in
        if (String.length ds =? 0)%nat then None
        else Some ((if neg then - digits_val 0 ds else digits_val 0 ds)%Z, r2)
      else Some (0%Z, s)
  | EmptyString => Some (0%Z, s)
  end.

Definition parse_fraction (s : string) : option (string * string) :=
  match s with
  | String c r =>
      if Ascii.eqb c "." then
        let '(ds, r') := take_digits r in
        if (String.length ds =? 0)%nat then None else Some (ds, r')
      else Some (EmptyString, s)
  | EmptyString => Some (EmptyString, s)
  end.

Definition parse_number (s : string) : option (json * string) :=
  let '(neg, s1) :=
    match s with
    | String c r => if Ascii.eqb c "-" then (true, r) else (false, s)
    | EmptyString => (false, s)
    end in
  let '(ip, s2) := take_digits s1 in
  if (String.length ip =? 0)%nat then None
  else if String.prefix "0" ip && (1 <? String.length ip)%nat then None
  else
    match parse_fraction s2 with
    | None => None
    | Some (fp, s3) =>
        match parse_exponent s3 with
        | None => None
        | Some (ex, s4) => Some (number neg ip fp ex, s4)
        end
    end.

Fixpoint parse_value (fuel : nat) (s : string) {struct fuel}
  : option (json * string) :=
  match fuel with
  | O => None
  | S fuel' =>
      match skip_ws s with
      | EmptyString => None
      | String c r =>
          if Ascii.eqb c "{" then
            match skip_ws r with
            | String c' r' =>
                if Ascii.eqb c' "}" then Some (JObj [], r')
                else parse_members fuel' (String c' r') []
            | EmptyString => None
            end
          else if Ascii.eqb c "[" then
            match skip_ws r with
            | String c' r' =>
                if Ascii.eqb c' "]" then Some (JArr [], r')
                else parse_elements fuel' (String c' r') []
            | EmptyString => None
            end
          else if Ascii.eqb c dquote then
            match parse_string r with
            | Some (str, r') => Some (JStr str, r')
            | None => None
            end
          else if String.prefix "true" (String c r) then
            Some (JBool true, JsString.drop 4 (String c r))
          else if String.prefix "false" (String c r) then
            Some (JBool false, JsString.drop 5 (String c r))
          else if String.prefix "null" (String c r) then
            Some (JNull, JsString.drop 4 (String c r))
          else parse_number (String c r)
      end
  end
with parse_elements (fuel : nat) (s : string) (acc : list json) {struct fuel}
  : option (json * string) :=
  match fuel with
  | O => None
  | S fuel' =>
      match parse_value fuel' s with
      | Some (v, r) =>
          match skip_ws r with
          | String c r' =>
              if Ascii.eqb c "," then parse_elements fuel' r' (v :: acc)
              else if Ascii.eqb c "]" then Some (JArr (rev (v :: acc)), r')
              else None
          | EmptyString => None
          end
      | None => None
      end
  end
with parse_members (fuel : nat) (s : string) (acc : list (string * json))
       {struct fuel} : option (json * string) :=
  match fuel with
  | O => None
  | S fuel' =>
      match skip_ws s with
      | String c r =>
          if Ascii.eqb c dquote then
            match parse_string r with
            | Some (k, r1) =>
                match skip_ws r1 with
                | String c1 r2 =>
                    if Ascii.eqb c1 ":" then
                      match parse_value fuel' r2 with
                      | Some (v, r3) =>
                          match skip_ws r3 with
                          | String c3 r4 =>
                              if Ascii.eqb c3 "," then
                                parse_members fuel' r4 (assoc_set k v acc)
                              else if Ascii.eqb c3 "}" then
                                Some (JObj (assoc_set k v acc), r4)
                              else None
                          | EmptyString => None
                          end
                      | None => None
                      end
                    else None
                | EmptyString => None
                end
            | None => None
            end
          else None
      | EmptyString => None
      end
  end.

(** [JSON.parse(s)]; [None] stands for the [SyntaxError] it throws. *)
Definition parse (s : string) : option json :=
  match parse_value (2 * String.length s + 2) s with
  | Some (v, r) =>
      match skip_ws r with
      | EmptyString => Some v
      | String _ _ => None
      end
  | None => None
  end.

End JSON.

(* ===================================================================== *)
(** ** Conversions of JSON values by the JavaScript runtime *)
(* ===================================================================== *)

Module Js.

Definition digits (n : N) : string := NilZero.string_of_uint (N.to_uint n).

Fixpoint zeros (k : nat) : string :=
  match k with
  | O => EmptyString
  | S k' => String "0" (zeros k')
  end.

(** [Number.prototype.toString] on the decimal [m * 10^e], [m] without
    trailing zeros (exact for literals of up to 15 significant digits
    within the range of a double). *)
Definition number_toString (m e : Z) : string :=
  if (m =? 0)%Z then "0"
  else
    let ds := digits (Z.abs_N m) in
    let k := Z.of_nat (String.length ds) in
    let n := (k + e)%Z in
    ((if (m <? 0)%Z then "-" else "") ++
     (if ((k <=? n) && (n <=? 21))%Z then ds ++ zeros (Z.to_nat (n - k))
      else if ((0 <? n) && (n <=? 21))%Z then
        substring 0 (Z.to_nat n) ds ++ "." ++ JsString.drop (Z.to_nat n) ds
      else if ((-6 <? n) && (n <=? 0))%Z then "0." ++ zeros (Z.to_nat (- n)) ++ ds
      else
        let x := (n - 1)%Z in
        let es := (if (x <? 0)%Z then "-" else "+") ++ digits (Z.abs_N x) in
        match ds with
        | String d EmptyString => String d ("e" ++ es)
        | String d rest => String d ("." ++ rest ++ "e" ++ es)
        | EmptyString => EmptyString
        end))%string.

Fixpoint join_with (sep : string) (parts : list string) : string :=
  match parts with
  | [] => EmptyString
  | [p] => p
  | p :: rest => (p ++ sep ++ join_with sep rest)%string
  end.

(** [ToString(v)], which template literals and PostgREST filters apply
    (objects as [Object.prototype.toString] renders them). *)
Fixpoint json_String (v : json) : string :=
  match v with
  | JNull => "null"
  | JBool true => "true"
  | JBool false => "false"
  | JNum m e => number_toString m e
  | JStr s => s
  | JArr items =>
      join_with ","
        (map (fun x => match x with JNull => EmptyString | _ => json_String x end) items)
  | JObj _ => "[object Object]"
  end.

Definition ToString (v : value) : string :=
  match v with
  | None => "undefined"
  | Some j => json_String j
  end.

Definition hex2 (n : N) : string :=
  String (JsString.hex_digit (n / 16)) (String (JsString.hex_digit (n mod 16)) EmptyString).

Definition escape (c : ascii) : string :=
  let n := nat_of_ascii c in
  if Ascii.eqb c dquote then String backslash (String dquote EmptyString)
  else if Ascii.eqb c backslash then String backslash (String backslash EmptyString)
  else if (n =? 8)%nat then String backslash "b"
  else if (n =? 9)%nat then String backslash "t"
  else if (n =? 10)%nat then String backslash "n"
  else if (n =? 12)%nat then String backslash "f"
  else if (n =? 13)%nat then String backslash "r"
  else if (n <? 32)%nat then (String backslash "u00" ++ hex2 (N.of_nat n))%string
  else String c EmptyString.

Definition quote (s : string) : string :=
  String dquote
    (String.concat EmptyString (map escape (list_ascii_of_string s)) ++
     String dquote EmptyString)%string.

(** [JSON.stringify(v)] *)
Fixpoint stringify (v : json) : string :=
  match v with
  | JNull => "null"
  | JBool true => "true"
  | JBool false => "false"
  | JNum m e => number_toString m e
  | JStr s => quote s
  | JArr items => ("[" ++ join_with "," (map stringify items) ++ "]")%string
  | JObj fields =>
      ("{" ++ join_with ","
                (map (fun kv => (quote (fst kv) ++ ":" ++ stringify (snd kv))%string)
                     fields) ++ "}")%string
  end.

(** Truthiness, as [||], [!] and [if] test it. *)
Definition truthy (v : value) : bool :=
  match v with
  | None => false
  | Some JNull => false
  | Some (JBool b) => b
  | Some (JNum m _) => negb (m =? 0)%Z
  | Some (JStr s) => negb (String.eqb s EmptyString)
  | Some (JArr _) => true
  | Some (JObj _) => true
  end.

(** The fields of an object literal: a key whose value is [undefined] is
    dropped when the literal is serialized for PostgREST. *)
Fixpoint literal (fields : list (string * value)) : list (string * json) :=
  match fields with
  | [] => []
  | (k, Some v) :: rest => (k, v) :: literal rest
  | (_, None) :: rest => literal rest
  end.

End Js.

(* ===================================================================== *)
(** ** The tables of the migrations, as PostgREST exposes them

    A row maps each column of its table to a JSON cell, [JNull] being SQL
    NULL. The constraints are the ones the migrations declare: NOT NULL,
    DEFAULT, UNIQUE, CHECK and the BEFORE UPDATE triggers on [updated_at].
    A statement that violates one fails as a whole and changes nothing.
    (Conversion errors of typed columns are not derived from the data; a
    statement can in any case fail for a reason of its own, see [Env].) *)
(* ===================================================================== *)

Inductive Table : Type :=
| doclayer_documents
| doclayer_extractions
| doclayer_webhook_events
| doclayer_batches
| doclayer_billing_alerts
| doclayer_usage_reports
| doclayer_workflows.

Inductive DbOp : Type := Insert | Upsert | Update | Select.

Inductive PostgrestError : Type :=
| Unavailable
| UnknownColumn
| NotNullViolation
| CheckViolation
| UniqueViolation
| NotSingleRow.

Definition row : Type := list (string * json).

Record Database : Type := mkDatabase
  { documents : list row;
    extractions : list row;
    webhook_events : list row;
    batches : list row;
    billing_alerts : list row;
    usage_reports : list row;
    workflows : list row;
    uuid_counter : nat }.

Module Store.

Definition Table_eqb (a b : Table) : bool :=
  match a, b with
  | doclayer_documents, doclayer_documents
  | doclayer_extractions, doclayer_extractions
  | doclayer_webhook_events, doclayer_webhook_events
  | doclayer_batches, doclayer_batches
  | doclayer_billing_alerts, doclayer_billing_alerts
  | doclayer_usage_reports, doclayer_usage_reports
  | doclayer_workflows, doclayer_workflows => true
  | _, _ => false
  end.

Definition empty : Database := mkDatabase [] [] [] [] [] [] [] 0.

Definition rows (t : Table) (d : Database) : list row :=
  match t with
  | doclayer_documents => documents d
  | doclayer_extractions => extractions d
  | doclayer_webhook_events => webhook_events d
  | doclayer_batches => batches d
  | doclayer_billing_alerts => billing_alerts d
  | doclayer_usage_reports => usage_reports d
  | doclayer_workflows => workflows d
  end.

Definition with_rows (t : Table) (rs : list row) (fresh : nat) (d : Database)
  : Database :=
  let n := uuid_counter d + fresh in
  match t with
  | doclayer_documents =>
      mkDatabase rs (extractions d) (webhook_events d) (batches d)
                 (billing_alerts d) (usage_reports d) (workflows d) n
  | doclayer_extractions =>
      mkDatabase (documents d) rs (webhook_events d) (batches d)
                 (billing_alerts d) (usage_reports d) (workflows d) n
  | doclayer_webhook_events =>
      mkDatabase (documents d) (extractions d) rs (batches d)
                 (billing_alerts d) (usage_reports d) (workflows d) n
  | doclayer_batches =>
      mkDatabase (documents d) (extractions d) (webhook_events d) rs
                 (billing_alerts d) (usage_reports d) (workflows d) n
  | doclayer_billing_alerts =>
      mkDatabase (documents d) (extractions d) (webhook_events d) (batches d)
                 rs (usage_reports d) (workflows d) n
  | doclayer_usage_reports =>
      mkDatabase (documents d) (extractions d) (webhook_events d) (batches d)
                 (billing_alerts d) rs (workflows d) n
  | doclayer_workflows =>
      mkDatabase (documents d) (extractions d) (webhook_events d) (batches d)
                 (billing_alerts d) (usage_reports d) rs n
  end.

Definition cell (r : row) (c : string) : json :=
  match assoc c r with
  | Some v => v
  | None => JNull
  end.

(** The text Postgres holds for a cell of a TEXT column. *)
Definition pg_text (v : json) : option string :=
  match v with
  | JNull => None
  | JStr s => Some s
  | _ => Some (Js.stringify v)
  end.

Inductive default : Type := NoDefault | Const (v : json) | NOW | gen_random_uuid.

Record column : Type := Col
  { cname : string; not_null : bool; cdefault : default }.

Definition nullable (n : string) : column := Col n false NoDefault.

Definition columns (t : Table) : list column :=
  match t with
  | doclayer_documents =>
      [ Col "id" true gen_random_uuid;
        Col "doclayer_job_id" true NoDefault;
        nullable "doclayer_document_id";
        nullable "filename"; nullable "file_type"; nullable "file_size_bytes";
        nullable "checksum";
        Col "status" true (Const (JStr "pending"));
        Col "insights_count" false (Const (JNum 0 0));
        nullable "confidence_metrics"; nullable "processing_metrics";
        nullable "processing_time_seconds";
        nullable "error_message"; nullable "error_type";
        nullable "agent_template_id"; nullable "project_id";
        nullable "raw_payload";
        nullable "doclayer_created_at";
        Col "created_at" false NOW;
        Col "updated_at" false NOW ]
  | doclayer_extractions =>
      [ Col "id" true gen_random_uuid;
        Col "document_id" true NoDefault;
        Col "extraction_type" true NoDefault;
        nullable "extraction_key";
        Col "content" true NoDefault;
        nullable "confidence";
        nullable "page_number"; nullable "bounding_box"; nullable "source_text";
        Col "created_at" false NOW ]
  | doclayer_webhook_events =>
      [ Col "id" true gen_random_uuid;
        Col "event_type" true NoDefault;
        nullable "event_id";
        Col "payload" true NoDefault;
        Col "processed" false (Const (JBool false));
        nullable "processed_at";
        nullable "error_message";
        Col "received_at" false NOW;
        Col "signature_valid" false (Const (JBool false)) ]
  | doclayer_batches =>
      [ Col "id" true gen_random_uuid;
        Col "batch_id" true NoDefault;
        nullable "project_id";
        Col "total_documents" true (Const (JNum 0 0));
        Col "completed_count" false (Const (JNum 0 0));
        Col "failed_count" false (Const (JNum 0 0));
        Col "status" true (Const (JStr "pending"));
        nullable "error_message"; nullable "error_type";
        nullable "duration_seconds";
        nullable "raw_payload";
        nullable "started_at"; nullable "completed_at";
        Col "created_at" false NOW;
        Col "updated_at" false NOW ]
  | doclayer_billing_alerts =>
      [ Col "id" true gen_random_uuid;
        Col "alert_type" true NoDefault;
        nullable "current_balance"; nullable "threshold";
        Col "currency" false (Const (JStr "USD"));
        Col "acknowledged" false (Const (JBool false));
        nullable "acknowledged_at";
        nullable "raw_payload";
        Col "created_at" false NOW ]
  | doclayer_usage_reports =>
      [ Col "id" true gen_random_uuid;
        Col "period_start" true NoDefault;
        Col "period_end" true NoDefault;
        Col "total_documents" false (Const (JNum 0 0));
        Col "total_pages" false (Const (JNum 0 0));
        Col "total_cost" false (Const (JNum 0 0));
        Col "currency" false (Const (JStr "USD"));
        nullable "breakdown";
        nullable "raw_payload";
        Col "created_at" false NOW ]
  | doclayer_workflows =>
      [ Col "id" true gen_random_uuid;
        Col "workflow_id" true NoDefault;
        Col "workflow_type" true NoDefault;
        nullable "document_id";
        Col "status" true (Const (JStr "pending"));
        nullable "result";
        nullable "error_message"; nullable "error_type";
        nullable "duration_seconds";
        nullable "raw_payload";
        nullable "started_at"; nullable "completed_at";
        Col "created_at" false NOW;
        Col "updated_at" false NOW ]
  end.

(** The UNIQUE column of a table, beside its generated primary key. *)
Definition unique_column (t : Table) : option string :=
  match t with
  | doclayer_documents => Some "doclayer_job_id"
  | doclayer_batches => Some "batch_id"
  | doclayer_workflows => Some "workflow_id"
  | _ => None
  end.

(** Tables with a BEFORE UPDATE trigger that sets [updated_at = NOW()]. *)
Definition has_update_trigger (t : Table) : bool :=
  match t with
  | doclayer_documents | doclayer_batches | doclayer_workflows => true
  | _ => false
  end.

Definition one_of (allowed : list string) (v : json) : bool :=
  match pg_text v with
  | None => true
  | Some s => existsb (String.eqb s) allowed
  end.

Definition in_unit_interval (v : json) : bool :=
  match v with
  | JNull => true
  | JNum m e =>
      ((0 <=? m) &&
       ((m =? 0) || ((e <=? 0) && (m <=? 10 ^ (- e)))))%Z
  | _ => false
  end.

(** The CHECK constraints. *)
Definition check (t : Table) (r : row) : bool :=
  match t with
  | doclayer_documents | doclayer_batches =>
      one_of ["pending"; "processing"; "completed"; "failed"; "cancelled"]
             (cell r "status")
  | doclayer_workflows =>
      one_of ["pending"; "running"; "completed"; "failed"; "cancelled"]
             (cell r "status")
  | doclayer_billing_alerts =>
      one_of ["credits_low"; "credits_exhausted"; "payment_failed";
              "subscription_expired"]
             (cell r "alert_type")
  | doclayer_extractions => in_unit_interval (cell r "confidence")
  | _ => true
  end.

Definition uuid (n : nat) : json :=
  JStr (NilZero.string_of_uint (Nat.to_uint n)).

Definition default_value (now : string) (id : nat) (d : default) : json :=
  match d with
  | NoDefault => JNull
  | Const v => v
  | NOW => JStr now
  | gen_random_uuid => uuid id
  end.

Definition known (t : Table) (obj : row) : bool :=
  forallb (fun kv => existsb (fun c => String.eqb (cname c) (fst kv)) (columns t)) obj.

(** The row an INSERT of [obj] proposes: a column absent from [obj]
    takes its default. *)
Definition new_row (t : Table) (now : string) (id : nat) (obj : row) : row :=
  map (fun c => (cname c,
                 match assoc (cname c) obj with
                 | Some v => v
                 | None => default_value now id (cdefault c)
                 end))
      (columns t).

(** [SET c = v] for every column of [obj]. *)
Definition assign (obj : row) (r : row) : row :=
  map (fun kv => (fst kv,
                  match assoc (fst kv) obj with
                  | Some v => v
                  | None => snd kv
                  end)) r.

Definition updated (t : Table) (now : string) (obj : row) (r : row) : row :=
  let r' := assign obj r in
  if has_update_trigger t then assign [("updated_at", JStr now)] r' else r'.

Definition violation (t : Table) (r : row) : option PostgrestError :=
  if negb (forallb (fun c => negb (not_null c) ||
                             match cell r (cname c) with JNull => false | _ => true end)
                   (columns t))
  then Some NotNullViolation
  else if negb (check t r) then Some CheckViolation
  else None.

Fixpoint first_violation (t : Table) (rs : list row) : option PostgrestError :=
  match rs with
  | [] => None
  | r :: rest =>
      match violation t r with
      | Some e => Some e
      | None => first_violation t rest
      end
  end.

Definition key (t : Table) (r : row) : option string :=
  match unique_column t with
  | Some c => pg_text (cell r c)
  | None => None
  end.

Fixpoint distinct (ks : list string) : bool :=
  match ks with
  | [] => true
  | k :: rest => negb (existsb (String.eqb k) rest) && distinct rest
  end.

Fixpoint somes {A : Type} (l : list (option A)) : list A :=
  match l with
  | [] => []
  | Some a :: rest => a :: somes rest
  | None :: rest => somes rest
  end.

(** The UNIQUE constraint on a table's content. *)
Definition keys_distinct (t : Table) (rs : list row) : bool :=
  distinct (somes (map (key t) rs)).

(** [WHERE c = text] *)
Definition matching (c text : string) (r : row) : bool :=
  match pg_text (cell r c) with
  | Some s => String.eqb s text
  | None => false
  end.

Definition commit (t : Table) (changed : list row) (rs : list row) (fresh : nat)
           (d : Database) : PostgrestError + Database :=
  match first_violation t changed with
  | Some e => inl e
  | None =>
      if keys_distinct t rs then inr (with_rows t rs fresh d)
      else inl UniqueViolation
  end.

(** [INSERT INTO t ...] of one or several objects *)
Definition insert (t : Table) (now : string) (objs : list row) (d : Database)
  : PostgrestError + Database :=
  if negb (forallb (known t) objs) then inl UnknownColumn
  else
    let news :=
      map (fun io => new_row t now (uuid_counter d + fst io) (snd io))
          (combine (seq 0 (List.length objs)) objs) in
    commit t news (rows t d ++ news) (List.length objs) d.

(** [UPDATE t SET obj WHERE c = text] *)
Definition update (t : Table) (now : string) (obj : row) (c text : string)
           (d : Database) : PostgrestError + Database :=
  if negb (known t obj) then inl UnknownColumn
  else
    let hit := filter (matching c text) (rows t d) in
    commit t (map (updated t now obj) hit)
           (map (fun r => if matching c text r then updated t now obj r else r)
                (rows t d))
           0 d.

(** [INSERT INTO t ... ON CONFLICT (c) DO UPDATE SET obj]: the proposed
    row is checked first; a row holding the same [c] is updated in place,
    otherwise the proposed row is added. *)
Definition upsert (t : Table) (now : string) (obj : row) (c : string)
           (d : Database) : PostgrestError + Database :=
  if negb (known t obj) then inl UnknownColumn
  else
    let proposed := new_row t now (uuid_counter d) obj in
    match violation t proposed with
    | Some e => inl e
    | None =>
        match pg_text (cell proposed c) with
        | Some k =>
            if existsb (matching c k) (rows t d) then update t now obj c k d
            else commit t [proposed] (rows t d ++ [proposed]) 1 d
        | None => commit t [proposed] (rows t d ++ [proposed]) 1 d
        end
    end.

(** [SELECT ... WHERE c = text] with [.single()] *)
Definition select_single (t : Table) (c text : string) (d : Database)
  : PostgrestError + row :=
  match filter (matching c text) (rows t d) with
  | [r] => inr r
  | _ => inl NotSingleRow
  end.

End Store.

(* ===================================================================== *)
(** ** Effects of the handler: exceptions, the store, the console *)
(* ===================================================================== *)

(** What the handler can throw: [JSON.parse] on a malformed body, a
    property read on [null] or [undefined], [crypto.subtle.importKey] on an
    empty HMAC key, and the [error] of a document upsert. *)
Inductive exn : Type :=
| SyntaxError
| TypeError
| DataError
| Thrown (error : PostgrestError).

Inductive Result (A : Type) : Type :=
| Ok (a : A)
| Throw (e : exn).
Arguments Ok {A} a.
Arguments Throw {A} e.

(** What a request does that can be observed from outside: console lines
    (by their fixed text), calls to the store with the [error] they
    return, and outbound HTTP requests. *)
Inductive Event : Type :=
| console_log (msg : string)
| console_error (msg : string)
| db_call (t : Table) (op : DbOp) (error : option PostgrestError)
| http_get (url : string).

Inductive FetchOutcome : Type :=
| NetworkFailure
| Responded (status : nat) (body : string).

(** The surroundings of one request: the environment variables, the clock,
    the statements the store fails for a reason of its own (an outage, a
    table the deployment does not have), and the Doclayer API. *)
Record Env : Type := mkEnv
  { DOCLAYER_WEBHOOK_SECRET : option string;
    DOCLAYER_API_KEY : option string;
    DOCLAYER_API_URL : option string;
    now : string;
    unavailable : Table -> DbOp -> bool;
    fetch : string -> FetchOutcome }.

Record Request : Type := mkRequest
  { method : string;
    x_webhook_signature : option string;
    x_webhook_event : option string;
    x_webhook_delivery : option string;
    body : string }.

Inductive ResponseBody : Type :=
| MethodNotAllowed
| InvalidSignature
| Success (event_type : value) (delivery_id : string)
| InternalServerError (e : exn).

Record Response : Type := mkResponse
  { status : nat; content : ResponseBody }.

Record World : Type := mkWorld { db : Database; trace : list Event }.

Definition M (A : Type) : Type := World -> Result A * World.

Definition ret {A : Type} (a : A) : M A := fun w => (Ok a, w).

Definition bind {A B : Type} (c : M A) (k : A -> M B) : M B :=
  fun w =>
    match c w with
    | (Ok a, w') => k a w'
    | (Throw e, w') => (Throw e, w')
    end.

Definition throw {A : Type} (e : exn) : M A := fun w => (Throw e, w).

Definition try_catch {A : Type} (c : M A) (h : exn -> M A) : M A :=
  fun w =>
    match c w with
    | (Ok a, w') => (Ok a, w')
    | (Throw e, w') => h e w'
    end.

Definition emit (e : Event) : M unit :=
  fun w => (Ok tt, mkWorld (db w) (trace w ++ [e])).

Definition lift {A : Type} (r : Result A) : M A := fun w => (r, w).

Declare Scope monad_scope.
Delimit Scope monad_scope with monad.
Notation "x <- c ;; k" := (bind c (fun x => k))
  (at level 61, c at next level, right associativity) : monad_scope.
Notation "c ;; k" := (bind c (fun _ => k))
  (at level 61, right associativity) : monad_scope.
Local Open Scope monad_scope.

(** [v.k]: a [TypeError] on [undefined] and [null]; none of the names the
    handler reads exists on a primitive or an array. *)
Definition prop (v : value) (k : string) : M value :=
  match v with
  | None => throw TypeError
  | Some JNull => throw TypeError
  | Some (JObj fields) => ret (assoc k fields)
  | Some _ => ret None
  end.

(** [h || fallback] on a header or environment value. *)
Definition nonempty (h : option string) : option string :=
  match h with
  | Some s => if String.eqb s EmptyString then None else Some s
  | None => None
  end.

Definition or_default (h : option string) (fallback : string) : string :=
  match nonempty h with
  | Some s => s
  | None => fallback
  end.

(* ===================================================================== *)
(** ** [verifySignature] *)
(* ===================================================================== *)

(** [crypto.subtle.importKey("raw", k, {name: "HMAC", ...})] rejects a key
    of length zero with a [DataError]. *)
Definition importKey (raw : list byte) : Result (list byte) :=
  match raw with
  | [] => Throw DataError
  | _ :: _ => Ok raw
  end.

Definition sign (key data : list byte) : list byte := HMAC.hmac_sha256 key data.

Definition hex (buffer : list byte) : string :=
  JsString.join
    (map (fun b => JsString.padStart (JsString.toString16 (Byte.to_N b)) 2 "0") buffer).

Definition verifySignature (payload signature secret : string) : Result bool :=
  if String.eqb signature EmptyString
     || negb (JsString.startsWith signature "sha256=")
  then Ok false
  else
    let expectedSignature := JsString.replace signature "sha256=" EmptyString in
    match importKey (JsString.encode secret) with
    | Throw e => Throw e
    | Ok key =>
        let signatureBuffer := sign key (JsString.encode payload) in
        let computedSignature := hex signatureBuffer in
        Ok (String.eqb computedSignature expectedSignature)
    end.

(* ===================================================================== *)
(** ** The handler *)
(* ===================================================================== *)

Section Handler.

Variable env : Env.

(** One statement sent to PostgREST: [{ error }] comes back, nothing is
    thrown. *)
Definition answer (t : Table) (op : DbOp)
           (stmt : Database -> PostgrestError + Database) (d : Database)
  : PostgrestError + Database :=
  if unavailable env t op then inl Unavailable else stmt d.

Definition call (t : Table) (op : DbOp)
           (stmt : Database -> PostgrestError + Database)
  : M (option PostgrestError) :=
  fun w =>
    match answer t op stmt (db w) with
    | inl e => (Ok (Some e), mkWorld (db w) (trace w ++ [db_call t op (Some e)]))
    | inr d => (Ok None, mkWorld d (trace w ++ [db_call t op None]))
    end.

(** [supabase.from(t).insert(obj)] *)
Definition from_insert (t : Table) (obj : list (string * value))
  : M (option PostgrestError) :=
  call t Insert (Store.insert t (now env) [Js.literal obj]).

(** [supabase.from(t).insert(objs)] with an array: the client names every
    key of the objects as a column, so a key holding [undefined] is sent
    as NULL. *)
Definition from_insert_all (t : Table) (objs : list (list (string * value)))
  : M (option PostgrestError) :=
  call t Insert
    (Store.insert t (now env)
       (map (map (fun kv => (fst kv, match snd kv with Some v => v | None => JNull end)))
            objs)).

(** [supabase.from(t).upsert(obj, { onConflict })] *)
Definition from_upsert (t : Table) (obj : list (string * value)) (onConflict : string)
  : M (option PostgrestError) :=
  call t Upsert (Store.upsert t (now env) (Js.literal obj) onConflict).

(** [supabase.from(t).update(obj).eq(c, v)] *)
Definition from_update_eq (t : Table) (obj : list (string * value)) (c : string)
           (v : value) : M (option PostgrestError) :=
  call t Update (Store.update t (now env) (Js.literal obj) c (Js.ToString v)).

(** [supabase.from(t).select(...).eq(c, v).single()], its [data] *)
Definition from_select_single (t : Table) (c : string) (v : value) : M (option row) :=
  fun w =>
    match (if unavailable env t Select then inl Unavailable
           else Store.select_single t c (Js.ToString v) (db w)) with
    | inl e => (Ok None, mkWorld (db w) (trace w ++ [db_call t Select (Some e)]))
    | inr r => (Ok (Some r), mkWorld (db w) (trace w ++ [db_call t Select None]))
    end.

Definition toISOString_now : value := Some (JStr (now env)).

Fixpoint mapM {A B : Type} (f : A -> M B) (l : list A) : M (list B) :=
  match l with
  | [] => ret []
  | a :: rest => b <- f a ;; bs <- mapM f rest ;; ret (b :: bs)
  end.

Definition or_else (a b : value) : value := if Js.truthy a then a else b.

Definition extraction_of (docRecord : row) (ext : json) : M (list (string * value)) :=
  type <- prop (Some ext) "type" ;;
  key <- prop (Some ext) "key" ;;
  val <- prop (Some ext) "value" ;;
  content <- prop (Some ext) "content" ;;
  confidence <- prop (Some ext) "confidence" ;;
  page <- prop (Some ext) "page" ;;
  source_text <- prop (Some ext) "source_text" ;;
  ret [ ("document_id", Some (Store.cell docRecord "id"));
        ("extraction_type", or_else type (Some (JStr "unknown")));
        ("extraction_key", key);
        ("content", or_else val (or_else content (Some ext)));
        ("confidence", confidence);
        ("page_number", page);
        ("source_text", source_text) ].

Definition fetchAndStoreExtractions (jobId documentId : value) (apiKey : string)
  : M unit :=
  try_catch
    (let baseUrl := or_default (DOCLAYER_API_URL env) "https://api.doclayer.ai" in
     let url := (baseUrl ++ "/api/v4/documents/" ++ Js.ToString documentId
                         ++ "/extractions")%string in
     emit (http_get url) ;;
     match fetch env url with
     | NetworkFailure => throw TypeError
     | Responded code text =>
         if negb ((200 <=? code) && (code <=? 299))%nat then
           emit (console_error "Failed to fetch extractions: ")
         else
           extractionsData <-
             match JSON.parse text with
             | Some v => ret v
             | None => throw SyntaxError
             end ;;
           docRecord <- from_select_single doclayer_documents "doclayer_job_id" jobId ;;
           match docRecord with
           | None => emit (console_error "Document record not found for extractions")
           | Some record =>
               listed <- prop (Some extractionsData) "extractions" ;;
               items <-
                 (if Js.truthy listed then
                    match listed with
                    | Some (JArr items) => ret items
                    | _ => throw TypeError
                    end
                  else ret []) ;;
               extractions <- mapM (extraction_of record) items ;;
               if (0 <? List.length extractions)%nat then
                 error <- from_insert_all doclayer_extractions extractions ;;
                 match error with
                 | Some _ => emit (console_error "Failed to insert extractions:")
                 | None => emit (console_log "Stored ")
                 end
               else ret tt
           end
     end)
    (fun _ => emit (console_error "Error fetching extractions:")).

Definition handleProcessingStarted (data : value) (rawPayload : json) : M unit :=
  job_id <- prop data "job_id" ;;
  checksum <- prop data "checksum" ;;
  timestamp <- prop data "timestamp" ;;
  error <- from_upsert doclayer_documents
             [ ("doclayer_job_id", job_id);
               ("checksum", checksum);
               ("status", Some (JStr "processing"));
               ("doclayer_created_at", timestamp);
               ("raw_payload", Some rawPayload) ]
             "doclayer_job_id" ;;
  match error with
  | Some e => emit (console_error "Failed to insert document:") ;; throw (Thrown e)
  | None => emit (console_log "Document processing started: ")
  end.

Definition handleProcessingCompleted (data : value) (rawPayload : json) : M unit :=
  job_id <- prop data "job_id" ;;
  document_id <- prop data "document_id" ;;
  insights_count <- prop data "insights_count" ;;
  confidence_metrics <- prop data "confidence_metrics" ;;
  error <- from_upsert doclayer_documents
             [ ("doclayer_job_id", job_id);
               ("doclayer_document_id", document_id);
               ("status", Some (JStr "completed"));
               ("insights_count", insights_count);
               ("confidence_metrics", confidence_metrics);
               ("raw_payload", Some rawPayload);
               ("updated_at", toISOString_now) ]
             "doclayer_job_id" ;;
  match error with
  | Some e => emit (console_error "Failed to update document:") ;; throw (Thrown e)
  | None =>
      emit (console_log "Document processing completed: ") ;;
      match nonempty (DOCLAYER_API_KEY env) with
      | Some apiKey =>
          if Js.truthy document_id
          then fetchAndStoreExtractions job_id document_id apiKey
          else ret tt
      | None => ret tt
      end
  end.

Definition handleProcessingFailed (data : value) (rawPayload : json) : M unit :=
  job_id <- prop data "job_id" ;;
  document_id <- prop data "document_id" ;;
  error_message <- prop data "error" ;;
  error_type <- prop data "error_type" ;;
  error <- from_upsert doclayer_documents
             [ ("doclayer_job_id", job_id);
               ("doclayer_document_id", document_id);
               ("status", Some (JStr "failed"));
               ("error_message", error_message);
               ("error_type", error_type);
               ("raw_payload", Some rawPayload);
               ("updated_at", toISOString_now) ]
             "doclayer_job_id" ;;
  match error with
  | Some e => emit (console_error "Failed to update document:") ;; throw (Thrown e)
  | None => emit (console_log "Document processing failed: ")
  end.

(** The handlers below log a failed write and go on. *)
Definition logged (error : option PostgrestError) (msg : string) : M unit :=
  match error with
  | Some _ => emit (console_error msg)
  | None => ret tt
  end.

Definition handleBatchStarted (data : value) (rawPayload : json) : M unit :=
  batch_id <- prop data "batch_id" ;;
  total_documents <- prop data "total_documents" ;;
  project_id <- prop data "project_id" ;;
  timestamp <- prop data "timestamp" ;;
  error <- from_upsert doclayer_batches
             [ ("batch_id", batch_id);
               ("total_documents", total_documents);
               ("project_id", project_id);
               ("status", Some (JStr "processing"));
               ("started_at", timestamp);
               ("raw_payload", Some rawPayload) ]
             "batch_id" ;;
  logged error "Failed to insert batch:" ;;
  emit (console_log "Batch started: ").

Definition handleBatchProgress (data : value) (_rawPayload : json) : M unit :=
  completed <- prop data "completed" ;;
  failed <- prop data "failed" ;;
  batch_id <- prop data "batch_id" ;;
  error <- from_update_eq doclayer_batches
             [ ("completed_count", completed);
               ("failed_count", failed);
               ("updated_at", toISOString_now) ]
             "batch_id" batch_id ;;
  logged error "Failed to update batch progress:" ;;
  emit (console_log "Batch progress: ").

Definition handleBatchCompleted (data : value) (rawPayload : json) : M unit :=
  successful <- prop data "successful" ;;
  failed <- prop data "failed" ;;
  duration_seconds <- prop data "duration_seconds" ;;
  timestamp <- prop data "timestamp" ;;
  batch_id <- prop data "batch_id" ;;
  error <- from_update_eq doclayer_batches
             [ ("status", Some (JStr "completed"));
               ("completed_count", successful);
               ("failed_count", failed);
               ("duration_seconds", duration_seconds);
               ("completed_at", timestamp);
               ("raw_payload", Some rawPayload);
               ("updated_at", toISOString_now) ]
             "batch_id" batch_id ;;
  logged error "Failed to update batch:" ;;
  emit (console_log "Batch completed: ").

Definition handleBatchFailed (data : value) (rawPayload : json) : M unit :=
  error_message <- prop data "error" ;;
  error_type <- prop data "error_type" ;;
  completed <- prop data "completed" ;;
  batch_id <- prop data "batch_id" ;;
  error <- from_update_eq doclayer_batches
             [ ("status", Some (JStr "failed"));
               ("error_message", error_message);
               ("error_type", error_type);
               ("completed_count", completed);
               ("raw_payload", Some rawPayload);
               ("updated_at", toISOString_now) ]
             "batch_id" batch_id ;;
  logged error "Failed to update batch:" ;;
  emit (console_log "Batch failed: ").

Definition handleBillingCreditsLow (data : value) (rawPayload : json) : M unit :=
  current_balance <- prop data "current_balance" ;;
  threshold <- prop data "threshold" ;;
  currency <- prop data "currency" ;;
  error <- from_insert doclayer_billing_alerts
             [ ("alert_type", Some (JStr "credits_low"));
               ("current_balance", current_balance);
               ("threshold", threshold);
               ("currency", currency);
               ("raw_payload", Some rawPayload) ] ;;
  logged error "Failed to insert billing alert:" ;;
  emit (console_log "BILLING ALERT: Credits low - ").

Definition handleBillingCreditsExhausted (data : value) (rawPayload : json) : M unit :=
  current_balance <- prop data "current_balance" ;;
  currency <- prop data "currency" ;;
  error <- from_insert doclayer_billing_alerts
             [ ("alert_type", Some (JStr "credits_exhausted"));
               ("current_balance", current_balance);
               ("currency", currency);
               ("raw_payload", Some rawPayload) ] ;;
  logged error "Failed to insert billing alert:" ;;
  emit (console_log "BILLING ALERT: Credits exhausted - ").

Definition handleBillingUsageReport (data : value) (rawPayload : json) : M unit :=
  period_start <- prop data "period_start" ;;
  period_end <- prop data "period_end" ;;
  total_documents <- prop data "total_documents" ;;
  total_pages <- prop data "total_pages" ;;
  total_cost <- prop data "total_cost" ;;
  currency <- prop data "currency" ;;
  error <- from_insert doclayer_usage_reports
             [ ("period_start", period_start);
               ("period_end", period_end);
               ("total_documents", total_documents);
               ("total_pages", total_pages);
               ("total_cost", total_cost);
               ("currency", currency);
               ("raw_payload", Some rawPayload) ] ;;
  logged error "Failed to insert usage report:" ;;
  emit (console_log "Usage report: ").

Definition handleWorkflowStarted (data : value) (rawPayload : json) : M unit :=
  workflow_id <- prop data "workflow_id" ;;
  workflow_type <- prop data "workflow_type" ;;
  document_id <- prop data "document_id" ;;
  timestamp <- prop data "timestamp" ;;
  error <- from_upsert doclayer_workflows
             [ ("workflow_id", workflow_id);
               ("workflow_type", workflow_type);
               ("document_id", document_id);
               ("status", Some (JStr "running"));
               ("started_at", timestamp);
               ("raw_payload", Some rawPayload) ]
             "workflow_id" ;;
  logged error "Failed to insert workflow:" ;;
  emit (console_log "Workflow started: ").

Definition handleWorkflowCompleted (data : value) (rawPayload : json) : M unit :=
  result <- prop data "result" ;;
  duration_seconds <- prop data "duration_seconds" ;;
  timestamp <- prop data "timestamp" ;;
  workflow_id <- prop data "workflow_id" ;;
  error <- from_update_eq doclayer_workflows
             [ ("status", Some (JStr "completed"));
               ("result", result);
               ("duration_seconds", duration_seconds);
               ("completed_at", timestamp);
               ("raw_payload", Some rawPayload);
               ("updated_at", toISOString_now) ]
             "workflow_id" workflow_id ;;
  logged error "Failed to update workflow:" ;;
  emit (console_log "Workflow completed: ").

Definition handleWorkflowFailed (data : value) (rawPayload : json) : M unit :=
  error_message <- prop data "error" ;;
  error_type <- prop data "error_type" ;;
  workflow_id <- prop data "workflow_id" ;;
  error <- from_update_eq doclayer_workflows
             [ ("status", Some (JStr "failed"));
               ("error_message", error_message);
               ("error_type", error_type);
               ("raw_payload", Some rawPayload);
               ("updated_at", toISOString_now) ]
             "workflow_id" workflow_id ;;
  logged error "Failed to update workflow:" ;;
  emit (console_log "Workflow failed: ").

(** The routing keys of the [switch], in its order. *)
Inductive Route : Type :=
| document_processing_started
| document_processing_completed
| document_processing_failed
| batch_started
| batch_progress
| batch_completed
| batch_failed
| billing_credits_low
| billing_credits_exhausted
| billing_usage_report
| workflow_started
| workflow_completed
| workflow_failed
| test_ping.

Definition routing_keys : list (string * Route) :=
  [ ("document.processing.started", document_processing_started);
    ("document.processing.completed", document_processing_completed);
    ("document.processing.failed", document_processing_failed);
    ("batch.started", batch_started);
    ("batch.progress", batch_progress);
    ("batch.completed", batch_completed);
    ("batch.failed", batch_failed);
    ("billing.credits.low", billing_credits_low);
    ("billing.credits.exhausted", billing_credits_exhausted);
    ("billing.usage.report", billing_usage_report);
    ("workflow.started", workflow_started);
    ("workflow.completed", workflow_completed);
    ("workflow.failed", workflow_failed);
    ("test.ping", test_ping) ].

(** [switch (eventType)] compares with [===]: only a string can match. *)
Definition route_of (eventType : value) : option Route :=
  match eventType with
  | Some (JStr s) => assoc s routing_keys
  | _ => None
  end.

Definition with_data (payload : json) (h : value -> json -> M unit) : M unit :=
  data <- prop (Some payload) "data" ;;
  h data payload.

Definition dispatch (eventType : value) (payload : json) : M unit :=
  match route_of eventType with
  | Some document_processing_started => with_data payload handleProcessingStarted
  | Some document_processing_completed => with_data payload handleProcessingCompleted
  | Some document_processing_failed => with_data payload handleProcessingFailed
  | Some batch_started => with_data payload handleBatchStarted
  | Some batch_progress => with_data payload handleBatchProgress
  | Some batch_completed => with_data payload handleBatchCompleted
  | Some batch_failed => with_data payload handleBatchFailed
  | Some billing_credits_low => with_data payload handleBillingCreditsLow
  | Some billing_credits_exhausted => with_data payload handleBillingCreditsExhausted
  | Some billing_usage_report => with_data payload handleBillingUsageReport
  | Some workflow_started => with_data payload handleWorkflowStarted
  | Some workflow_completed => with_data payload handleWorkflowCompleted
  | Some workflow_failed => with_data payload handleWorkflowFailed
  | Some test_ping => emit (console_log "Received test ping from Doclayer")
  | None => emit (console_log "Unhandled event type: ")
  end.

(** [req.headers.get("x-webhook-event") || payload.event_type] *)
Definition eventType_of (req : Request) (payload : json) : M value :=
  match nonempty (x_webhook_event req) with
  | Some h => ret (Some (JStr h))
  | None => prop (Some payload) "event_type"
  end.

Definition deliveryId_of (req : Request) : string :=
  or_default (x_webhook_delivery req) "unknown".

(** The object logged for every event that reaches the router. *)
Definition audit_record (eventType : value) (deliveryId : string) (payload : json)
  : list (string * value) :=
  [ ("event_type", eventType);
    ("event_id", Some (JStr deliveryId));
    ("payload", Some payload);
    ("signature_valid", Some (JBool true)) ].

(** The object of the update that marks the webhook as processed. *)
Definition processed_mark : list (string * value) :=
  [ ("processed", Some (JBool true));
    ("processed_at", toISOString_now) ].

(** The signature gate: [true] when the request is turned away. *)
Definition signature_rejected (req : Request) : M bool :=
  match nonempty (DOCLAYER_WEBHOOK_SECRET env) with
  | Some webhookSecret =>
      let signature := or_default (x_webhook_signature req) EmptyString in
      isValid <- lift (verifySignature (body req) signature webhookSecret) ;;
      if negb isValid then emit (console_error "Invalid webhook signature") ;; ret true
      else ret false
  | None => ret false
  end.

(** The body of the [try] block after the signature gate. *)
Definition process (req : Request) : M Response :=
  payload <-
    match JSON.parse (body req) with
    | Some v => ret v
    | None => throw SyntaxError
    end ;;
  eventType <- eventType_of req payload ;;
  let deliveryId := deliveryId_of req in
  emit (console_log "Processing webhook: ") ;;
  from_insert doclayer_webhook_events (audit_record eventType deliveryId payload) ;;
  dispatch eventType payload ;;
  from_update_eq doclayer_webhook_events processed_mark
    "event_id" (Some (JStr deliveryId)) ;;
  ret (mkResponse 200 (Success eventType deliveryId)).

Definition attempt (req : Request) : M Response :=
  rejected <- signature_rejected req ;;
  if rejected then ret (mkResponse 401 InvalidSignature) else process req.

(** The handler passed to [serve]: the response, the store it leaves and
    what the request did. *)
Definition serve (req : Request) (d : Database) : Response * Database * list Event :=
  if negb (String.eqb (method req) "POST") then
    (mkResponse 405 MethodNotAllowed, d, [])
  else
    match attempt req (mkWorld d []) with
    | (Ok response, w) => (response, db w, trace w)
    | (Throw e, w) =>
        (mkResponse 500 (InternalServerError e), db w,
         trace w ++ [console_error "Webhook processing error:"])
    end.

End Handler.

(* ===================================================================== *)
(** ** Vocabulary of the properties *)
(* ===================================================================== *)

(** The signature Doclayer sends for [body] under [secret]:
    [sha256=] followed by the hex digest of the HMAC. *)
Definition signature_for (secret body : string) : string :=
  "sha256=" ++ hex (sign (JsString.encode secret) (JsString.encode body)).

Definition byte_hex (b : byte) : string :=
  JsString.padStart (JsString.toString16 (Byte.to_N b)) 2 "0".

(** Reading two hex digits back. *)
Definition byte_of_hex (s : string) : option byte :=
  match s with
  | String h (String l EmptyString) =>
      match JSON.hex_val h, JSON.hex_val l with
      | Some a, Some b => Byte.of_N (a * 16 + b)
      | _, _ => None
      end
  | _ => None
  end.

Definition all_bytes : list byte :=
  map (fun n => SHA256.byte_of_N (N.of_nat n)) (seq 0 256).

(** All the lists of length [n] over an alphabet. *)
Fixpoint words {A : Type} (alphabet : list A) (n : nat) : list (list A) :=
  match n with
  | O => [[]]
  | S n' => flat_map (fun a => map (cons a) (words alphabet n')) alphabet
  end.

(** Request bodies are written with apostrophes for the JSON quotes. *)
Fixpoint json_text (s : string) : string :=
  match s with
  | String c r => String (if Ascii.eqb c "'" then dquote else c) (json_text r)
  | EmptyString => EmptyString
  end.

(** [v.k] where it does not throw, and whether it throws. *)
Definition field (v : value) (k : string) : value :=
  match v with
  | Some (JObj fields) => assoc k fields
  | _ => None
  end.

Definition readable (v : value) : bool :=
  match v with
  | None => false
  | Some JNull => false
  | Some _ => true
  end.

Definition say (w : World) (e : Event) : World :=
  mkWorld (db w) (trace w ++ [e]).

(** The event type a request is routed by. *)
Definition effective_event_type (req : Request) (payload : json) : value :=
  match nonempty (x_webhook_event req) with
  | Some h => Some (JStr h)
  | None => field (Some payload) "event_type"
  end.

(** The status a document event writes. *)
Definition document_status (r : Route) : option string :=
  match r with
  | document_processing_started => Some "processing"
  | document_processing_completed => Some "completed"
  | document_processing_failed => Some "failed"
  | _ => None
  end.

(** The table and the kind of statement of the other handlers. *)
Definition secondary_call (r : Route) : option (Table * DbOp) :=
  match r with
  | batch_started => Some (doclayer_batches, Upsert)
  | batch_progress => Some (doclayer_batches, Update)
  | batch_completed => Some (doclayer_batches, Update)
  | batch_failed => Some (doclayer_batches, Update)
  | billing_credits_low => Some (doclayer_billing_alerts, Insert)
  | billing_credits_exhausted => Some (doclayer_billing_alerts, Insert)
  | billing_usage_report => Some (doclayer_usage_reports, Insert)
  | workflow_started => Some (doclayer_workflows, Upsert)
  | workflow_completed => Some (doclayer_workflows, Update)
  | workflow_failed => Some (doclayer_workflows, Update)
  | _ => None
  end.

Definition job_id_of (payload : json) : value :=
  field (field (Some payload) "data") "job_id".

(** What the three document handlers upsert. *)
Record document_object (payload : json) (s : string) (obj : row) : Prop :=
  { object_status : assoc "status" obj = Some (JStr s);
    object_job_id : assoc "doclayer_job_id" obj = job_id_of payload;
    object_keeps_id : assoc "id" obj = None;
    object_error :
      s = "failed" ->
      assoc "error_message" obj = field (field (Some payload) "data") "error" }.

Inductive is_statement (t : Table) (now : string)
  : DbOp -> (Database -> PostgrestError + Database) -> Prop :=
| statement_insert (obj : row) :
    is_statement t now Insert (Store.insert t now [obj])
| statement_upsert (obj : row) (c : string) :
    is_statement t now Upsert (Store.upsert t now obj c)
| statement_update (obj : row) (c text : string) :
    is_statement t now Update (Store.update t now obj c text).

(** What fetching and storing extractions can do. *)
Inductive enrichment_event : Event -> Prop :=
| enrichment_log (m : string) : enrichment_event (console_log m)
| enrichment_error (m : string) : enrichment_event (console_error m)
| enrichment_get (u : string) : enrichment_event (http_get u)
| enrichment_select (o : option PostgrestError) :
    enrichment_event (db_call doclayer_documents Select o)
| enrichment_insert (o : option PostgrestError) :
    enrichment_event (db_call doclayer_extractions Insert o).

Definition enriched (w w' : World) : Prop :=
  (forall t, t <> doclayer_extractions ->
             Store.rows t (db w') = Store.rows t (db w))
  /\ exists tr, trace w' = trace w ++ tr /\ Forall enrichment_event tr.

(** The runs of [dispatch], handler by handler. *)
Inductive dispatched (env : Env) (eventType : value) (payload : json) (w : World)
  : Result unit -> World -> Prop :=
| dispatched_unhandled :
    route_of eventType = None ->
    dispatched env eventType payload w
      (Ok tt) (say w (console_log "Unhandled event type: "))
| dispatched_ping :
    route_of eventType = Some test_ping ->
    dispatched env eventType payload w
      (Ok tt) (say w (console_log "Received test ping from Doclayer"))
| dispatched_unreadable (r : Route) :
    route_of eventType = Some r ->
    readable (field (Some payload) "data") = false ->
    dispatched env eventType payload w (Throw TypeError) w
| dispatched_document_refused (r : Route) (s : string) (obj : row)
                              (e : PostgrestError) (msg : string) :
    route_of eventType = Some r ->
    document_status r = Some s ->
    document_object payload s obj ->
    answer env doclayer_documents Upsert
           (Store.upsert doclayer_documents (now env) obj "doclayer_job_id") (db w)
    = inl e ->
    dispatched env eventType payload w
      (Throw (Thrown e))
      (mkWorld (db w)
               (trace w ++ [db_call doclayer_documents Upsert (Some e);
                            console_error msg]))
| dispatched_document_stored (r : Route) (s : string) (obj : row)
                             (d' : Database) (msg : string) (w' : World) :
    route_of eventType = Some r ->
    document_status r = Some s ->
    document_object payload s obj ->
    answer env doclayer_documents Upsert
           (Store.upsert doclayer_documents (now env) obj "doclayer_job_id") (db w)
    = inr d' ->
    enriched (mkWorld d' (trace w ++ [db_call doclayer_documents Upsert None;
                                      console_log msg])) w' ->
    dispatched env eventType payload w (Ok tt) w'
| dispatched_secondary_failed (r : Route) (t : Table) (op : DbOp)
                              (stmt : Database -> PostgrestError + Database)
                              (e : PostgrestError) (failure msg : string) :
    route_of eventType = Some r ->
    secondary_call r = Some (t, op) ->
    is_statement t (now env) op stmt ->
    answer env t op stmt (db w) = inl e ->
    dispatched env eventType payload w
      (Ok tt)
      (mkWorld (db w)
               (trace w ++ [db_call t op (Some e); console_error failure;
                            console_log msg]))
| dispatched_secondary_done (r : Route) (t : Table) (op : DbOp)
                            (stmt : Database -> PostgrestError + Database)
                            (d' : Database) (msg : string) :
    route_of eventType = Some r ->
    secondary_call r = Some (t, op) ->
    is_statement t (now env) op stmt ->
    answer env t op stmt (db w) = inr d' ->
    dispatched env eventType payload w
      (Ok tt) (mkWorld d' (trace w ++ [db_call t op None; console_log msg])).

(** A computation that only enriches, whatever it returns. *)
Definition enriching {A : Type} (c : M A) : Prop :=
  forall w, enriched w (snd (c w)).

(** The signature gate lets the request through. *)
Definition gate_open (env : Env) (req : Request) : Prop :=
  nonempty (DOCLAYER_WEBHOOK_SECRET env) = None
  \/ exists secret,
       nonempty (DOCLAYER_WEBHOOK_SECRET env) = Some secret
       /\ verifySignature (body req) (or_default (x_webhook_signature req) EmptyString)
                          secret = Ok true.

(** The world in which routing starts: the first line logged and the audit
    insert answered. *)
Definition audited (env : Env) (req : Request) (payload : json) (d : Database)
  : World :=
  snd (from_insert env doclayer_webhook_events
         (audit_record (effective_event_type req payload) (deliveryId_of req) payload)
         (say (mkWorld d []) (console_log "Processing webhook: "))).

(** The world after the update that marks the webhook as processed. *)
Definition marked (env : Env) (req : Request) (w : World) : World :=
  snd (from_update_eq env doclayer_webhook_events (processed_mark env)
         "event_id" (Some (JStr (deliveryId_of req))) w).

(** The runs of [serve]. *)
Inductive served (env : Env) (req : Request) (d : Database)
  : Response -> Database -> list Event -> Prop :=
| served_method_not_allowed :
    method req <> "POST" ->
    served env req d (mkResponse 405 MethodNotAllowed) d []
| served_invalid_signature (secret : string) :
    method req = "POST" ->
    nonempty (DOCLAYER_WEBHOOK_SECRET env) = Some secret ->
    verifySignature (body req) (or_default (x_webhook_signature req) EmptyString)
                    secret = Ok false ->
    served env req d (mkResponse 401 InvalidSignature) d
           [console_error "Invalid webhook signature"]
| served_malformed :
    method req = "POST" ->
    gate_open env req ->
    JSON.parse (body req) = None ->
    served env req d (mkResponse 500 (InternalServerError SyntaxError)) d
           [console_error "Webhook processing error:"]
| served_null_payload :
    method req = "POST" ->
    gate_open env req ->
    JSON.parse (body req) = Some JNull ->
    nonempty (x_webhook_event req) = None ->
    served env req d (mkResponse 500 (InternalServerError TypeError)) d
           [console_error "Webhook processing error:"]
| served_aborted (payload : json) (e : exn) (w' : World) :
    method req = "POST" ->
    gate_open env req ->
    JSON.parse (body req) = Some payload ->
    (payload = JNull -> nonempty (x_webhook_event req) <> None) ->
    dispatched env (effective_event_type req payload) payload
               (audited env req payload d) (Throw e) w' ->
    served env req d (mkResponse 500 (InternalServerError e)) (db w')
           (trace w' ++ [console_error "Webhook processing error:"])
| served_processed (payload : json) (w' : World) :
    method req = "POST" ->
    gate_open env req ->
    JSON.parse (body req) = Some payload ->
    (payload = JNull -> nonempty (x_webhook_event req) <> None) ->
    dispatched env (effective_event_type req payload) payload
               (audited env req payload d) (Ok tt) w' ->
    served env req d
           (mkResponse 200 (Success (effective_event_type req payload)
                                    (deliveryId_of req)))
           (db (marked env req w')) (trace (marked env req w')).

(** What the handlers do between the audit insert and the final update:
    nothing on [doclayer_webhook_events]. *)
Definition handler_event (e : Event) : Prop :=
  match e with
  | db_call t _ _ => t <> doclayer_webhook_events
  | _ => True
  end.

(** The row the audit insert proposes. *)
Definition audit_row (env : Env) (req : Request) (payload : json) (d : Database)
  : row :=
  Store.new_row doclayer_webhook_events (now env) (uuid_counter d + 0)
    (Js.literal (audit_record (effective_event_type req payload)
                              (deliveryId_of req) payload)).

(** The final update on one row: [SET processed, processed_at WHERE
    event_id = deliveryId]. *)
Definition mark_processed (env : Env) (req : Request) (r : row) : row :=
  if Store.matching "event_id" (deliveryId_of req) r
  then Store.updated doclayer_webhook_events (now env)
                     (Js.literal (processed_mark env)) r
  else r.

(** A row that has the columns of its table, as every row of the store has. *)
Definition shaped (t : Table) (r : row) : Prop :=
  map fst r = map Store.cname (Store.columns t).

(** The Document Job rows of a job identifier. *)
Definition document_rows (job : string) (d : Database) : list row :=
  filter (Store.matching "doclayer_job_id" job) (documents d).

Definition terminal (r : row) : Prop :=
  In (Store.cell r "status") [JStr "completed"; JStr "failed"; JStr "cancelled"].

(** A sequence of requests, each in its surroundings, served in order. *)
Fixpoint serve_all (requests : list (Env * Request)) (d : Database) : Database :=
  match requests with
  | [] => d
  | (env, req) :: rest => serve_all rest (snd (fst (serve env req d)))
  end.

(** The routing key of the request selects [r]. *)
Definition routed_to (req : Request) (r : Route) : Prop :=
  exists payload,
    JSON.parse (body req) = Some payload
    /\ route_of (effective_event_type req payload) = Some r.

(** Surroundings and requests of the examples. *)
Definition store_up : Table -> DbOp -> bool := fun _ _ => false.

Definition documents_down : Table -> DbOp -> bool :=
  fun t _ => Store.Table_eqb t doclayer_documents.

Definition batches_down : Table -> DbOp -> bool :=
  fun t _ => Store.Table_eqb t doclayer_batches.

Definition api_down : string -> FetchOutcome := fun _ => NetworkFailure.

Definition noon : string := "2024-05-01T12:00:00.000Z".

Definition env_open : Env := mkEnv None None None noon store_up api_down.

Definition env_secret : Env :=
  mkEnv (Some "s3cret") None None noon store_up api_down.

Definition env_documents_down : Env :=
  mkEnv None None None noon documents_down api_down.

Definition env_batches_down : Env :=
  mkEnv None None None noon batches_down api_down.

(** A POST without signature: the event and delivery headers, the body. *)
Definition post (event delivery : option string) (text : string) : Request :=
  mkRequest "POST" None event delivery (json_text text).

Definition completed_job_1 : Request :=
  post (Some "document.processing.completed") (Some "delivery-1")
       "{'data':{'job_id':'job_1','document_id':'doc_1','insights_count':3,'confidence_metrics':{'a':0.9}}}".

Definition started_job_1 : Request :=
  post None (Some "delivery-2")
       "{'event_type':'document.processing.started','data':{'job_id':'job_1','checksum':'abc'}}".

Definition failed_job_1 : Request :=
  post None (Some "delivery-3")
       "{'event_type':'document.processing.failed','data':{'job_id':'job_1','error':'bad scan','error_type':'ocr'}}".

Definition archived : Request :=
  post None (Some "delivery-4") "{'event_type':'document.archived','data':{}}".

Definition batch_started_b1 : Request :=
  post None None "{'event_type':'batch.started','data':{'batch_id':'b1','total_documents':2}}".

Definition batch_completed_b1 : Request :=
  post None None "{'event_type':'batch.completed','data':{'batch_id':'b1','successful':2,'failed':0}}".

(** The audit log a request leaves: the rows it found, then the row it
    inserted if the insert went through, all of them passed through the
    final update if that went through. *)
Definition audit_log_after (env : Env) (req : Request) (d d' : Database)
           (tr : list Event) : Prop :=
  exists inserted,
    ((inserted = [] /\ ~ In (db_call doclayer_webhook_events Insert None) tr)
     \/ (exists payload,
           JSON.parse (body req) = Some payload
           /\ inserted = [audit_row env req payload d]
           /\ In (db_call doclayer_webhook_events Insert None) tr))
    /\ ((webhook_events d' = webhook_events d ++ inserted
         /\ ~ In (db_call doclayer_webhook_events Update None) tr)
        \/ (webhook_events d' = map (mark_processed env req) (webhook_events d ++ inserted)
            /\ In (db_call doclayer_webhook_events Update None) tr)).

Definition started_without_delivery : Request :=
  post None None "{'event_type':'document.processing.started','data':{'job_id':'job_9'}}".

(** The store after a started event whose upsert failed, delivered without
    a delivery header. *)
Definition after_failed_delivery : Database :=
  snd (fst (serve env_documents_down started_without_delivery Store.empty)).

(** The key under which the Document Job of a request is stored. *)
Definition job_key (req : Request) : option string :=
  match JSON.parse (body req) with
  | Some payload =>
      match job_id_of payload with
      | Some job => Store.pg_text job
      | None => None
      end
  | None => None
  end.

Definition after_completed : Database :=
  snd (fst (serve env_open completed_job_1 Store.empty)).

Definition after_completed_twice : Database :=
  snd (fst (serve env_open completed_job_1 after_completed)).

(** The store after [document.processing.completed] and then
    [document.processing.started] for the same job. *)
Definition after_completed_then_started : Database :=
  snd (fst (serve env_open started_job_1 after_completed)).

Definition after_started : Database :=
  snd (fst (serve env_open started_job_1 Store.empty)).

(** The entity tables, and the routing keys whose handlers can add a row
    to one of them: the upserts of the document handlers and of the two
    other started handlers. *)
Definition entity_tables : list Table :=
  [doclayer_documents; doclayer_batches; doclayer_workflows].

Definition entity_created_by (r : Route) : option Table :=
  match r with
  | document_processing_started
  | document_processing_completed
  | document_processing_failed => Some doclayer_documents
  | batch_started => Some doclayer_batches
  | workflow_started => Some doclayer_workflows
  | _ => None
  end.

Definition failed_job_2 : Request :=
  post None (Some "delivery-7")
       "{'event_type':'document.processing.failed','data':{'job_id':'job_2','error':'timeout'}}".

(** The digits [toString(16)] prints. *)
Definition is_lower_hex (c : ascii) : bool :=
  existsb (Ascii.eqb c) (list_ascii_of_string "0123456789abcdef").

(** Reading a hex string back, two digits a byte. *)
Fixpoint unhex (s : string) : option (list byte) :=
  match s with
  | EmptyString => Some []
  | String h (String l rest) =>
      match byte_of_hex (String h (String l EmptyString)), unhex rest with
      | Some b, Some bs => Some (b :: bs)
      | _, _ => None
      end
  | String _ EmptyString => None
  end.

(** The end of the handler: the response of the [try] block, or the one of
    its [catch]. *)
Definition settle (r : Result Response * World) : Response * Database * list Event :=
  match r with
  | (Ok response, w) => (response, db w, trace w)
  | (Throw e, w) =>
      (mkResponse 500 (InternalServerError e), db w,
       trace w ++ [console_error "Webhook processing error:"])
  end.

(** The request with another [x-webhook-signature] header, and with the
    signature Doclayer computes for its body. *)
Definition with_signature (req : Request) (sg : option string) : Request :=
  mkRequest (method req) sg (x_webhook_event req) (x_webhook_delivery req) (body req).

Definition signed (secret : string) (req : Request) : Request :=
  with_signature req (Some (signature_for secret (body req))).

(** The surroundings without [DOCLAYER_WEBHOOK_SECRET]. *)
Definition without_secret (env : Env) : Env :=
  mkEnv None (DOCLAYER_API_KEY env) (DOCLAYER_API_URL env) (now env)
        (unavailable env) (fetch env).

Definition ping_null : Request := post (Some "test.ping") None "null".

Definition untyped : Request := post None (Some "delivery-8") "{'data':{'job_id':'job_1'}}".

Definition started_without_data : Request :=
  post None (Some "delivery-9") "{'event_type':'batch.started'}".

(** The statements that change the store: the three kinds the handler
    sends, on whatever table and with whatever arguments. *)
Inductive write (now : string)
  : Table -> DbOp -> (Database -> PostgrestError + Database) -> Prop :=
| write_insert (t : Table) (objs : list row) :
    write now t Insert (Store.insert t now objs)
| write_upsert (t : Table) (obj : row) (c : string) :
    write now t Upsert (Store.upsert t now obj c)
| write_update (t : Table) (obj : row) (c text : string) :
    write now t Update (Store.update t now obj c text).

(** The store reached from another by successful statements among the
    [allowed] ones. *)
Inductive reaches (now : string) (allowed : list (Table * DbOp))
  : Database -> Database -> Prop :=
| reaches_refl (d : Database) : reaches now allowed d d
| reaches_step (d d1 d2 : Database) (t : Table) (op : DbOp)
               (stmt : Database -> PostgrestError + Database) :
    In (t, op) allowed ->
    write now t op stmt ->
    stmt d = inr d1 ->
    reaches now allowed d1 d2 ->
    reaches now allowed d d2.

(** What a run may show: console lines, statements among the [allowed]
    ones, and requests to the URLs in [fetches]. *)
Definition expected (allowed : list (Table * DbOp)) (fetches : string -> Prop)
           (e : Event) : Prop :=
  match e with
  | console_log _ | console_error _ => True
  | db_call t op _ => In (t, op) allowed
  | http_get u => fetches u
  end.

Definition progress (now : string) (allowed : list (Table * DbOp))
           (fetches : string -> Prop) (w w' : World) : Prop :=
  reaches now allowed (db w) (db w')
  /\ exists tr, trace w' = trace w ++ tr /\ Forall (expected allowed fetches) tr.

Definition progressing (now : string) (allowed : list (Table * DbOp))
           (fetches : string -> Prop) {A : Type} (c : M A) : Prop :=
  forall w, progress now allowed fetches w (snd (c w)).

(** The statements of each handler, and those around the router. *)
Definition writes_of (r : option Route) : list (Table * DbOp) :=
  match r with
  | Some document_processing_started => [(doclayer_documents, Upsert)]
  | Some document_processing_completed =>
      [(doclayer_documents, Upsert); (doclayer_documents, Select);
       (doclayer_extractions, Insert)]
  | Some document_processing_failed => [(doclayer_documents, Upsert)]
  | Some batch_started => [(doclayer_batches, Upsert)]
  | Some batch_progress | Some batch_completed | Some batch_failed =>
      [(doclayer_batches, Update)]
  | Some billing_credits_low | Some billing_credits_exhausted =>
      [(doclayer_billing_alerts, Insert)]
  | Some billing_usage_report => [(doclayer_usage_reports, Insert)]
  | Some workflow_started => [(doclayer_workflows, Upsert)]
  | Some workflow_completed | Some workflow_failed => [(doclayer_workflows, Update)]
  | Some test_ping | None => []
  end.

Definition audit_writes : list (Table * DbOp) :=
  [(doclayer_webhook_events, Insert); (doclayer_webhook_events, Update)].

(** The URL [fetchAndStoreExtractions] requests for a document. *)
Definition extractions_url (env : Env) (documentId : value) : string :=
  (or_default (DOCLAYER_API_URL env) "https://api.doclayer.ai"
   ++ "/api/v4/documents/" ++ Js.ToString documentId ++ "/extractions")%string.

(** Whether, and where, the handler of an event calls the Doclayer API. *)
Definition fetches_of (env : Env) (eventType : value) (payload : json) (u : string)
  : Prop :=
  route_of eventType = Some document_processing_completed
  /\ nonempty (DOCLAYER_API_KEY env) <> None
  /\ u = extractions_url env (field (field (Some payload) "data") "document_id").

(** The route of a request, if its body parses and names one. *)
Definition route_of_request (req : Request) : option Route :=
  match JSON.parse (body req) with
  | Some payload => route_of (effective_event_type req payload)
  | None => None
  end.

Definition fetches_of_request (env : Env) (req : Request) (u : string) : Prop :=
  exists payload,
    JSON.parse (body req) = Some payload
    /\ fetches_of env (effective_event_type req payload) payload u.

(** The statements a request can send: those on the audit log and those
    of its route. *)
Definition statements_of (req : Request) : list (Table * DbOp) :=
  audit_writes ++ writes_of (route_of_request req).


(** The tables the handler only inserts into. *)
Definition append_only : list Table :=
  [doclayer_extractions; doclayer_billing_alerts; doclayer_usage_reports].

(** A Doclayer API that answers every request with one extraction, and
    surroundings in which an API key is configured. *)
Definition api_up : string -> FetchOutcome :=
  fun _ => Responded 200
             (json_text "{'extractions':[{'type':'field','key':'total','value':42,'confidence':0.9,'page':1}]}").

Definition env_api : Env := mkEnv None (Some "key") None noon store_up api_up.

(** The response of the Doclayer API is one the handler goes on with:
    status 2xx and a JSON body. *)
Definition fetched (env : Env) (documentId : value) (data : json) : Prop :=
  exists code text,
    fetch env (extractions_url env documentId) = Responded code text
    /\ 200 <= code <= 299
    /\ JSON.parse text = Some data.

(** The Document Job row [fetchAndStoreExtractions] links extractions to. *)
Definition linked_record (env : Env) (jobId : value) (d : Database) (record : row)
  : Prop :=
  unavailable env doclayer_documents Select = false
  /\ Store.select_single doclayer_documents "doclayer_job_id" (Js.ToString jobId) d
     = inr record.

Definition api_with (text : string) : string -> FetchOutcome :=
  fun _ => Responded 200 (json_text text).

Definition env_api_with (text : string) : Env :=
  mkEnv None (Some "key") None noon store_up (api_with text).

Definition world_after_completed : World := mkWorld after_completed [].

Definition started_without_job : Request :=
  post None (Some "delivery-10")
       "{'event_type':'document.processing.started','data':{'checksum':'abc'}}".

(** The object each handler sends, read off the [data] of the event. *)
Definition entity_fields (env : Env) (r : Route) (payload : json)
  : list (string * value) :=
  let data := field (Some payload) "data" in
  let now' := Some (JStr (now env)) in
  match r with
  | document_processing_started =>
      [ ("doclayer_job_id", field data "job_id");
        ("checksum", field data "checksum");
        ("status", Some (JStr "processing"));
        ("doclayer_created_at", field data "timestamp");
        ("raw_payload", Some payload) ]
  | document_processing_completed =>
      [ ("doclayer_job_id", field data "job_id");
        ("doclayer_document_id", field data "document_id");
        ("status", Some (JStr "completed"));
        ("insights_count", field data "insights_count");
        ("confidence_metrics", field data "confidence_metrics");
        ("raw_payload", Some payload);
        ("updated_at", now') ]
  | document_processing_failed =>
      [ ("doclayer_job_id", field data "job_id");
        ("doclayer_document_id", field data "document_id");
        ("status", Some (JStr "failed"));
        ("error_message", field data "error");
        ("error_type", field data "error_type");
        ("raw_payload", Some payload);
        ("updated_at", now') ]
  | batch_started =>
      [ ("batch_id", field data "batch_id");
        ("total_documents", field data "total_documents");
        ("project_id", field data "project_id");
        ("status", Some (JStr "processing"));
        ("started_at", field data "timestamp");
        ("raw_payload", Some payload) ]
  | batch_progress =>
      [ ("completed_count", field data "completed");
        ("failed_count", field data "failed");
        ("updated_at", now') ]
  | batch_completed =>
      [ ("status", Some (JStr "completed"));
        ("completed_count", field data "successful");
        ("failed_count", field data "failed");
        ("duration_seconds", field data "duration_seconds");
        ("completed_at", field data "timestamp");
        ("raw_payload", Some payload);
        ("updated_at", now') ]
  | batch_failed =>
      [ ("status", Some (JStr "failed"));
        ("error_message", field data "error");
        ("error_type", field data "error_type");
        ("completed_count", field data "completed");
        ("raw_payload", Some payload);
        ("updated_at", now') ]
  | billing_credits_low =>
      [ ("alert_type", Some (JStr "credits_low"));
        ("current_balance", field data "current_balance");
        ("threshold", field data "threshold");
        ("currency", field data "currency");
        ("raw_payload", Some payload) ]
  | billing_credits_exhausted =>
      [ ("alert_type", Some (JStr "credits_exhausted"));
        ("current_balance", field data "current_balance");
        ("currency", field data "currency");
        ("raw_payload", Some payload) ]
  | billing_usage_report =>
      [ ("period_start", field data "period_start");
        ("period_end", field data "period_end");
        ("total_documents", field data "total_documents");
        ("total_pages", field data "total_pages");
        ("total_cost", field data "total_cost");
        ("currency", field data "currency");
        ("raw_payload", Some payload) ]
  | workflow_started =>
      [ ("workflow_id", field data "workflow_id");
        ("workflow_type", field data "workflow_type");
        ("document_id", field data "document_id");
        ("status", Some (JStr "running"));
        ("started_at", field data "timestamp");
        ("raw_payload", Some payload) ]
  | workflow_completed =>
      [ ("status", Some (JStr "completed"));
        ("result", field data "result");
        ("duration_seconds", field data "duration_seconds");
        ("completed_at", field data "timestamp");
        ("raw_payload", Some payload);
        ("updated_at", now') ]
  | workflow_failed =>
      [ ("status", Some (JStr "failed"));
        ("error_message", field data "error");
        ("error_type", field data "error_type");
        ("raw_payload", Some payload);
        ("updated_at", now') ]
  | test_ping => []
  end.






Definition completed_job_1_again : Request :=
  post (Some "document.processing.completed") (Some "delivery-13")
       "{'data':{'job_id':'job_1','document_id':'doc_1','insights_count':4}}".

(** The store after a started and then a failed event for [job_1]. *)
Definition after_started_then_failed : Database :=
  snd (fst (serve env_open failed_job_1 after_started)).


Definition sent (obj : list (string * value)) : row :=
  map (fun kv => (fst kv, match snd kv with Some v => v | None => JNull end)) obj.




(** The foreign key of [doclayer_extractions]: a row references a Document
    Job row of the store. *)
Definition references (d : Database) (extraction : row) : Prop :=
  exists r, In r (documents d)
            /\ Store.cell extraction "document_id" = Store.cell r "id".

Definition referential (d : Database) : Prop :=
  Forall (references d) (extractions d).

(* ===================================================================== *)
(** * Properties *)
(* ===================================================================== *)

(** ** The platform model against published test vectors *)

Example sha256_abc :
  hex (SHA256.digest (JsString.encode "abc"))
  = "ba7816bf8f01cfea414140de5dae2223b00361a396177a9cb410ff61f20015ad".
Proof. vm_compute. reflexivity. Qed.

Example sha256_empty :
  hex (SHA256.digest (JsString.encode ""))
  = "e3b0c44298fc1c149afbf4c8996fb92427ae41e4649b934ca495991b7852b855".
Proof. vm_compute. reflexivity. Qed.

(** RFC 4231, test case 2. *)
Example hmac_sha256_rfc4231 :
  hex (sign (JsString.encode "Jefe") (JsString.encode "what do ya want for nothing?"))
  = "5bdcc146bf60754e6a042426089575c75a003f089d2739839dec58b964ec3843".
Proof. vm_compute. reflexivity. Qed.

Example parse_scenario :
  JSON.parse (json_text "{'data':{'job_id':'job_1','insights_count':3,'confidence_metrics':{'a':0.9}}}")
  = Some (JObj [("data", JObj [("job_id", JStr "job_1");
                               ("insights_count", JNum 3 0);
                               ("confidence_metrics", JObj [("a", JNum 9 (-1))])])]).
Proof. vm_compute. reflexivity. Qed.

(** ** Hex encoding *)

Lemma byte_of_hex_byte_hex (b : byte) : byte_of_hex (byte_hex b) = Some b.
Proof. destruct b; vm_compute; reflexivity. Qed.

Lemma byte_hex_injective (a b : byte) : byte_hex a = byte_hex b -> a = b.
Proof.
  intro H. apply (f_equal byte_of_hex) in H.
  rewrite !byte_of_hex_byte_hex in H. congruence.
Qed.

Lemma byte_hex_length (b : byte) : String.length (byte_hex b) = 2.
Proof. destruct b; vm_compute; reflexivity. Qed.

Lemma append_same_length (s1 s2 t1 t2 : string) :
  String.length s1 = String.length s2 ->
  (s1 ++ t1 = s2 ++ t2)%string -> s1 = s2 /\ t1 = t2.
Proof.
  revert s2. induction s1 as [|c s1 IH]; intros [|c' s2] L E; simpl in *;
    try discriminate.
  - split; [reflexivity | assumption].
  - injection E as -> E. injection L as L.
    destruct (IH _ L E) as [-> ->]. split; reflexivity.
Qed.

Lemma hex_cons (b : byte) (bs : list byte) :
  hex (b :: bs) = (byte_hex b ++ hex bs)%string.
Proof. reflexivity. Qed.

Lemma hex_injective (xs ys : list byte) : hex xs = hex ys -> xs = ys.
Proof.
  revert ys. induction xs as [|x xs IH]; intros [|y ys] E.
  - reflexivity.
  - rewrite hex_cons in E. pose proof (byte_hex_length y) as L.
    destruct (byte_hex y); simpl in *; discriminate.
  - rewrite hex_cons in E. pose proof (byte_hex_length x) as L.
    destruct (byte_hex x); simpl in *; discriminate.
  - rewrite !hex_cons in E.
    apply append_same_length in E;
      [| rewrite !byte_hex_length; reflexivity].
    destruct E as [E1 E2]. apply byte_hex_injective in E1. apply IH in E2.
    congruence.
Qed.

(** ** [verifySignature] *)

Lemma prefix_empty (s : string) : String.prefix EmptyString s = true.
Proof. destruct s; reflexivity. Qed.

Lemma prefixed_startsWith (h : string) :
  JsString.startsWith ("sha256=" ++ h) "sha256=" = true.
Proof. unfold JsString.startsWith. simpl. apply prefix_empty. Qed.

Lemma prefixed_replace (h : string) :
  JsString.replace ("sha256=" ++ h) "sha256=" EmptyString = h.
Proof. simpl. rewrite prefix_empty. reflexivity. Qed.

Lemma signature_for_stripped (secret body : string) :
  JsString.replace (signature_for secret body) "sha256=" EmptyString
  = hex (sign (JsString.encode secret) (JsString.encode body)).
Proof. apply prefixed_replace. Qed.

Lemma importKey_nonempty (secret : string) :
  secret <> EmptyString ->
  importKey (JsString.encode secret) = Ok (JsString.encode secret).
Proof. destruct secret; [congruence | reflexivity]. Qed.

(** With a key that is not empty the check returns, and returns exactly
    whether the header is [sha256=] followed by the expected digest. *)
Lemma verifySignature_decides (payload signature secret : string) :
  secret <> EmptyString ->
  verifySignature payload signature secret
  = Ok (negb (String.eqb signature EmptyString)
        && JsString.startsWith signature "sha256="
        && String.eqb (hex (sign (JsString.encode secret) (JsString.encode payload)))
                      (JsString.replace signature "sha256=" EmptyString)).
Proof.
  intro H. unfold verifySignature. rewrite (importKey_nonempty _ H).
  destruct (String.eqb signature EmptyString); cbn [orb negb andb];
    [reflexivity|].
  destruct (JsString.startsWith signature "sha256="); cbn [orb negb andb];
    reflexivity.
Qed.

Lemma verifySignature_own_signature (body secret : string) :
  secret <> EmptyString ->
  verifySignature body (signature_for secret body) secret = Ok true.
Proof.
  intro H. rewrite (verifySignature_decides _ _ _ H), signature_for_stripped.
  unfold signature_for at 2. rewrite prefixed_startsWith, String.eqb_refl.
  reflexivity.
Qed.

Lemma verifySignature_other_body (body body' secret : string) :
  secret <> EmptyString ->
  verifySignature body' (signature_for secret body) secret
  = Ok (String.eqb (hex (sign (JsString.encode secret) (JsString.encode body')))
                   (hex (sign (JsString.encode secret) (JsString.encode body)))).
Proof.
  intro H. rewrite (verifySignature_decides _ _ _ H), signature_for_stripped.
  unfold signature_for at 2. rewrite prefixed_startsWith. reflexivity.
Qed.

(** ** A digest of thirty-two bytes cannot tell all bodies apart *)

Section Pigeonhole.

Variable A : Type.
Variable alphabet : list A.
Hypothesis alphabet_complete : forall a : A, In a alphabet.
Hypothesis A_eq_dec : forall x y : A, {x = y} + {x <> y}.

Lemma words_complete (n : nat) (l : list A) :
  List.length l = n -> In l (words alphabet n).
Proof.
  revert l. induction n as [|n IH]; intros [|a l] L; simpl in *;
    try discriminate.
  - left; reflexivity.
  - apply in_flat_map. exists a. split; [apply alphabet_complete|].
    apply in_map. apply IH. congruence.
Qed.

Lemma repeated_image (B : Type) (f : B -> list A) (bs : list B) :
  NoDup bs -> ~ NoDup (map f bs) ->
  exists b1 b2, b1 <> b2 /\ f b1 = f b2.
Proof.
  induction bs as [|b bs IH]; intros N R; simpl in *.
  - exfalso. apply R. constructor.
  - inversion N as [|? ? Hb Nbs]; subst.
    destruct (in_dec (list_eq_dec A_eq_dec) (f b) (map f bs)) as [I|I].
    + apply in_map_iff in I. destruct I as (b' & E & I').
      exists b, b'. split; [|congruence].
      intros ->. contradiction.
    + apply IH; [assumption|].
      intro N'. apply R. constructor; assumption.
Qed.

(** More sources than words of length [n]: two of them share an image. *)
Lemma collision (n : nat) (B : Type) (f : B -> list A) (bs : list B) :
  (forall b, List.length (f b) = n) ->
  NoDup bs ->
  List.length (words alphabet n) < List.length bs ->
  exists b1 b2, b1 <> b2 /\ f b1 = f b2.
Proof.
  intros L N Big. apply (repeated_image B f bs N).
  intro N'.
  assert (I : incl (map f bs) (words alphabet n)).
  { intros l Hl. apply in_map_iff in Hl. destruct Hl as (b & <- & _).
    apply words_complete, L. }
  pose proof (NoDup_incl_length N' I) as Le.
  rewrite length_map in Le.
  apply (Nat.lt_irrefl (List.length bs)).
  eapply Nat.le_lt_trans; eassumption.
Qed.

End Pigeonhole.

Lemma all_bytes_complete (b : byte) : In b all_bytes.
Proof.
  assert (H : existsb (Byte.eqb b) all_bytes = true)
    by (destruct b; vm_compute; reflexivity).
  apply existsb_exists in H. destruct H as (x & I & E).
  apply byte_dec_bl in E. subst. assumption.
Qed.

Lemma byte_eq_dec (x y : byte) : {x = y} + {x <> y}.
Proof.
  destruct (Byte.eqb x y) eqn:E.
  - left. apply byte_dec_bl, E.
  - right. intros ->. rewrite (byte_dec_lb eq_refl) in E. discriminate.
Qed.

Lemma zeros_length (k : nat) : String.length (Js.zeros k) = k.
Proof. induction k; simpl; congruence. Qed.

Lemma zeros_NoDup (n : nat) : NoDup (map Js.zeros (seq 0 n)).
Proof.
  apply NoDup_map_NoDup_ForallPairs; [|apply seq_NoDup].
  intros i j _ _ E. apply (f_equal String.length) in E.
  rewrite !zeros_length in E. assumption.
Qed.

(** Any function from strings to byte strings of a fixed length sends two
    different strings to the same value. *)
Lemma fixed_length_not_injective (n : nat) (f : string -> list byte) :
  (forall s, List.length (f s) = n) ->
  exists s1 s2, s1 <> s2 /\ f s1 = f s2.
Proof.
  intro L.
  apply (collision byte all_bytes all_bytes_complete byte_eq_dec n string f
           (map Js.zeros (seq 0 (S (List.length (words all_bytes n)))))).
  - assumption.
  - apply zeros_NoDup.
  - rewrite length_map, length_seq. apply Nat.lt_succ_diag_r.
Qed.

Lemma digest_length (msg : list byte) : List.length (SHA256.digest msg) = 32.
Proof. unfold SHA256.digest, SHA256.output. rewrite length_map. reflexivity. Qed.

Lemma sign_length (key data : list byte) : List.length (sign key data) = 32.
Proof. apply digest_length. Qed.

(** C8, as amended. For every body and every secret that is not empty, the
    signature [sha256=<hex HMAC-SHA-256 of the body>] verifies against the
    same body and secret; against another body it is refused exactly when
    the two bodies have different HMACs under the secret. *)
Theorem verifySignature_round_trip (body secret : string) :
  secret <> EmptyString ->
  verifySignature body (signature_for secret body) secret = Ok true
  /\ forall body',
       verifySignature body' (signature_for secret body) secret = Ok false
       <-> sign (JsString.encode secret) (JsString.encode body')
           <> sign (JsString.encode secret) (JsString.encode body).
Proof.
  intro H. split; [apply verifySignature_own_signature, H|].
  intro body'. rewrite (verifySignature_other_body _ _ _ H).
  destruct (String.eqb_spec
              (hex (sign (JsString.encode secret) (JsString.encode body')))
              (hex (sign (JsString.encode secret) (JsString.encode body))))
    as [E|N].
  - apply hex_injective in E. split; [discriminate | congruence].
  - split; [|reflexivity]. intros _ E. apply N. congruence.
Qed.

Lemma verifySignature_round_trip_witness :
  verifySignature "{}" (signature_for "s3cret" "{}") "s3cret" = Ok true
  /\ verifySignature "{ }" (signature_for "s3cret" "{}") "s3cret" = Ok false.
Proof.
  destruct (verifySignature_round_trip "{}" "s3cret") as [H1 H2];
    [discriminate|].
  split; [exact H1|]. apply H2. vm_compute. discriminate.
Defined.

(** C8 as stated fails twice: under the empty secret the check throws
    instead of returning [true], and under any other secret two different
    bodies share a digest, so the signature of one verifies against the
    other. *)
Lemma verifySignature_counterexample :
  verifySignature EmptyString (signature_for EmptyString EmptyString) EmptyString
  = Throw DataError
  /\ exists secret body body',
       secret <> EmptyString /\ body' <> body
       /\ verifySignature body' (signature_for secret body) secret = Ok true.
Proof.
  split; [vm_compute; reflexivity|].
  destruct (fixed_length_not_injective 32
              (fun s => sign (JsString.encode "k") (JsString.encode s)))
    as (s1 & s2 & N & E); [intro s; apply sign_length|].
  exists "k", s2, s1. split; [discriminate|]. split; [assumption|].
  rewrite verifySignature_other_body by discriminate.
  rewrite E, String.eqb_refl. reflexivity.
Qed.

(** ** The store: what a statement leaves alone *)

Lemma rows_with_rows (t : Table) (rs : list row) (fresh : nat) (d : Database) :
  Store.rows t (Store.with_rows t rs fresh d) = rs.
Proof. destruct t; reflexivity. Qed.

Lemma rows_with_rows_other (t t' : Table) (rs : list row) (fresh : nat) (d : Database) :
  t' <> t -> Store.rows t' (Store.with_rows t rs fresh d) = Store.rows t' d.
Proof. destruct t, t'; intro N; try reflexivity; congruence. Qed.

Lemma commit_inr (t : Table) (changed rs : list row) (fresh : nat) (d d' : Database) :
  Store.commit t changed rs fresh d = inr d' ->
  d' = Store.with_rows t rs fresh d
  /\ Store.first_violation t changed = None
  /\ Store.keys_distinct t rs = true.
Proof.
  unfold Store.commit.
  destruct (Store.first_violation t changed); [discriminate|].
  destruct (Store.keys_distinct t rs); [|discriminate].
  intro E. injection E as <-. auto.
Qed.

Lemma insert_inr (t : Table) (now : string) (objs : list row) (d d' : Database) :
  Store.insert t now objs d = inr d' ->
  exists news,
    List.length news = List.length objs
    /\ d' = Store.with_rows t (Store.rows t d ++ news) (List.length objs) d
    /\ Store.first_violation t news = None.
Proof.
  unfold Store.insert. destruct (negb (forallb (Store.known t) objs)); [discriminate|].
  intro E. apply commit_inr in E. destruct E as (-> & V & _).
  eexists. split; [|split; [reflexivity | exact V]].
  rewrite length_map, length_combine, length_seq. apply Nat.min_id.
Qed.

Lemma update_inr (t : Table) (now : string) (obj : row) (c text : string)
      (d d' : Database) :
  Store.update t now obj c text d = inr d' ->
  d' = Store.with_rows t
         (map (fun r => if Store.matching c text r then Store.updated t now obj r else r)
              (Store.rows t d)) 0 d
  /\ Store.first_violation t
       (map (Store.updated t now obj) (filter (Store.matching c text) (Store.rows t d)))
     = None
  /\ Store.keys_distinct t
       (map (fun r => if Store.matching c text r then Store.updated t now obj r else r)
            (Store.rows t d)) = true.
Proof.
  unfold Store.update. destruct (negb (Store.known t obj)); [discriminate|].
  apply commit_inr.
Qed.

Lemma upsert_inr (t : Table) (now : string) (obj : row) (c : string) (d d' : Database) :
  Store.upsert t now obj c d = inr d' ->
  Store.violation t (Store.new_row t now (uuid_counter d) obj) = None
  /\ ((exists k, Store.pg_text (Store.cell (Store.new_row t now (uuid_counter d) obj) c) = Some k
                 /\ existsb (Store.matching c k) (Store.rows t d) = true
                 /\ Store.update t now obj c k d = inr d')
      \/ ((forall k, Store.pg_text (Store.cell (Store.new_row t now (uuid_counter d) obj) c) = Some k ->
                     existsb (Store.matching c k) (Store.rows t d) = false)
          /\ d' = Store.with_rows t (Store.rows t d ++ [Store.new_row t now (uuid_counter d) obj]) 1 d
          /\ Store.keys_distinct t (Store.rows t d ++ [Store.new_row t now (uuid_counter d) obj]) = true)).
Proof.
  unfold Store.upsert. destruct (negb (Store.known t obj)); [discriminate|].
  destruct (Store.violation t _) eqn:V; [discriminate|].
  intro E. split; [reflexivity|].
  destruct (Store.pg_text _) as [k|] eqn:K.
  - destruct (existsb (Store.matching c k) (Store.rows t d)) eqn:X.
    + left. exists k. auto.
    + right. apply commit_inr in E. destruct E as (-> & _ & U).
      split; [|auto]. intros k' E'. congruence.
  - right. apply commit_inr in E. destruct E as (-> & _ & U).
    split; [|auto]. intros k' E'. discriminate.
Qed.

Lemma statement_frame (t : Table) (now : string) (op : DbOp)
      (stmt : Database -> PostgrestError + Database) (d d' : Database) :
  is_statement t now op stmt -> stmt d = inr d' ->
  forall t', t' <> t -> Store.rows t' d' = Store.rows t' d.
Proof.
  intros S E t' N. destruct S.
  - apply insert_inr in E. destruct E as (news & _ & -> & _).
    apply rows_with_rows_other, N.
  - apply upsert_inr in E. destruct E as (_ & [(k & _ & _ & E) | (_ & -> & _)]).
    + apply update_inr in E. destruct E as (-> & _). apply rows_with_rows_other, N.
    + apply rows_with_rows_other, N.
  - apply update_inr in E. destruct E as (-> & _). apply rows_with_rows_other, N.
Qed.

Lemma answer_inr (env : Env) (t : Table) (op : DbOp)
      (stmt : Database -> PostgrestError + Database) (d d' : Database) :
  answer env t op stmt d = inr d' ->
  unavailable env t op = false /\ stmt d = inr d'.
Proof. unfold answer. destruct (unavailable env t op); [discriminate | auto]. Qed.

(** ** Enrichment never throws and stays within its tables *)

Lemma enriched_refl (w : World) : enriched w w.
Proof.
  split; [reflexivity|]. exists []. rewrite app_nil_r. auto.
Qed.

Lemma enriched_trans (w1 w2 w3 : World) :
  enriched w1 w2 -> enriched w2 w3 -> enriched w1 w3.
Proof.
  intros [F1 (t1 & E1 & A1)] [F2 (t2 & E2 & A2)]. split.
  - intros t N. rewrite (F2 t N). apply F1, N.
  - exists (t1 ++ t2). rewrite E2, E1, List.app_assoc. split; [reflexivity|].
    apply Forall_app; auto.
Qed.

Lemma enriched_say (w : World) (e : Event) :
  enrichment_event e -> enriched w (say w e).
Proof.
  intro H. split; [reflexivity|]. exists [e]. auto.
Qed.

Lemma enriching_ret {A : Type} (a : A) : enriching (ret a).
Proof. intro w. apply enriched_refl. Qed.

Lemma enriching_throw {A : Type} (e : exn) : enriching (@throw A e).
Proof. intro w. apply enriched_refl. Qed.

Lemma enriching_bind {A B : Type} (c : M A) (k : A -> M B) :
  enriching c -> (forall a, enriching (k a)) -> enriching (bind c k).
Proof.
  intros Hc Hk w. unfold bind. specialize (Hc w).
  destruct (c w) as [[a|e] w1]; simpl in *; [|assumption].
  eapply enriched_trans; [eassumption | apply Hk].
Qed.

Lemma enriching_try_catch {A : Type} (c : M A) (h : exn -> M A) :
  enriching c -> (forall e, enriching (h e)) -> enriching (try_catch c h).
Proof.
  intros Hc Hh w. unfold try_catch. specialize (Hc w).
  destruct (c w) as [[a|e] w1]; simpl in *; [assumption|].
  eapply enriched_trans; [eassumption | apply Hh].
Qed.

Lemma enriching_emit (e : Event) : enrichment_event e -> enriching (emit e).
Proof. intros H w. apply enriched_say, H. Qed.

Lemma enriching_prop (v : value) (k : string) : enriching (prop v k).
Proof.
  intro w. destruct v as [[]|]; apply enriched_refl.
Qed.

Lemma enriching_mapM (env : Env) {A B : Type} (f : A -> M B) (l : list A) :
  (forall a, enriching (f a)) -> enriching (mapM f l).
Proof.
  intro H. induction l as [|a l IH]; simpl.
  - apply enriching_ret.
  - apply enriching_bind; [apply H|]. intro b.
    apply enriching_bind; [apply IH|]. intro bs. apply enriching_ret.
Qed.

Lemma enriching_select (env : Env) (c : string) (v : value) :
  enriching (from_select_single env doclayer_documents c v).
Proof.
  intro w. unfold from_select_single.
  destruct (if unavailable env doclayer_documents Select then _ else _);
    apply (enriched_say w); constructor.
Qed.

Lemma enriching_insert_all (env : Env) (objs : list (list (string * value))) :
  enriching (from_insert_all env doclayer_extractions objs).
Proof.
  intro w. unfold from_insert_all, call.
  destruct (answer env _ _ _ _) as [e|d'] eqn:E; simpl.
  - apply (enriched_say w). constructor.
  - apply answer_inr in E. destruct E as [_ E]. split.
    + intros t N. simpl. apply insert_inr in E.
      destruct E as (news & _ & -> & _). apply rows_with_rows_other, N.
    + eexists. split; [reflexivity|]. repeat constructor.
Qed.

Lemma enriching_extraction_of (env : Env) (record : row) (ext : json) :
  enriching (extraction_of record ext).
Proof.
  unfold extraction_of.
  repeat (apply enriching_bind; [apply enriching_prop | intro]).
  apply enriching_ret.
Qed.

Lemma fetchAndStoreExtractions_enriching (env : Env) (jobId documentId : value)
      (apiKey : string) :
  enriching (fetchAndStoreExtractions env jobId documentId apiKey).
Proof.
  unfold fetchAndStoreExtractions.
  apply enriching_try_catch; [|intro; apply enriching_emit; constructor].
  apply enriching_bind; [apply enriching_emit; constructor | intros _].
  destruct (fetch env _) as [|code text]; [apply enriching_throw|].
  destruct (negb _); [apply enriching_emit; constructor|].
  apply enriching_bind;
    [destruct (JSON.parse text); [apply enriching_ret | apply enriching_throw]
    | intro extractionsData].
  apply enriching_bind; [apply enriching_select | intros [record|]];
    [|apply enriching_emit; constructor].
  apply enriching_bind; [apply enriching_prop | intro listed].
  apply enriching_bind.
  { destruct (Js.truthy listed); [|apply enriching_ret].
    destruct listed as [[]|]; first [apply enriching_ret | apply enriching_throw]. }
  intro items.
  apply enriching_bind;
    [apply (enriching_mapM env); intro; apply (enriching_extraction_of env)
    | intro extractions].
  destruct (0 <? _)%nat; [|apply enriching_ret].
  apply enriching_bind; [apply enriching_insert_all | intros [e|]];
    apply enriching_emit; constructor.
Qed.

Lemma try_catch_emit_total (c : M unit) (e : Event) (w : World) :
  exists w', try_catch c (fun _ => emit e) w = (Ok tt, w').
Proof.
  unfold try_catch. destruct (c w) as [[[]|x] w1]; eexists; reflexivity.
Qed.

Lemma fetchAndStoreExtractions_run (env : Env) (jobId documentId : value)
      (apiKey : string) (w : World) :
  exists w', fetchAndStoreExtractions env jobId documentId apiKey w = (Ok tt, w')
             /\ enriched w w'.
Proof.
  pose proof (fetchAndStoreExtractions_enriching env jobId documentId apiKey w) as H.
  unfold fetchAndStoreExtractions in *.
  match type of H with
  | context [try_catch ?c ?h w] =>
      destruct (try_catch_emit_total c (console_error "Error fetching extractions:") w)
        as [w' E]
  end.
  exists w'. cbv zeta. split; [exact E|]. rewrite E in H. exact H.
Qed.

Lemma assoc_literal (k k' : string) (v : value) (rest : list (string * value)) :
  assoc k (Js.literal ((k', v) :: rest))
  = if String.eqb k k'
    then match v with
         | Some x => Some x
         | None => assoc k (Js.literal rest)
         end
    else assoc k (Js.literal rest).
Proof.
  destruct v as [x|]; simpl; [reflexivity|].
  destruct (String.eqb k k'); reflexivity.
Qed.

Ltac literal_field :=
  repeat (rewrite assoc_literal; cbn [String.eqb Ascii.eqb Bool.eqb]);
  cbn [Js.literal assoc];
  try match goal with
      | |- match ?v with Some _ => _ | None => _ end = _ => destruct v
      end;
  try reflexivity.

Ltac run_handler h :=
  cbv [with_data h bind prop ret throw logged emit from_upsert from_update_eq
       from_insert call];
  cbv beta iota.

Ltac traces := cbn [fst snd db trace]; rewrite <- ?List.app_assoc; cbn [List.app].

Ltac secondary_case R :=
  match goal with
  | |- context [answer ?env ?t ?op ?stmt ?d] =>
      let A := fresh "A" in
      destruct (answer env t op stmt d) as [?e|?d'] eqn:A; traces;
      [ eapply dispatched_secondary_failed;
        [exact R | reflexivity | | exact A]; constructor
      | eapply dispatched_secondary_done;
        [exact R | reflexivity | | exact A]; constructor ]
  end.

Ltac unreadable_case R :=
  traces; eapply dispatched_unreadable; [exact R | first [reflexivity | cbn; assumption]].


Ltac secondary_handler h R :=
  match goal with
  | |- dispatched _ _ ?payload _ _ _ =>
      destruct payload as [| | | | |?fields]; run_handler h;
      try (unreadable_case R);
      match goal with
      | |- context [assoc "data" ?fields] =>
          let D := fresh "D" in
          destruct (assoc "data" fields) as [[| | | | |]|] eqn:D;
          try (traces; eapply dispatched_unreadable;
               [exact R | cbn; rewrite D; reflexivity]);
          secondary_case R
      end
  end.

Ltac object_facts D :=
  constructor;
  [ literal_field
  | unfold job_id_of; cbn [field]; rewrite D; cbn [field]; literal_field
  | literal_field
  | let H := fresh in
    intro H; first [discriminate H | cbn [field]; rewrite D; cbn [field]; literal_field] ].

Ltac document_case R D prepare :=
  match goal with
  | |- context [answer ?env ?t ?op ?stmt ?d] =>
      let A := fresh "A" in
      destruct (answer env t op stmt d) as [?e|?d'] eqn:A;
      [ traces; eapply dispatched_document_refused;
        [exact R | reflexivity | | exact A]; object_facts D
      | prepare;
        (traces; eapply dispatched_document_stored;
         [exact R | reflexivity | | exact A | ];
         [ object_facts D
         | first [ apply enriched_refl
                 | match goal with
                   | H : enriched _ _ |- _ =>
                       cbn [db trace] in H; rewrite <- ?List.app_assoc in H;
                       cbn [List.app] in H; exact H
                   end ] ]) ]
  end.

Ltac document_handler h R prepare :=
  match goal with
  | |- dispatched _ _ ?payload _ _ _ =>
      destruct payload as [| | | | |?fields]; run_handler h;
      try (unreadable_case R);
      match goal with
      | |- context [assoc "data" ?fields] =>
          let D := fresh "D" in
          destruct (assoc "data" fields) as [[| | | | |]|] eqn:D;
          try (traces; eapply dispatched_unreadable;
               [exact R | cbn; rewrite D; reflexivity]);
          document_case R D prepare
      end
  end.

Ltac enrichment_run :=
  cbn [db trace];
  match goal with
  | |- context [nonempty ?k] =>
      destruct (nonempty k) as [?apiKey|];
      [ match goal with
        | |- context [Js.truthy ?v] =>
            destruct (Js.truthy v); cbv beta iota;
            [ match goal with
              | |- context [fetchAndStoreExtractions ?env ?j ?d ?k ?w0] =>
                  let E := fresh "E" in
                  destruct (fetchAndStoreExtractions_run env j d k w0)
                    as (?w' & E & ?);
                  rewrite E
              end
            | ]
        end
      | ]
  end.

Section Dispatch.

Variables (env : Env) (eventType : value) (payload : json) (w : World).

Local Abbreviation runs h :=
  (dispatched env eventType payload w
     (fst (with_data payload (h env) w)) (snd (with_data payload (h env) w))).

Lemma handleProcessingStarted_dispatched :
  route_of eventType = Some document_processing_started ->
  runs handleProcessingStarted.
Proof. intro R. document_handler handleProcessingStarted R idtac. Qed.

Lemma handleProcessingFailed_dispatched :
  route_of eventType = Some document_processing_failed ->
  runs handleProcessingFailed.
Proof. intro R. document_handler handleProcessingFailed R idtac. Qed.

Lemma handleProcessingCompleted_dispatched :
  route_of eventType = Some document_processing_completed ->
  runs handleProcessingCompleted.
Proof.
  intro R. document_handler handleProcessingCompleted R enrichment_run.
Qed.

Lemma handleBatchStarted_dispatched :
  route_of eventType = Some batch_started -> runs handleBatchStarted.
Proof. intro R. secondary_handler handleBatchStarted R. Qed.

Lemma handleBatchProgress_dispatched :
  route_of eventType = Some batch_progress -> runs handleBatchProgress.
Proof. intro R. secondary_handler handleBatchProgress R. Qed.

Lemma handleBatchCompleted_dispatched :
  route_of eventType = Some batch_completed -> runs handleBatchCompleted.
Proof. intro R. secondary_handler handleBatchCompleted R. Qed.

Lemma handleBatchFailed_dispatched :
  route_of eventType = Some batch_failed -> runs handleBatchFailed.
Proof. intro R. secondary_handler handleBatchFailed R. Qed.

Lemma handleBillingCreditsLow_dispatched :
  route_of eventType = Some billing_credits_low -> runs handleBillingCreditsLow.
Proof. intro R. secondary_handler handleBillingCreditsLow R. Qed.

Lemma handleBillingCreditsExhausted_dispatched :
  route_of eventType = Some billing_credits_exhausted ->
  runs handleBillingCreditsExhausted.
Proof. intro R. secondary_handler handleBillingCreditsExhausted R. Qed.

Lemma handleBillingUsageReport_dispatched :
  route_of eventType = Some billing_usage_report -> runs handleBillingUsageReport.
Proof. intro R. secondary_handler handleBillingUsageReport R. Qed.

Lemma handleWorkflowStarted_dispatched :
  route_of eventType = Some workflow_started -> runs handleWorkflowStarted.
Proof. intro R. secondary_handler handleWorkflowStarted R. Qed.

Lemma handleWorkflowCompleted_dispatched :
  route_of eventType = Some workflow_completed -> runs handleWorkflowCompleted.
Proof. intro R. secondary_handler handleWorkflowCompleted R. Qed.

Lemma handleWorkflowFailed_dispatched :
  route_of eventType = Some workflow_failed -> runs handleWorkflowFailed.
Proof. intro R. secondary_handler handleWorkflowFailed R. Qed.

(** Every run of [dispatch] is one of the runs of [dispatched]. *)
Lemma dispatch_dispatched :
  dispatched env eventType payload w
    (fst (dispatch env eventType payload w))
    (snd (dispatch env eventType payload w)).
Proof.
  unfold dispatch. destruct (route_of eventType) as [[]|] eqn:R.
  - apply handleProcessingStarted_dispatched, R.
  - apply handleProcessingCompleted_dispatched, R.
  - apply handleProcessingFailed_dispatched, R.
  - apply handleBatchStarted_dispatched, R.
  - apply handleBatchProgress_dispatched, R.
  - apply handleBatchCompleted_dispatched, R.
  - apply handleBatchFailed_dispatched, R.
  - apply handleBillingCreditsLow_dispatched, R.
  - apply handleBillingCreditsExhausted_dispatched, R.
  - apply handleBillingUsageReport_dispatched, R.
  - apply handleWorkflowStarted_dispatched, R.
  - apply handleWorkflowCompleted_dispatched, R.
  - apply handleWorkflowFailed_dispatched, R.
  - apply dispatched_ping, R.
  - apply dispatched_unhandled, R.
Qed.

End Dispatch.

(** ** Every run of [serve] is one of the runs of [served] *)

Lemma nonempty_Some (h : option string) (s : string) :
  nonempty h = Some s -> h = Some s /\ s <> EmptyString.
Proof.
  unfold nonempty. destruct h as [x|]; [|discriminate].
  destruct (String.eqb_spec x EmptyString); [discriminate|].
  intro E. injection E as <-. auto.
Qed.

Lemma eventType_of_run (req : Request) (payload : json) (w : World) :
  eventType_of req payload w
  = if match payload with JNull => true | _ => false end
       && match nonempty (x_webhook_event req) with None => true | Some _ => false end
    then (Throw TypeError, w)
    else (Ok (effective_event_type req payload), w).
Proof.
  unfold eventType_of, effective_event_type.
  destruct (nonempty (x_webhook_event req)); destruct payload; reflexivity.
Qed.

Lemma call_returns (env : Env) (t : Table) (op : DbOp)
      (stmt : Database -> PostgrestError + Database) (w : World) :
  exists o, call env t op stmt w = (Ok o, snd (call env t op stmt w)).
Proof.
  unfold call. destruct (answer env t op stmt (db w)); eexists; reflexivity.
Qed.

Lemma process_served (env : Env) (req : Request) (d : Database)
      (r : Result Response) (w' : World) :
  method req = "POST" ->
  gate_open env req ->
  process env req (mkWorld d []) = (r, w') ->
  served env req d
    (match r with
     | Ok response => response
     | Throw e => mkResponse 500 (InternalServerError e)
     end)
    (db w')
    (match r with
     | Ok _ => trace w'
     | Throw _ => trace w' ++ [console_error "Webhook processing error:"]
     end).
Proof.
  intros P G E. unfold process in E. unfold bind at 1 in E.
  destruct (JSON.parse (body req)) as [payload|] eqn:J; cbn [ret throw] in E.
  2:{ injection E as <- <-. apply served_malformed; assumption. }
  unfold bind at 1 in E. rewrite eventType_of_run in E.
  destruct (match payload with JNull => true | _ => false end
            && match nonempty (x_webhook_event req) with
               | None => true
               | Some _ => false
               end) eqn:T.
  - injection E as <- <-.
    apply andb_true_iff in T. destruct T as [T1 T2].
    destruct payload; try discriminate.
    destruct (nonempty (x_webhook_event req)) eqn:X; [discriminate|].
    apply served_null_payload; assumption.
  - assert (T' : payload = JNull -> nonempty (x_webhook_event req) <> None).
    { intros -> X. rewrite X in T. discriminate. }
    unfold bind at 1 in E. cbn [emit] in E. unfold bind at 1 in E.
    change (mkWorld (db (mkWorld d []))
                    (trace (mkWorld d []) ++ [console_log "Processing webhook: "]))
      with (say (mkWorld d []) (console_log "Processing webhook: ")) in E.
    unfold from_insert at 1 in E.
    destruct (call_returns env doclayer_webhook_events Insert
                (Store.insert doclayer_webhook_events (now env)
                   [Js.literal (audit_record (effective_event_type req payload)
                                             (deliveryId_of req) payload)])
                (say (mkWorld d []) (console_log "Processing webhook: ")))
      as [o I].
    rewrite I in E.
    change (snd (call env doclayer_webhook_events Insert
                   (Store.insert doclayer_webhook_events (now env)
                      [Js.literal (audit_record (effective_event_type req payload)
                                                (deliveryId_of req) payload)])
                   (say (mkWorld d []) (console_log "Processing webhook: "))))
      with (audited env req payload d) in E.
    pose proof (dispatch_dispatched env (effective_event_type req payload) payload
                  (audited env req payload d)) as D.
    unfold bind at 1 in E.
    destruct (dispatch env (effective_event_type req payload) payload
                       (audited env req payload d))
      as [[[]|e] w2] eqn:Dp; cbn [fst snd] in D.
    + unfold bind at 1 in E. unfold from_update_eq at 1 in E.
      destruct (call_returns env doclayer_webhook_events Update
                  (Store.update doclayer_webhook_events (now env)
                     (Js.literal (processed_mark env)) "event_id"
                     (Js.ToString (Some (JStr (deliveryId_of req))))) w2)
        as [o' U].
      rewrite U in E. cbn [ret] in E. injection E as <- <-.
      apply (served_processed env req d payload w2 P G J T' D).
    + injection E as <- <-.
      apply (served_aborted env req d payload e w2 P G J T' D).
Qed.

(** The form in which the runs are used. *)
Lemma serve_inv (env : Env) (req : Request) (d d' : Database) (response : Response)
      (tr : list Event) :
  serve env req d = (response, d', tr) -> served env req d response d' tr.
Proof.
  intro E. unfold serve in E.
  destruct (String.eqb_spec (method req) "POST") as [P|P]; cbn [negb] in E.
  2:{ injection E as <- <- <-. apply served_method_not_allowed, P. }
  assert (Through :
            gate_open env req ->
            match process env req (mkWorld d []) with
            | (Ok response, w) => (response, db w, trace w)
            | (Throw e, w) =>
                (mkResponse 500 (InternalServerError e), db w,
                 trace w ++ [console_error "Webhook processing error:"])
            end = (response, d', tr) ->
            served env req d response d' tr).
  { intros G H. destruct (process env req (mkWorld d [])) as [r w'] eqn:Pr.
    pose proof (process_served env req d r w' P G Pr) as S.
    destruct r as [x|x]; injection H as <- <- <-; exact S. }
  unfold attempt, signature_rejected in E. unfold bind at 1 in E.
  destruct (nonempty (DOCLAYER_WEBHOOK_SECRET env)) as [secret|] eqn:S.
  - destruct (nonempty_Some _ _ S) as [_ N].
    unfold bind at 1, lift in E.
    pose proof (verifySignature_decides (body req)
                  (or_default (x_webhook_signature req) EmptyString) secret N) as V.
    destruct (verifySignature _ _ secret) as [[|]|x] eqn:Ev; try discriminate;
      cbn [negb ret] in E.
    + apply Through; [right; exists secret; auto | exact E].
    + unfold bind in E. cbn [emit ret fst snd db trace List.app] in E.
      injection E as <- <- <-.
      apply served_invalid_signature with secret; assumption.
  - cbn [ret] in E. apply Through; [left; assumption | exact E].
Qed.

(** ** What the handlers leave alone *)

Lemma enrichment_is_handler_event (e : Event) :
  enrichment_event e -> handler_event e.
Proof. intros []; simpl; auto; discriminate. Qed.

Lemma secondary_call_table (r : Route) (t : Table) (op : DbOp) :
  secondary_call r = Some (t, op) ->
  In t [doclayer_batches; doclayer_workflows; doclayer_billing_alerts;
        doclayer_usage_reports].
Proof. destruct r; simpl; intro E; inversion E; subst; auto 6. Qed.

Lemma secondary_not_audit (r : Route) (t : Table) (op : DbOp) :
  secondary_call r = Some (t, op) ->
  t <> doclayer_webhook_events /\ t <> doclayer_documents.
Proof. destruct r; simpl; intro E; inversion E; subst; split; discriminate. Qed.

(** A run of the router adds handler events to the trace and leaves the
    audit log as it is. *)
Lemma dispatched_frame (env : Env) (eventType : value) (payload : json)
      (w w' : World) (r : Result unit) :
  dispatched env eventType payload w r w' ->
  Store.rows doclayer_webhook_events (db w') = Store.rows doclayer_webhook_events (db w)
  /\ exists tr, trace w' = trace w ++ tr /\ Forall handler_event tr.
Proof.
  intros [R | R | x R U | x s obj e msg R S O A | x s obj d' msg w2 R S O A En
          | x t op stmt e failure msg R S St A | x t op stmt d' msg R S St A].
  - split; [reflexivity|]. eexists; split; [reflexivity|]. repeat constructor.
  - split; [reflexivity|]. eexists; split; [reflexivity|]. repeat constructor.
  - split; [reflexivity|]. exists []. rewrite app_nil_r. auto.
  - split; [reflexivity|]. eexists; split; [reflexivity|].
    repeat constructor; discriminate.
  - apply answer_inr in A. destruct A as [_ A].
    destruct En as [F (tr & E & H)]. cbn [db trace] in *. split.
    + rewrite F by discriminate.
      apply (statement_frame _ _ _ _ _ _ (statement_upsert _ _ _ _) A); discriminate.
    + rewrite E, <- List.app_assoc. eexists; split; [reflexivity|].
      repeat constructor; try discriminate.
      eapply Forall_impl; [|exact H]. apply enrichment_is_handler_event.
  - destruct (secondary_not_audit _ _ _ S) as [N _].
    split; [reflexivity|]. eexists; split; [reflexivity|].
    repeat constructor. exact N.
  - destruct (secondary_not_audit _ _ _ S) as [N _].
    apply answer_inr in A. destruct A as [_ A]. cbn [db trace]. split.
    + apply (statement_frame _ _ _ _ _ _ St A). congruence.
    + eexists; split; [reflexivity|]. repeat constructor. exact N.
Qed.

(** ** The audit insert and the final update *)

Lemma audited_cases (env : Env) (req : Request) (payload : json) (d : Database) :
  (exists e,
     audited env req payload d
     = mkWorld d [console_log "Processing webhook: ";
                  db_call doclayer_webhook_events Insert (Some e)])
  \/ audited env req payload d
     = mkWorld (Store.with_rows doclayer_webhook_events
                  (webhook_events d ++ [audit_row env req payload d]) 1 d)
               [console_log "Processing webhook: ";
                db_call doclayer_webhook_events Insert None].
Proof.
  unfold audited, from_insert, call.
  destruct (answer env _ _ _ _) as [e|d'] eqn:A; cbn [snd say db trace List.app].
  - left. exists e. reflexivity.
  - right. apply answer_inr in A. destruct A as [_ A].
    unfold Store.insert in A.
    destruct (negb _); [discriminate|].
    apply commit_inr in A. destruct A as (-> & _). reflexivity.
Qed.

Lemma marked_cases (env : Env) (req : Request) (w : World) :
  (exists e,
     marked env req w
     = mkWorld (db w) (trace w ++ [db_call doclayer_webhook_events Update (Some e)]))
  \/ marked env req w
     = mkWorld (Store.with_rows doclayer_webhook_events
                  (map (mark_processed env req) (webhook_events (db w))) 0 (db w))
               (trace w ++ [db_call doclayer_webhook_events Update None]).
Proof.
  unfold marked, from_update_eq, call.
  destruct (answer env _ _ _ _) as [e|d'] eqn:A; cbn [snd db trace].
  - left. exists e. reflexivity.
  - right. apply answer_inr in A. destruct A as [_ A].
    apply update_inr in A. destruct A as (-> & _). reflexivity.
Qed.

(** ** Cells of inserted and updated rows *)

Lemma cell_assign (obj r : row) (c : string) :
  Store.cell (Store.assign obj r) c
  = match assoc c r with
    | Some v => match assoc c obj with Some v' => v' | None => v end
    | None => JNull
    end.
Proof.
  unfold Store.cell, Store.assign.
  induction r as [|[k v] r IH]; simpl; [reflexivity|].
  destruct (String.eqb_spec c k) as [->|N]; [reflexivity | exact IH].
Qed.

Lemma cell_assign_other (obj r : row) (c : string) :
  assoc c obj = None -> Store.cell (Store.assign obj r) c = Store.cell r c.
Proof.
  intro H. rewrite cell_assign, H. unfold Store.cell.
  destruct (assoc c r); reflexivity.
Qed.

Lemma audit_row_cells (env : Env) (req : Request) (payload : json) (d : Database) :
  Store.cell (audit_row env req payload d) "event_id" = JStr (deliveryId_of req)
  /\ Store.cell (audit_row env req payload d) "processed" = JBool false
  /\ Store.cell (audit_row env req payload d) "signature_valid" = JBool true.
Proof.
  unfold audit_row, audit_record.
  destruct (effective_event_type req payload); repeat split; reflexivity.
Qed.

Lemma matching_by_cell (c text : string) (r : row) :
  Store.cell r c = JStr text -> Store.matching c text r = true.
Proof.
  intro H. unfold Store.matching. rewrite H. simpl. apply String.eqb_refl.
Qed.

Lemma audit_row_shaped (env : Env) (req : Request) (payload : json) (d : Database) :
  shaped doclayer_webhook_events (audit_row env req payload d).
Proof. reflexivity. Qed.

(** A shaped row of the audit log that the final update reaches ends
    flagged as processed, at the time of the request. *)
Lemma mark_processed_cells (env : Env) (req : Request) (r : row) :
  shaped doclayer_webhook_events r ->
  Store.matching "event_id" (deliveryId_of req) r = true ->
  Store.cell (mark_processed env req r) "processed" = JBool true
  /\ Store.cell (mark_processed env req r) "processed_at" = JStr (now env).
Proof.
  intros Sh Ma. unfold mark_processed. rewrite Ma.
  unfold Store.updated. cbn [Store.has_update_trigger].
  rewrite !cell_assign.
  assert (C : forall c, In c (map Store.cname (Store.columns doclayer_webhook_events)) ->
                        exists v, assoc c r = Some v).
  { rewrite <- Sh. intros c. clear. induction r as [|[k v] r IH]; simpl; [tauto|].
    intros [->|I].
    - rewrite String.eqb_refl. eauto.
    - destruct (String.eqb c k); eauto. }
  destruct (C "processed") as [v1 ->]; [simpl; auto 10|].
  destruct (C "processed_at") as [v2 ->]; [simpl; auto 10|].
  split; reflexivity.
Qed.

Lemma mark_processed_other (env : Env) (req : Request) (r : row) (c : string) :
  c <> "processed" -> c <> "processed_at" ->
  Store.cell (mark_processed env req r) c = Store.cell r c.
Proof.
  intros N1 N2. unfold mark_processed.
  destruct (Store.matching _ _ r); [|reflexivity].
  unfold Store.updated. cbn [Store.has_update_trigger].
  apply cell_assign_other. unfold processed_mark, toISOString_now.
  cbn [Js.literal assoc].
  destruct (String.eqb_spec c "processed"); [contradiction|].
  destruct (String.eqb_spec c "processed_at"); [contradiction|]. reflexivity.
Qed.

Lemma mark_processed_unmatched (env : Env) (req : Request) (r : row) :
  Store.matching "event_id" (deliveryId_of req) r = false ->
  mark_processed env req r = r.
Proof. intro H. unfold mark_processed. rewrite H. reflexivity. Qed.

(** ** The signature gate *)

Lemma or_default_header (sg : string) : or_default (Some sg) EmptyString = sg.
Proof.
  unfold or_default, nonempty.
  destruct (String.eqb_spec sg EmptyString); congruence.
Qed.

Lemma nonempty_configured (h : option string) (s : string) :
  h = Some s -> s <> EmptyString -> nonempty h = Some s.
Proof.
  intros -> N. unfold nonempty.
  destruct (String.eqb_spec s EmptyString); congruence.
Qed.

Lemma gate_closed (env : Env) (req : Request) (secret : string) :
  nonempty (DOCLAYER_WEBHOOK_SECRET env) = Some secret ->
  verifySignature (body req) (or_default (x_webhook_signature req) EmptyString) secret
  = Ok false ->
  ~ gate_open env req.
Proof.
  intros S V [G | (s & G & V')]; rewrite S in G; [discriminate|].
  injection G as <-. rewrite V in V'. discriminate.
Qed.

(** C1, as amended. For every POST request in which a webhook secret is
    configured, if the [x-webhook-signature] header is absent, does not
    start with [sha256=], or carries a hex digest other than the
    HMAC-SHA-256 of the raw body under the secret, the handler answers 401,
    leaves the store as it was (no audit row, no entity mutation) and sends
    it no statement. *)
Theorem invalid_signature_rejected (env : Env) (req : Request) (d : Database)
        (secret : string) :
  method req = "POST" ->
  DOCLAYER_WEBHOOK_SECRET env = Some secret ->
  secret <> EmptyString ->
  x_webhook_signature req = None
  \/ (exists sg, x_webhook_signature req = Some sg
                 /\ JsString.startsWith sg "sha256=" = false)
  \/ (exists sg, x_webhook_signature req = Some sg
                 /\ JsString.replace sg "sha256=" EmptyString
                    <> hex (sign (JsString.encode secret) (JsString.encode (body req)))) ->
  serve env req d
  = (mkResponse 401 InvalidSignature, d, [console_error "Invalid webhook signature"]).
Proof.
  intros P S N H.
  assert (V : verifySignature (body req)
                (or_default (x_webhook_signature req) EmptyString) secret = Ok false).
  { rewrite (verifySignature_decides _ _ _ N).
    destruct H as [H | [(sg & H & F) | (sg & H & F)]]; rewrite H.
    - reflexivity.
    - rewrite or_default_header, F, andb_false_r. reflexivity.
    - rewrite or_default_header.
      destruct (String.eqb_spec
                  (hex (sign (JsString.encode secret) (JsString.encode (body req))))
                  (JsString.replace sg "sha256=" EmptyString)) as [E|_];
        [congruence | rewrite andb_false_r; reflexivity]. }
  unfold serve. rewrite P. cbn [String.eqb Ascii.eqb Bool.eqb negb].
  unfold attempt, signature_rejected.
  rewrite (nonempty_configured _ _ S N).
  unfold bind, lift. rewrite V. reflexivity.
Qed.

Lemma invalid_signature_rejected_witness :
  serve env_secret completed_job_1 Store.empty
  = (mkResponse 401 InvalidSignature, Store.empty,
     [console_error "Invalid webhook signature"]).
Proof.
  apply (invalid_signature_rejected env_secret completed_job_1 Store.empty "s3cret").
  - reflexivity.
  - reflexivity.
  - discriminate.
  - left. reflexivity.
Defined.

(** C1 as stated fails on a request that is not a POST: with a secret
    configured and no signature header the handler answers 405. *)
Lemma invalid_signature_on_get :
  DOCLAYER_WEBHOOK_SECRET env_secret = Some "s3cret"
  /\ x_webhook_signature (mkRequest "GET" None None None EmptyString) = None
  /\ serve env_secret (mkRequest "GET" None None None EmptyString) Store.empty
     = (mkResponse 405 MethodNotAllowed, Store.empty, []).
Proof. repeat split. Qed.

(** ** The audit log after a request *)

Lemma handler_events_leave_audit_log (tr : list Event) (op : DbOp)
      (o : option PostgrestError) :
  Forall handler_event tr -> ~ In (db_call doclayer_webhook_events op o) tr.
Proof.
  intros F I. rewrite Forall_forall in F. apply (F _ I). reflexivity.
Qed.

Ltac not_in_small :=
  let H := fresh in
  intro H; simpl in H; intuition discriminate.

Lemma audit_log_untouched (env : Env) (req : Request) (d : Database) (tr : list Event) :
  (forall op o, ~ In (db_call doclayer_webhook_events op o) tr) ->
  audit_log_after env req d d tr.
Proof.
  intro H. exists []. split.
  - left. split; [reflexivity | apply H].
  - left. split; [symmetry; apply app_nil_r | apply H].
Qed.

Lemma in_app_middle (e : Event) (pre mid post : list Event) :
  In e (pre ++ mid ++ post) -> ~ In e mid -> In e pre \/ In e post.
Proof.
  intros I N. apply in_app_or in I. destruct I as [I|I]; [auto|].
  apply in_app_or in I. destruct I as [I|I]; [contradiction | auto].
Qed.

Lemma served_audit_log (env : Env) (req : Request) (d d' : Database)
      (response : Response) (tr : list Event) :
  served env req d response d' tr -> audit_log_after env req d d' tr.
Proof.
  intros [P | secret P S V | P G J | P G J X
          | payload e w' P G J T D | payload w' P G J T D];
    try (apply audit_log_untouched; intros op o; not_in_small).
  - (* aborted *)
    destruct (dispatched_frame _ _ _ _ _ _ D) as (F & t & E & H).
    pose proof (handler_events_leave_audit_log t) as NI.
    unfold audit_log_after. unfold Store.rows in F at 1 2. rewrite F, E.
    destruct (audited_cases env req payload d) as [(x & ->) | ->];
      cbn [db trace webhook_events].
    + exists []. split.
      * left. split; [reflexivity|]. intro I.
        apply in_app_or in I. destruct I as [I|I]; [|revert I; not_in_small].
        apply in_app_or in I. destruct I as [I|I]; [revert I; not_in_small|].
        exact (NI _ _ H I).
      * left. split; [symmetry; apply app_nil_r|]. intro I.
        apply in_app_or in I. destruct I as [I|I]; [|revert I; not_in_small].
        apply in_app_or in I. destruct I as [I|I]; [revert I; not_in_small|].
        exact (NI _ _ H I).
    + exists [audit_row env req payload d]. split.
      * right. exists payload. repeat split; try assumption.
        apply in_or_app. left. apply in_or_app. left. simpl. auto.
      * left. split; [apply (rows_with_rows doclayer_webhook_events)|]. intro I.
        apply in_app_or in I. destruct I as [I|I]; [|revert I; not_in_small].
        apply in_app_or in I. destruct I as [I|I]; [revert I; not_in_small|].
        exact (NI _ _ H I).
  - (* processed *)
    destruct (dispatched_frame _ _ _ _ _ _ D) as (F & t & E & H).
    pose proof (handler_events_leave_audit_log t) as NI.
    unfold Store.rows in F at 1 2.
    assert (Ins : exists inserted,
               ((inserted = [] /\ ~ In (db_call doclayer_webhook_events Insert None) (trace w'))
                \/ (exists payload,
                      JSON.parse (body req) = Some payload
                      /\ inserted = [audit_row env req payload d]
                      /\ In (db_call doclayer_webhook_events Insert None) (trace w')))
               /\ webhook_events (db w') = webhook_events d ++ inserted
               /\ ~ In (db_call doclayer_webhook_events Update None) (trace w')).
    { rewrite F, E.
      destruct (audited_cases env req payload d) as [(x & ->) | ->];
        cbn [db trace webhook_events].
      - exists []. split; [|split].
        + left. split; [reflexivity|]. intro I.
          apply in_app_or in I. destruct I as [I|I]; [revert I; not_in_small|].
          exact (NI _ _ H I).
        + symmetry; apply app_nil_r.
        + intro I.
          apply in_app_or in I. destruct I as [I|I]; [revert I; not_in_small|].
          exact (NI _ _ H I).
      - exists [audit_row env req payload d]. split; [|split].
        + right. exists payload. repeat split; try assumption.
          apply in_or_app. left. simpl. auto.
        + apply (rows_with_rows doclayer_webhook_events).
        + intro I.
          apply in_app_or in I. destruct I as [I|I]; [revert I; not_in_small|].
          exact (NI _ _ H I). }
    destruct Ins as (inserted & I1 & I2 & I3). exists inserted.
    unfold audit_log_after.
    destruct (marked_cases env req w') as [(x & ->) | ->]; cbn [db trace]; split.
    + destruct I1 as [[-> N] | (p & Jp & -> & I)]; [left | right].
      * split; [reflexivity|]. intro I. apply in_app_or in I.
        destruct I as [I|I]; [contradiction | revert I; not_in_small].
      * exists p. repeat split; try assumption. apply in_or_app. auto.
    + left. split; [assumption|]. intro I. apply in_app_or in I.
      destruct I as [I|I]; [contradiction | revert I; not_in_small].
    + destruct I1 as [[-> N] | (p & Jp & -> & I)]; [left | right].
      * split; [reflexivity|]. intro I. apply in_app_or in I.
        destruct I as [I|I]; [contradiction | revert I; not_in_small].
      * exists p. repeat split; try assumption. apply in_or_app. auto.
    + right. split.
      * rewrite <- I2. apply (rows_with_rows doclayer_webhook_events).
      * apply in_or_app. right. simpl. auto.
Qed.

(** ** Failed writes in the trace *)

Lemma enrichment_no_failed_write (tr : list Event) (t : Table) (op : DbOp)
      (o : option PostgrestError) :
  Forall enrichment_event tr -> In (db_call t op o) tr ->
  (t = doclayer_documents /\ op = Select)
  \/ (t = doclayer_extractions /\ op = Insert).
Proof.
  intros F I. rewrite Forall_forall in F. specialize (F _ I).
  inversion F; subst; auto.
Qed.

(** What a run of the router adds to the trace: a refused document upsert
    is thrown; a refused write of another handler is logged and the run
    returns. *)
Lemma dispatched_trace (env : Env) (eventType : value) (payload : json)
      (w w' : World) (r : Result unit) :
  dispatched env eventType payload w r w' ->
  exists tr,
    trace w' = trace w ++ tr
    /\ (forall e, In (db_call doclayer_documents Upsert (Some e)) tr ->
                  r = Throw (Thrown e))
    /\ (forall t op e,
           In t [doclayer_batches; doclayer_workflows; doclayer_billing_alerts;
                 doclayer_usage_reports] ->
           In (db_call t op (Some e)) tr ->
           r = Ok tt /\ exists msg, In (console_error msg) tr).
Proof.
  intros [R | R | x R U | x s obj e msg R S O A | x s obj d' msg w2 R S O A En
          | x t op stmt e failure msg R S St A | x t op stmt d' msg R S St A].
  - eexists; split; [reflexivity|]. split; intros; simpl in *; intuition discriminate.
  - eexists; split; [reflexivity|]. split; intros; simpl in *; intuition discriminate.
  - exists []. rewrite app_nil_r. split; [reflexivity|].
    split; intros; simpl in *; contradiction.
  - eexists; split; [reflexivity|]. split.
    + intros e' [I|[I|[]]]; [|discriminate]. injection I as ->. reflexivity.
    + intros t op e' T [I|[I|[]]]; [|discriminate].
      injection I as E1 E2 E3. subst. simpl in T. intuition discriminate.
  - destruct En as [_ (tr & E & H)]. cbn [trace] in E.
    rewrite E, <- List.app_assoc. eexists; split; [reflexivity|]. split.
    + intros e' [I|[I|I]]; try discriminate.
      destruct (enrichment_no_failed_write _ _ _ _ H I) as [[_ X]|[X _]]; discriminate.
    + intros t op e' T [I|[I|I]]; try discriminate.
      destruct (enrichment_no_failed_write _ _ _ _ H I) as [[-> _]|[-> _]];
        simpl in T; intuition discriminate.
  - eexists; split; [reflexivity|]. split.
    + intros e' [I|[I|[I|[]]]]; try discriminate.
      injection I as E1 E2 E3. subst.
      apply secondary_not_audit in S. destruct S as [_ S]. contradiction.
    + intros t' op' e' T I. split; [reflexivity|]. exists failure. simpl. auto.
  - eexists; split; [reflexivity|]. split.
    + intros e' [I|[I|[]]]; discriminate.
    + intros t' op' e' T [I|[I|[]]]; discriminate.
Qed.

Lemma audited_trace (env : Env) (req : Request) (payload : json) (d : Database) :
  exists o, trace (audited env req payload d)
            = [console_log "Processing webhook: ";
               db_call doclayer_webhook_events Insert o].
Proof.
  destruct (audited_cases env req payload d) as [(e & ->) | ->]; eexists; reflexivity.
Qed.

Lemma marked_trace (env : Env) (req : Request) (w : World) :
  exists o, trace (marked env req w)
            = trace w ++ [db_call doclayer_webhook_events Update o].
Proof.
  destruct (marked_cases env req w) as [(e & ->) | ->]; eexists; reflexivity.
Qed.

(** C6. When the upsert of a document handler reports an error the request
    aborts: the response is 500 and carries that error, the final update
    is never sent, and the audit log is the one found plus the row
    inserted before routing, still flagged unprocessed. *)
Theorem document_failure_aborts (env : Env) (req : Request) (d d' : Database)
        (response : Response) (tr : list Event) (e : PostgrestError) :
  serve env req d = (response, d', tr) ->
  In (db_call doclayer_documents Upsert (Some e)) tr ->
  response = mkResponse 500 (InternalServerError (Thrown e))
  /\ (forall o, ~ In (db_call doclayer_webhook_events Update o) tr)
  /\ exists inserted,
       webhook_events d' = webhook_events d ++ inserted
       /\ (In (db_call doclayer_webhook_events Insert None) tr ->
           exists payload, JSON.parse (body req) = Some payload
                           /\ inserted = [audit_row env req payload d])
       /\ Forall (fun r => Store.cell r "processed" = JBool false
                           /\ Store.cell r "event_id" = JStr (deliveryId_of req))
                 inserted.
Proof.
  intros E I. apply serve_inv in E.
  assert (Aborted :
            response = mkResponse 500 (InternalServerError (Thrown e))
            /\ forall o, ~ In (db_call doclayer_webhook_events Update o) tr).
  { destruct E as [P | secret P S V | P G J | P G J X
                   | payload x w' P G J T D | payload w' P G J T D];
      try (exfalso; revert I; not_in_small).
    - destruct (dispatched_trace _ _ _ _ _ _ D) as (t & Et & Doc & _).
      destruct (dispatched_frame _ _ _ _ _ _ D) as (_ & t' & Et' & H).
      rewrite Et' in Et. apply app_inv_head in Et. subst t'.
      destruct (audited_trace env req payload d) as [o Ea].
      rewrite Et', Ea in I |- *.
      apply in_app_or in I. destruct I as [I|I]; [|exfalso; revert I; not_in_small].
      apply in_app_or in I. destruct I as [I|I]; [exfalso; revert I; not_in_small|].
      specialize (Doc _ I). injection Doc as ->. split; [reflexivity|].
      intros o' I'.
      apply in_app_or in I'. destruct I' as [I'|I']; [|revert I'; not_in_small].
      apply in_app_or in I'. destruct I' as [I'|I']; [revert I'; not_in_small|].
      exact (handler_events_leave_audit_log _ _ _ H I').
    - exfalso.
      destruct (dispatched_trace _ _ _ _ _ _ D) as (t & Et & Doc & _).
      destruct (audited_trace env req payload d) as [o Ea].
      destruct (marked_trace env req w') as [o' Em].
      rewrite Em, Et, Ea in I.
      apply in_app_or in I. destruct I as [I|I]; [|revert I; not_in_small].
      apply in_app_or in I. destruct I as [I|I]; [revert I; not_in_small|].
      specialize (Doc _ I). discriminate. }
  destruct Aborted as [R NU]. split; [exact R|]. split; [exact NU|].
  destruct (served_audit_log _ _ _ _ _ _ E) as (inserted & Ins & [[Ev _] | [_ U]]);
    [|exfalso; exact (NU _ U)].
  exists inserted. split; [exact Ev|].
  destruct Ins as [[-> N] | (payload & J & -> & Ia)].
  - split; [intro; contradiction | constructor].
  - split; [intros _; exists payload; auto|].
    constructor; [|constructor].
    destruct (audit_row_cells env req payload d) as (C1 & C2 & _). auto.
Qed.

Lemma document_failure_aborts_witness :
  In (db_call doclayer_documents Upsert (Some Unavailable))
     (snd (serve env_documents_down started_job_1 Store.empty))
  /\ fst (fst (serve env_documents_down started_job_1 Store.empty))
     = mkResponse 500 (InternalServerError (Thrown Unavailable)).
Proof.
  assert (I : In (db_call doclayer_documents Upsert (Some Unavailable))
                 (snd (serve env_documents_down started_job_1 Store.empty)))
    by (vm_compute; auto).
  split; [exact I|].
  destruct (serve env_documents_down started_job_1 Store.empty) as [[r d'] tr] eqn:E.
  exact (proj1 (document_failure_aborts _ _ _ _ _ _ _ E I)).
Defined.

Lemma marked_audit_row (env : Env) (req : Request) (payload : json) (d : Database) :
  Store.cell (mark_processed env req (audit_row env req payload d)) "processed"
  = JBool true.
Proof.
  destruct (audit_row_cells env req payload d) as (C & _).
  apply (mark_processed_cells env req _ (audit_row_shaped env req payload d)).
  apply matching_by_cell, C.
Qed.

(** C7. When the write of a batch, workflow, billing or usage handler
    fails, the handler logs the error and the request goes on: the response
    is 200, the final update is sent, and when the audit insert and that
    update go through the audit row of the request ends flagged processed. *)
Theorem secondary_failure_tolerated (env : Env) (req : Request) (d d' : Database)
        (response : Response) (tr : list Event) (t : Table) (op : DbOp)
        (e : PostgrestError) :
  serve env req d = (response, d', tr) ->
  In t [doclayer_batches; doclayer_workflows; doclayer_billing_alerts;
        doclayer_usage_reports] ->
  In (db_call t op (Some e)) tr ->
  status response = 200
  /\ (exists msg, In (console_error msg) tr)
  /\ (exists o, In (db_call doclayer_webhook_events Update o) tr)
  /\ (In (db_call doclayer_webhook_events Insert None) tr ->
      In (db_call doclayer_webhook_events Update None) tr ->
      exists payload,
        JSON.parse (body req) = Some payload
        /\ webhook_events d'
           = map (mark_processed env req)
                 (webhook_events d ++ [audit_row env req payload d])
        /\ Store.cell (mark_processed env req (audit_row env req payload d)) "processed"
           = JBool true).
Proof.
  intros E T I. apply serve_inv in E.
  assert (Done : status response = 200
                 /\ (exists msg, In (console_error msg) tr)
                 /\ (exists o, In (db_call doclayer_webhook_events Update o) tr)).
  { destruct E as [P | secret P S V | P G J | P G J X
                   | payload x w' P G J T' D | payload w' P G J T' D];
      try (exfalso; revert I; not_in_small).
    - exfalso.
      destruct (dispatched_trace _ _ _ _ _ _ D) as (t' & Et & _ & Sec).
      destruct (audited_trace env req payload d) as [o Ea].
      rewrite Et, Ea in I.
      apply in_app_or in I. destruct I as [I|I].
      + apply in_app_or in I. destruct I as [I|I].
        * simpl in I. destruct I as [I|[I|[]]]; [discriminate|].
          injection I as E1 E2 E3. subst. simpl in T. intuition discriminate.
        * destruct (Sec _ _ _ T I) as [X _]. discriminate.
      + simpl in I. intuition discriminate.
    - destruct (dispatched_trace _ _ _ _ _ _ D) as (t' & Et & _ & Sec).
      destruct (audited_trace env req payload d) as [o Ea].
      destruct (marked_trace env req w') as [o' Em].
      rewrite Em, Et, Ea in I |- *. split; [reflexivity|].
      assert (I' : In (db_call t op (Some e)) t').
      { apply in_app_or in I. destruct I as [I|I].
        - apply in_app_or in I. destruct I as [I|I]; [|exact I].
          simpl in I. destruct I as [I|[I|[]]]; [discriminate|].
          injection I as E1 E2 E3. subst. simpl in T. intuition discriminate.
        - simpl in I. destruct I as [I|[]].
          injection I as E1 E2 E3. subst. simpl in T. intuition discriminate. }
      destruct (Sec _ _ _ T I') as [_ (msg & Im)]. split.
      + exists msg. apply in_or_app. left. apply in_or_app. right. exact Im.
      + exists o'. apply in_or_app. right. simpl. auto. }
  destruct Done as (S & L & U). repeat split; try assumption.
  intros Ins Upd.
  destruct (served_audit_log _ _ _ _ _ _ E) as (inserted & Hi & [[_ N] | [Ev _]]);
    [contradiction|].
  destruct Hi as [[_ N] | (payload & J & -> & _)]; [contradiction|].
  exists payload. repeat split; try assumption. apply marked_audit_row.
Qed.

Lemma secondary_failure_tolerated_witness :
  In (db_call doclayer_batches Upsert (Some Unavailable))
     (snd (serve env_batches_down batch_started_b1 Store.empty))
  /\ status (fst (fst (serve env_batches_down batch_started_b1 Store.empty))) = 200.
Proof.
  assert (I : In (db_call doclayer_batches Upsert (Some Unavailable))
                 (snd (serve env_batches_down batch_started_b1 Store.empty)))
    by (vm_compute; auto).
  split; [exact I|].
  destruct (serve env_batches_down batch_started_b1 Store.empty) as [[r d'] tr] eqn:E.
  refine (proj1 (secondary_failure_tolerated _ _ _ _ _ _
                   doclayer_batches Upsert Unavailable E _ I)).
  simpl. auto.
Defined.

(** ** Events that match no routing key *)

Lemma dispatched_unrouted (env : Env) (eventType : value) (payload : json)
      (w w' : World) (r : Result unit) :
  dispatched env eventType payload w r w' ->
  route_of eventType = None ->
  r = Ok tt /\ w' = say w (console_log "Unhandled event type: ").
Proof.
  intros [R | R | x R U | x s obj e msg R S O A | x s obj d' msg w2 R S O A En
          | x t op stmt e failure msg R S St A | x t op stmt d' msg R S St A] N;
    rewrite N in R; try discriminate.
  auto.
Qed.

(** C5, as amended. For every POST request that passes the signature gate,
    whose body parses and whose event type matches none of the routing
    keys, the handler answers 200, logs the event type as unhandled and
    changes no table but the audit log; the audit row it inserted is then
    marked processed by the final update like that of any routed event. *)
Theorem unhandled_event_acknowledged (env : Env) (req : Request) (d : Database)
        (payload : json) :
  method req = "POST" ->
  gate_open env req ->
  JSON.parse (body req) = Some payload ->
  (payload = JNull -> nonempty (x_webhook_event req) <> None) ->
  route_of (effective_event_type req payload) = None ->
  let '(response, d', tr) := serve env req d in
  response = mkResponse 200 (Success (effective_event_type req payload)
                                     (deliveryId_of req))
  /\ In (console_log "Unhandled event type: ") tr
  /\ (forall t, t <> doclayer_webhook_events -> Store.rows t d' = Store.rows t d)
  /\ (In (db_call doclayer_webhook_events Insert None) tr ->
      In (db_call doclayer_webhook_events Update None) tr ->
      webhook_events d'
      = map (mark_processed env req)
            (webhook_events d ++ [audit_row env req payload d])
      /\ Store.cell (mark_processed env req (audit_row env req payload d)) "processed"
         = JBool true).
Proof.
  intros P G J T R.
  destruct (serve env req d) as [[response d'] tr] eqn:E. apply serve_inv in E.
  assert (Run : response = mkResponse 200 (Success (effective_event_type req payload)
                                                   (deliveryId_of req))
                /\ In (console_log "Unhandled event type: ") tr
                /\ forall t, t <> doclayer_webhook_events ->
                             Store.rows t d' = Store.rows t d).
  { destruct E as [P' | secret P' S V | P' G' J' | P' G' J' X
                   | payload' x w' P' G' J' T' D | payload' w' P' G' J' T' D];
      try congruence.
    - exfalso. exact (gate_closed _ _ _ S V G).
    - exfalso. rewrite J in J'. injection J' as ->. exact (T eq_refl X).
    - exfalso. rewrite J in J'. injection J' as <-.
      destruct (dispatched_unrouted _ _ _ _ _ _ D R) as [X _]. discriminate.
    - rewrite J in J'. injection J' as <-.
      destruct (dispatched_unrouted _ _ _ _ _ _ D R) as [_ ->].
      split; [reflexivity|].
      destruct (marked_cases env req (say (audited env req payload d)
                                          (console_log "Unhandled event type: ")))
        as [(x & ->) | ->];
        destruct (audited_cases env req payload d) as [(y & ->) | ->];
        cbn [say db trace]; (split; [simpl; auto 6|]); intros t N;
        rewrite ?rows_with_rows_other by exact N; reflexivity. }
  destruct Run as (Rs & L & F). repeat split; try assumption.
  - destruct (served_audit_log _ _ _ _ _ _ E) as (inserted & Hi & [[_ N] | [Ev _]]);
      [contradiction|].
    destruct Hi as [[_ N] | (p & Jp & -> & _)]; [contradiction|].
    rewrite J in Jp. injection Jp as <-. exact Ev.
  - apply marked_audit_row.
Qed.

Lemma unhandled_event_acknowledged_witness :
  let '(response, d', tr) := serve env_open archived Store.empty in
  status response = 200
  /\ webhook_events d'
     = [mark_processed env_open archived
          (audit_row env_open archived
             (JObj [("event_type", JStr "document.archived"); ("data", JObj [])])
             Store.empty)].
Proof.
  pose proof (unhandled_event_acknowledged env_open archived Store.empty
                (JObj [("event_type", JStr "document.archived"); ("data", JObj [])])) as H.
  destruct (serve env_open archived Store.empty) as [[response d'] tr] eqn:E.
  destruct H as (R & _ & _ & A).
  - reflexivity.
  - left. reflexivity.
  - vm_compute. reflexivity.
  - discriminate.
  - reflexivity.
  - split; [rewrite R; reflexivity|].
    assert (Tr : tr = snd (serve env_open archived Store.empty))
      by (rewrite E; reflexivity).
    apply A; rewrite Tr; vm_compute; auto.
Defined.

(** C5 as stated fails on its example: the audit row of a
    [document.archived] event does not remain unprocessed, the final update
    flags it like any other. *)
Lemma unhandled_event_marked_processed :
  route_of (Some (JStr "document.archived")) = None
  /\ let '(response, d', tr) := serve env_open archived Store.empty in
     status response = 200
     /\ exists r, webhook_events d' = [r]
                  /\ Store.cell r "event_type" = JStr "document.archived"
                  /\ Store.cell r "processed" = JBool true.
Proof.
  split; [reflexivity|]. vm_compute. split; [reflexivity|].
  eexists. split; [reflexivity|]. split; reflexivity.
Qed.

(** ** The [signature_valid] flag *)

Lemma Forall2_map_self {A : Type} (P : A -> A -> Prop) (f : A -> A) (l : list A) :
  (forall x, P x (f x)) -> Forall2 P l (map f l).
Proof. intro H. induction l; simpl; constructor; auto. Qed.

(** C9. Every row a request adds to [doclayer_webhook_events] has
    [signature_valid] true, whether or not a secret is configured, and the
    rows found keep their flag; a request that fails verification (401)
    leaves the store as it was. *)
Theorem audit_rows_signature_valid (env : Env) (req : Request) (d : Database) :
  let '(response, d', tr) := serve env req d in
  (exists kept inserted,
      webhook_events d' = kept ++ inserted
      /\ Forall2 (fun r0 r => Store.cell r "signature_valid"
                              = Store.cell r0 "signature_valid"
                              /\ Store.cell r "id" = Store.cell r0 "id")
                 (webhook_events d) kept
      /\ Forall (fun r => Store.cell r "signature_valid" = JBool true) inserted)
  /\ (status response = 401 -> d' = d)
  /\ (nonempty (DOCLAYER_WEBHOOK_SECRET env) = None -> status response <> 401).
Proof.
  destruct (serve env req d) as [[response d'] tr] eqn:E. apply serve_inv in E.
  split; [|split].
  - destruct (served_audit_log _ _ _ _ _ _ E) as (inserted & Hi & [[Ev _] | [Ev _]]).
    + exists (webhook_events d), inserted. split; [exact Ev|]. split.
      * clear. induction (webhook_events d); constructor; auto.
      * destruct Hi as [[-> _] | (p & _ & -> & _)]; constructor; [|constructor].
        apply audit_row_cells.
    + exists (map (mark_processed env req) (webhook_events d)),
             (map (mark_processed env req) inserted).
      split; [rewrite Ev; apply map_app|]. split.
      * apply Forall2_map_self. intro r.
        split; apply mark_processed_other; discriminate.
      * destruct Hi as [[-> _] | (p & _ & -> & _)]; constructor; [|constructor].
        rewrite mark_processed_other by discriminate. apply audit_row_cells.
  - destruct E; cbn [status]; intro X; try discriminate. reflexivity.
  - intros N.
    destruct E as [P | secret P S V | P G J | P G J X
                   | payload x w' P G J T D | payload w' P G J T D];
      cbn [status]; try discriminate.
    rewrite N in S. discriminate.
Qed.

(** Without a secret nothing is verified, and the row still says
    [signature_valid]. *)
Example unverified_row_flagged_valid :
  DOCLAYER_WEBHOOK_SECRET env_open = None
  /\ exists r, webhook_events (snd (fst (serve env_open archived Store.empty))) = [r]
               /\ Store.cell r "signature_valid" = JBool true.
Proof.
  split; [reflexivity|]. vm_compute. eexists. split; reflexivity.
Qed.

(** ** The final update *)

(** C10. The update that marks the webhook as processed selects by
    [event_id]: when it goes through, every row of the audit log that holds
    the delivery identifier of the request, the rows of earlier requests
    included, ends with [processed] true and [processed_at] set, and the
    other rows are left as they were. *)
Theorem mark_processed_by_delivery_id (env : Env) (req : Request) (d d' : Database)
        (response : Response) (tr : list Event) :
  serve env req d = (response, d', tr) ->
  In (db_call doclayer_webhook_events Update None) tr ->
  Forall (shaped doclayer_webhook_events) (webhook_events d) ->
  exists inserted,
    webhook_events d' = map (mark_processed env req) (webhook_events d ++ inserted)
    /\ (forall r, In r (webhook_events d ++ inserted) ->
                  Store.matching "event_id" (deliveryId_of req) r = true ->
                  Store.cell (mark_processed env req r) "processed" = JBool true
                  /\ Store.cell (mark_processed env req r) "processed_at"
                     = JStr (now env))
    /\ (forall r, In r (webhook_events d ++ inserted) ->
                  Store.matching "event_id" (deliveryId_of req) r = false ->
                  mark_processed env req r = r).
Proof.
  intros E U Sh. apply serve_inv in E.
  destruct (served_audit_log _ _ _ _ _ _ E) as (inserted & Hi & [[_ N] | [Ev _]]);
    [contradiction|].
  exists inserted. split; [exact Ev|]. split.
  - intros r I M. apply mark_processed_cells; [|exact M].
    apply in_app_or in I. destruct I as [I|I].
    + rewrite Forall_forall in Sh. apply Sh, I.
    + destruct Hi as [[-> _] | (p & _ & -> & _)]; [contradiction|].
      destruct I as [<-|[]]. apply audit_row_shaped.
  - intros r _. apply mark_processed_unmatched.
Qed.

Lemma mark_processed_by_delivery_id_witness :
  In (db_call doclayer_webhook_events Update None)
     (snd (serve env_open batch_started_b1 after_failed_delivery))
  /\ Forall (shaped doclayer_webhook_events) (webhook_events after_failed_delivery)
  /\ exists inserted,
       webhook_events (snd (fst (serve env_open batch_started_b1 after_failed_delivery)))
       = map (mark_processed env_open batch_started_b1)
             (webhook_events after_failed_delivery ++ inserted).
Proof.
  assert (I : In (db_call doclayer_webhook_events Update None)
                 (snd (serve env_open batch_started_b1 after_failed_delivery)))
    by (vm_compute; auto 6).
  assert (S : Forall (shaped doclayer_webhook_events)
                     (webhook_events after_failed_delivery))
    by (vm_compute; repeat constructor).
  split; [exact I|]. split; [exact S|].
  destruct (serve env_open batch_started_b1 after_failed_delivery)
    as [[response d'] tr] eqn:E.
  destruct (mark_processed_by_delivery_id _ _ _ _ _ _ E I S) as (inserted & H & _).
  exists inserted. exact H.
Defined.

(** The audit row of a delivery that failed without a delivery header is
    flagged processed by the next request that has none either. *)
Example placeholder_deliveries_share_the_mark :
  (exists r, webhook_events after_failed_delivery = [r]
             /\ Store.cell r "event_id" = JStr "unknown"
             /\ Store.cell r "event_type" = JStr "document.processing.started"
             /\ Store.cell r "processed" = JBool false)
  /\ (exists r r',
         webhook_events (snd (fst (serve env_open batch_started_b1 after_failed_delivery)))
         = [r; r']
         /\ Store.cell r "event_type" = JStr "document.processing.started"
         /\ Store.cell r "processed" = JBool true
         /\ Store.cell r' "event_type" = JStr "batch.started"
         /\ Store.cell r' "processed" = JBool true).
Proof.
  split; vm_compute.
  - eexists. repeat split.
  - do 2 eexists. repeat split.
Qed.

(** ** Upserts keyed on the job identifier *)

Lemma filter_map_stable {A : Type} (P : A -> bool) (f : A -> A) (l : list A) :
  (forall x, P (f x) = P x) -> filter P (map f l) = map f (filter P l).
Proof.
  intro H. induction l as [|a l IH]; simpl; [reflexivity|].
  rewrite H. destruct (P a); simpl; congruence.
Qed.

Lemma existsb_false_filter {A : Type} (P : A -> bool) (l : list A) :
  existsb P l = false -> filter P l = [].
Proof.
  induction l as [|a l IH]; simpl; [reflexivity|].
  destruct (P a); simpl; [discriminate | exact IH].
Qed.

Lemma existsb_true_filter {A : Type} (P : A -> bool) (l : list A) :
  existsb P l = true -> filter P l <> [].
Proof.
  induction l as [|a l IH]; simpl; [discriminate|].
  destruct (P a); simpl; [discriminate | exact IH].
Qed.

Lemma matching_key (t : Table) (c k : string) (r : row) :
  Store.unique_column t = Some c ->
  Store.matching c k r = true <-> Store.key t r = Some k.
Proof.
  intro U. unfold Store.matching, Store.key. rewrite U.
  destruct (Store.pg_text (Store.cell r c)) as [s|]; split; intro H;
    try discriminate.
  - apply String.eqb_eq in H. congruence.
  - injection H as ->. apply String.eqb_refl.
Qed.

Lemma no_key_no_match (t : Table) (c k : string) (rs : list row) :
  Store.unique_column t = Some c ->
  existsb (String.eqb k) (Store.somes (map (Store.key t) rs)) = false ->
  filter (Store.matching c k) rs = [].
Proof.
  intros U. induction rs as [|r rs IH]; simpl; [reflexivity|].
  destruct (Store.matching c k r) eqn:M.
  - apply (matching_key t c k r U) in M. rewrite M. simpl.
    rewrite String.eqb_refl. discriminate.
  - destruct (Store.key t r); simpl; [|exact IH].
    intro H. apply orb_false_iff in H. apply IH, H.
Qed.

(** Under the UNIQUE constraint at most one row holds a key. *)
Lemma keys_distinct_filter (t : Table) (c k : string) (rs : list row) :
  Store.unique_column t = Some c ->
  Store.keys_distinct t rs = true ->
  List.length (filter (Store.matching c k) rs) <= 1.
Proof.
  intros U. unfold Store.keys_distinct.
  induction rs as [|r rs IH]; simpl; [lia|].
  destruct (Store.matching c k r) eqn:M.
  - apply (matching_key t c k r U) in M. rewrite M. simpl.
    intro H. apply andb_true_iff in H. destruct H as [H _].
    apply negb_true_iff in H.
    rewrite (no_key_no_match t c k rs U H). simpl. lia.
  - destruct (Store.key t r); simpl; [|exact IH].
    intro H. apply andb_true_iff in H. apply IH, H.
Qed.

Lemma first_violation_none (t : Table) (rs : list row) (r : row) :
  Store.first_violation t rs = None -> In r rs -> Store.violation t r = None.
Proof.
  induction rs as [|a rs IH]; simpl; [tauto|].
  destruct (Store.violation t a) eqn:V; [discriminate|].
  intros H [<-|I]; auto.
Qed.

Lemma document_status_not_null (r : row) :
  Store.violation doclayer_documents r = None ->
  Store.cell r "status" <> JNull /\ Store.cell r "doclayer_job_id" <> JNull.
Proof.
  unfold Store.violation.
  destruct (negb (forallb _ _)) eqn:N; [discriminate|]. intros _.
  apply negb_false_iff in N. rewrite forallb_forall in N.
  split.
  - specialize (N (Store.Col "status" true (Store.Const (JStr "pending")))).
    cbn in N. intro E. rewrite E in N. discriminate N. auto 10.
  - specialize (N (Store.Col "doclayer_job_id" true Store.NoDefault)).
    cbn in N. intro E. rewrite E in N. discriminate N. auto 10.
Qed.

Lemma updated_document_cell (now : string) (obj r : row) (c : string) :
  c <> "updated_at" ->
  Store.cell (Store.updated doclayer_documents now obj r) c
  = match assoc c r with
    | Some v => match assoc c obj with Some v' => v' | None => v end
    | None => JNull
    end.
Proof.
  intro N. unfold Store.updated. cbn [Store.has_update_trigger].
  rewrite cell_assign_other.
  - apply cell_assign.
  - simpl. destruct (String.eqb_spec c "updated_at"); [contradiction | reflexivity].
Qed.

Lemma new_document_cells (now : string) (id : nat) (obj : row) :
  Store.cell (Store.new_row doclayer_documents now id obj) "doclayer_job_id"
  = match assoc "doclayer_job_id" obj with Some v => v | None => JNull end
  /\ Store.cell (Store.new_row doclayer_documents now id obj) "status"
     = match assoc "status" obj with Some v => v | None => JStr "pending" end
  /\ Store.cell (Store.new_row doclayer_documents now id obj) "error_message"
     = match assoc "error_message" obj with Some v => v | None => JNull end.
Proof. repeat split. Qed.

Lemma filter_map_fixed {A : Type} (P : A -> bool) (f : A -> A) (l : list A) :
  (forall x, P (f x) = P x) -> (forall x, P x = true -> f x = x) ->
  filter P (map f l) = filter P l.
Proof.
  intros H1 H2. induction l as [|a l IH]; simpl; [reflexivity|].
  rewrite H1. destruct (P a) eqn:E; [rewrite (H2 _ E)|]; congruence.
Qed.

Lemma pg_text_not_null (v : json) :
  v <> JNull -> exists k, Store.pg_text v = Some k.
Proof. destruct v; intro N; try congruence; eexists; reflexivity. Qed.

Lemma shaped_has_column (t : Table) (r : row) (c : string) :
  shaped t r -> In c (map Store.cname (Store.columns t)) ->
  exists v, assoc c r = Some v.
Proof.
  unfold shaped. intros <-. clear. induction r as [|[k v] r IH]; simpl; [tauto|].
  intros [->|I].
  - rewrite String.eqb_refl. eauto.
  - destruct (String.eqb c k); eauto.
Qed.

(** A row that holds the key keeps it through the update of an upsert. *)
Lemma updated_document_matching (now : string) (obj r : row) (job : json) (k k' : string) :
  assoc "doclayer_job_id" obj = Some job ->
  Store.pg_text job = Some k ->
  Store.matching "doclayer_job_id" k'
    (if Store.matching "doclayer_job_id" k r
     then Store.updated doclayer_documents now obj r else r)
  = Store.matching "doclayer_job_id" k' r.
Proof.
  intros J K. destruct (Store.matching "doclayer_job_id" k r) eqn:M; [|reflexivity].
  unfold Store.matching in *.
  rewrite updated_document_cell by discriminate. rewrite J.
  unfold Store.cell in M |- *. destruct (assoc "doclayer_job_id" r) as [v|];
    [|discriminate].
  rewrite K. destruct (Store.pg_text v) as [s|]; [|discriminate].
  apply String.eqb_eq in M. subst. reflexivity.
Qed.

(** What a document upsert that goes through leaves in the table. *)
Lemma upsert_document (now : string) (obj : row) (d d' : Database) (s : string) :
  Store.upsert doclayer_documents now obj "doclayer_job_id" d = inr d' ->
  assoc "status" obj = Some (JStr s) ->
  assoc "id" obj = None ->
  exists job k row,
    assoc "doclayer_job_id" obj = Some job
    /\ Store.pg_text job = Some k
    /\ document_rows k d' = [row]
    /\ Store.cell row "status" = JStr s
    /\ (forall k', k' <> k -> document_rows k' d' = document_rows k' d)
    /\ (Forall (shaped doclayer_documents) (documents d) ->
        forall v, assoc "error_message" obj = Some v ->
                  Store.cell row "error_message" = v)
    /\ ((document_rows k d = [] /\ documents d' = documents d ++ [row])
        \/ (exists r0, document_rows k d = [r0]
                       /\ Store.cell row "id" = Store.cell r0 "id"
                       /\ List.length (documents d') = List.length (documents d))).
Proof.
  intros U S I. apply upsert_inr in U. destruct U as [V U].
  pose proof (new_document_cells now (uuid_counter d) obj) as (Cj & Cs & Ce).
  destruct (document_status_not_null _ V) as [_ Nj].
  rewrite Cj in Nj. destruct (assoc "doclayer_job_id" obj) as [job|] eqn:J;
    [|congruence].
  destruct (pg_text_not_null job Nj) as [k K].
  exists job, k. rewrite Cj, K in U.
  destruct U as [(k0 & E0 & X & U) | (X & -> & D)].
  - (* a row holds the key: it is updated *)
    injection E0 as <-. apply update_inr in U. destruct U as (-> & Vs & D).
    unfold document_rows.
    change (documents (Store.with_rows doclayer_documents ?rs 0 d)) with rs.
    change (Store.rows doclayer_documents d) with (documents d) in *.
    set (f := fun r => if Store.matching "doclayer_job_id" k r
                       then Store.updated doclayer_documents now obj r else r) in *.
    assert (Fk : filter (Store.matching "doclayer_job_id" k) (map f (documents d))
                 = map f (filter (Store.matching "doclayer_job_id" k) (documents d))).
    { apply filter_map_stable. intro r. apply updated_document_matching with job; auto. }
    pose proof (keys_distinct_filter doclayer_documents "doclayer_job_id" k _ eq_refl D)
      as Le.
    rewrite Fk, length_map in Le.
    pose proof (existsb_true_filter _ _ X) as Ne.
    destruct (filter (Store.matching "doclayer_job_id" k) (documents d))
      as [|r0 [|r1 rest]] eqn:Fd; [congruence | | simpl in Le; lia].
    assert (M0 : Store.matching "doclayer_job_id" k r0 = true).
    { assert (In r0 (filter (Store.matching "doclayer_job_id" k) (documents d)))
        by (rewrite Fd; simpl; auto).
      apply filter_In in H. apply H. }
    assert (Er : f r0 = Store.updated doclayer_documents now obj r0)
      by (unfold f; rewrite M0; reflexivity).
    cbn [map] in Vs.
    exists (f r0). rewrite Fk. cbn [map]. rewrite Er.
    split; [reflexivity|]. split; [exact K|]. split; [reflexivity|].
    assert (Vr : Store.violation doclayer_documents
                   (Store.updated doclayer_documents now obj r0) = None)
      by (apply (first_violation_none _ _ _ Vs); simpl; auto).
    split; [|split; [|split]].
    + destruct (document_status_not_null _ Vr) as [Ns _].
      rewrite updated_document_cell in Ns |- * by discriminate.
      rewrite S in Ns |- *. destruct (assoc "status" r0); congruence.
    + intros k' N. apply filter_map_fixed.
      * intro r. apply updated_document_matching with job; auto.
      * intros r M'. unfold f.
        destruct (Store.matching "doclayer_job_id" k r) eqn:Mk; [|reflexivity].
        exfalso. apply N. unfold Store.matching in *.
        destruct (Store.pg_text (Store.cell r "doclayer_job_id")); [|discriminate].
        apply String.eqb_eq in M', Mk. congruence.
    + intros Sh v Ev. rewrite updated_document_cell by discriminate. rewrite Ev.
      assert (Ir : In r0 (documents d)).
      { assert (In r0 (filter (Store.matching "doclayer_job_id" k) (documents d)))
          by (rewrite Fd; simpl; auto).
        apply filter_In in H. apply H. }
      rewrite Forall_forall in Sh.
      destruct (shaped_has_column _ _ "error_message" (Sh _ Ir)) as [x ->];
        [simpl; auto 20 | reflexivity].
    + right. exists r0. split; [reflexivity|]. split; [|apply length_map].
      rewrite updated_document_cell by discriminate. rewrite I.
      unfold Store.cell. destruct (assoc "id" r0); reflexivity.
  - (* no row holds the key: the proposed row is added *)
    specialize (X k eq_refl).
    change (Store.rows doclayer_documents d) with (documents d) in *.
    unfold document_rows.
    change (documents (Store.with_rows doclayer_documents ?rs 1 d)) with rs.
    set (row := Store.new_row doclayer_documents now (uuid_counter d) obj) in *.
    assert (Mr : Store.matching "doclayer_job_id" k row = true).
    { unfold Store.matching. rewrite Cj, K. apply String.eqb_refl. }
    exists row. rewrite filter_app. cbn [filter]. rewrite Mr.
    rewrite (existsb_false_filter _ _ X).
    split; [reflexivity|]. split; [exact K|]. split; [reflexivity|].
    split; [|split; [|split]].
    + rewrite Cs, S. reflexivity.
    + intros k' N. rewrite filter_app. cbn [filter].
      destruct (Store.matching "doclayer_job_id" k' row) eqn:M'; [|apply app_nil_r].
      exfalso. apply N. unfold Store.matching in M'. rewrite Cj, K in M'.
      apply String.eqb_eq in M'. congruence.
    + intros _ v Ev. rewrite Ce, Ev. reflexivity.
    + left. split; reflexivity.
Qed.

(** ** The entity tables after a request *)

Lemma audited_frame (env : Env) (req : Request) (payload : json) (d : Database)
      (t : Table) :
  t <> doclayer_webhook_events ->
  Store.rows t (db (audited env req payload d)) = Store.rows t d.
Proof.
  intro N. destruct (audited_cases env req payload d) as [(e & ->) | ->];
    cbn [db]; [reflexivity | apply rows_with_rows_other, N].
Qed.

Lemma marked_frame (env : Env) (req : Request) (w : World) (t : Table) :
  t <> doclayer_webhook_events ->
  Store.rows t (db (marked env req w)) = Store.rows t (db w).
Proof.
  intro N. destruct (marked_cases env req w) as [(e & ->) | ->];
    cbn [db]; [reflexivity | apply rows_with_rows_other, N].
Qed.

(** Either the request never reached the router and the store is as it
    was, or the entity tables are those the router left. *)
Lemma served_routed (env : Env) (req : Request) (d d' : Database)
      (response : Response) (tr : list Event) :
  served env req d response d' tr ->
  (d' = d /\ status response <> 200)
  \/ exists payload r w w',
       JSON.parse (body req) = Some payload
       /\ dispatched env (effective_event_type req payload) payload w r w'
       /\ (forall t, t <> doclayer_webhook_events ->
                     Store.rows t (db w) = Store.rows t d
                     /\ Store.rows t d' = Store.rows t (db w'))
       /\ (status response = 200 <-> r = Ok tt).
Proof.
  intros [P | secret P S V | P G J | P G J X
          | payload e w' P G J T D | payload w' P G J T D];
    try (left; split; [reflexivity | discriminate]); right.
  - exists payload, (Throw e), (audited env req payload d), w'.
    repeat split; try assumption; try discriminate.
    apply audited_frame; assumption.
  - exists payload, (Ok tt), (audited env req payload d), w'.
    repeat split; try assumption.
    + apply audited_frame; assumption.
    + apply marked_frame; assumption.
Qed.

Lemma document_route_not_secondary (r : Route) (s : string) :
  document_status r = Some s -> secondary_call r = None /\ r <> test_ping.
Proof. destruct r; simpl; intro E; try discriminate; split; congruence. Qed.

(** What the router does to the Document Jobs. *)
Lemma dispatched_documents (env : Env) (eventType : value) (payload : json)
      (w w' : World) (r : Result unit) :
  dispatched env eventType payload w r w' ->
  (documents (db w') = documents (db w)
   /\ (r = Ok tt -> forall x s, route_of eventType = Some x ->
                                document_status x = Some s -> False))
  \/ exists x s obj d1,
       route_of eventType = Some x
       /\ document_status x = Some s
       /\ document_object payload s obj
       /\ Store.upsert doclayer_documents (now env) obj "doclayer_job_id" (db w)
          = inr d1
       /\ documents (db w') = documents d1
       /\ r = Ok tt.
Proof.
  intros [R | R | x R U | x s obj e msg R S O A | x s obj d' msg w2 R S O A En
          | x t op stmt e failure msg R S St A | x t op stmt d' msg R S St A].
  - left. split; [reflexivity|]. intros _ x s R'. congruence.
  - left. split; [reflexivity|]. intros _ x s R' S.
    rewrite R in R'. injection R' as <-. discriminate.
  - left. split; [reflexivity | discriminate].
  - left. split; [reflexivity | discriminate].
  - right. exists x, s, obj, d'. apply answer_inr in A. destruct A as [_ A].
    split; [exact R|]. split; [exact S|]. split; [exact O|]. split; [exact A|].
    split; [|reflexivity].
    destruct En as [F _]. apply (F doclayer_documents). discriminate.
  - left. split; [reflexivity|]. intros _ y s R' S'.
    rewrite R in R'. injection R' as <-.
    apply document_route_not_secondary in S'. destruct S' as [S' _]. congruence.
  - left. apply answer_inr in A. destruct A as [_ A]. split.
    + apply (statement_frame _ _ _ _ _ _ St A doclayer_documents).
      apply secondary_not_audit in S. intro E. apply (proj2 S). congruence.
    + intros _ y s R' S'.
      rewrite R in R'. injection R' as <-.
      apply document_route_not_secondary in S'. destruct S' as [S' _]. congruence.
Qed.

(** The Document Jobs after a request: as they were, or as the upsert of a
    document event left them. *)
Lemma served_documents (env : Env) (req : Request) (d d' : Database)
      (response : Response) (tr : list Event) :
  served env req d response d' tr ->
  (documents d' = documents d
   /\ (status response = 200 ->
       forall payload x s, JSON.parse (body req) = Some payload ->
                           route_of (effective_event_type req payload) = Some x ->
                           document_status x = Some s -> False))
  \/ exists payload x s obj d0 d1,
       JSON.parse (body req) = Some payload
       /\ route_of (effective_event_type req payload) = Some x
       /\ document_status x = Some s
       /\ document_object payload s obj
       /\ documents d0 = documents d
       /\ Store.upsert doclayer_documents (now env) obj "doclayer_job_id" d0 = inr d1
       /\ documents d' = documents d1.
Proof.
  intro S. destruct (served_routed _ _ _ _ _ _ S)
    as [[-> N] | (payload & r & w & w' & J & D & F & Ok200)].
  - left. split; [reflexivity|]. intro; contradiction.
  - destruct (F doclayer_documents) as [F1 F2]; [discriminate|].
    cbn [Store.rows] in F1, F2.
    destruct (dispatched_documents _ _ _ _ _ _ D)
      as [[E N] | (x & s & obj & d1 & R & St & O & U & E & _)].
    + left. split; [congruence|]. intros H p x s J' R' S'.
      rewrite J in J'. injection J' as <-.
      apply (N (proj1 Ok200 H) x s R' S').
    + right. exists payload, x, s, obj, (db w), d1.
      split; [exact J|]. split; [exact R|]. split; [exact St|]. split; [exact O|].
      split; [exact F1|]. split; [exact U|]. congruence.
Qed.

(** An acknowledged document event leaves exactly one row for its job, in
    the status of the event, and leaves the rows of the other jobs. *)
Lemma document_event_outcome (env : Env) (req : Request) (d d' : Database)
      (response : Response) (tr : list Event) (payload : json) (x : Route)
      (s : string) :
  serve env req d = (response, d', tr) ->
  status response = 200 ->
  JSON.parse (body req) = Some payload ->
  route_of (effective_event_type req payload) = Some x ->
  document_status x = Some s ->
  exists k row,
    job_key req = Some k
    /\ document_rows k d' = [row]
    /\ Store.cell row "status" = JStr s
    /\ (forall k', k' <> k -> document_rows k' d' = document_rows k' d)
    /\ (Forall (shaped doclayer_documents) (documents d) ->
        s = "failed" ->
        forall v, field (field (Some payload) "data") "error" = Some v ->
                  Store.cell row "error_message" = v)
    /\ ((document_rows k d = []
         /\ List.length (documents d') = S (List.length (documents d)))
        \/ (exists r0, document_rows k d = [r0]
                       /\ Store.cell row "id" = Store.cell r0 "id"
                       /\ List.length (documents d') = List.length (documents d))).
Proof.
  intros E Ok200 J R St. apply serve_inv in E.
  destruct (served_documents _ _ _ _ _ _ E)
    as [[_ N] | (p & x' & s' & obj & d0 & d1 & J' & R' & St' & O & E0 & U & E1)].
  - exfalso. exact (N Ok200 payload x s J R St).
  - rewrite J in J'. injection J' as <-. rewrite R in R'. injection R' as <-.
    rewrite St in St'. injection St' as <-.
    destruct O as [Os Oj Oi Oe].
    destruct (upsert_document _ _ _ _ _ U Os Oi)
      as (job & k & row & Ej & K & Rows & Cs & Others & Err & Shape).
    exists k, row. unfold document_rows in *. rewrite E1, <- E0.
    split; [|split; [exact Rows|split; [exact Cs|split; [exact Others|split]]]].
    + unfold job_key. rewrite J, <- Oj, Ej. exact K.
    + intros Sh F v Ev. apply Err; [exact Sh|]. rewrite (Oe F). exact Ev.
    + destruct Shape as [[X ->] | (r0 & X & I & L)]; [left | right].
      * split; [exact X|]. rewrite length_app. simpl. lia.
      * exists r0. auto.
Qed.

(** C2. Two acknowledged deliveries of the same
    [document.processing.completed] request leave exactly one Document Job
    row for its job identifier, in status [completed]: the second delivery
    finds the row of the first, updates it in place (same primary key, same
    number of rows) and adds none. *)
Theorem completed_twice_one_row (env1 env2 : Env) (req : Request)
        (d0 d1 d2 : Database) (r1 r2 : Response) (t1 t2 : list Event) :
  routed_to req document_processing_completed ->
  serve env1 req d0 = (r1, d1, t1) -> status r1 = 200 ->
  serve env2 req d1 = (r2, d2, t2) -> status r2 = 200 ->
  exists k row1 row2,
    job_key req = Some k
    /\ document_rows k d1 = [row1]
    /\ document_rows k d2 = [row2]
    /\ Store.cell row1 "status" = JStr "completed"
    /\ Store.cell row2 "status" = JStr "completed"
    /\ Store.cell row2 "id" = Store.cell row1 "id"
    /\ List.length (documents d2) = List.length (documents d1).
Proof.
  intros (payload & J & R) E1 S1 E2 S2.
  destruct (document_event_outcome _ _ _ _ _ _ payload _ "completed" E1 S1 J R eq_refl)
    as (k & row1 & K & Rows1 & C1 & _).
  destruct (document_event_outcome _ _ _ _ _ _ payload _ "completed" E2 S2 J R eq_refl)
    as (k' & row2 & K' & Rows2 & C2 & _ & _ & Shape).
  rewrite K in K'. injection K' as <-.
  exists k, row1, row2. repeat split; try assumption.
  - destruct Shape as [[X _] | (r0 & X & I & _)]; [congruence|].
    rewrite Rows1 in X. injection X as <-. exact I.
  - destruct Shape as [[X _] | (r0 & X & _ & L)]; [congruence | exact L].
Qed.

Lemma serve_eta (env : Env) (req : Request) (d : Database) :
  serve env req d
  = (fst (fst (serve env req d)), snd (fst (serve env req d)), snd (serve env req d)).
Proof. destruct (serve env req d) as [[r d'] tr]. reflexivity. Qed.

Lemma completed_twice_one_row_witness :
  exists row1 row2,
    document_rows "job_1" after_completed = [row1]
    /\ document_rows "job_1" after_completed_twice = [row2]
    /\ Store.cell row2 "status" = JStr "completed"
    /\ List.length (documents after_completed_twice) = 1.
Proof.
  assert (Rt : routed_to completed_job_1 document_processing_completed).
  { eexists. split; vm_compute; reflexivity. }
  destruct (completed_twice_one_row env_open env_open completed_job_1
              Store.empty after_completed after_completed_twice _ _ _ _ Rt
              (serve_eta _ _ _) eq_refl (serve_eta _ _ _) eq_refl)
    as (k & row1 & row2 & K & R1 & R2 & _ & C2 & _ & L).
  assert (Ek : k = "job_1") by (vm_compute in K; congruence). subst k.
  exists row1, row2.
  split; [exact R1|]. split; [exact R2|]. split; [exact C2|].
  rewrite L. vm_compute. reflexivity.
Defined.

(** ** Status transitions of a Document Job *)

Lemma terminal_status_written (x : Route) (s : string) (row : row) :
  document_status x = Some s ->
  x <> document_processing_started ->
  Store.cell row "status" = JStr s ->
  terminal row.
Proof.
  intros S N C. unfold terminal. rewrite C.
  destruct x; simpl in S; try discriminate; try congruence;
    injection S as <-; simpl; auto.
Qed.

(** A request that is not a started event leaves terminal rows terminal. *)
Lemma terminal_kept (env : Env) (req : Request) (d d' : Database)
      (response : Response) (tr : list Event) (k : string) :
  serve env req d = (response, d', tr) ->
  ~ routed_to req document_processing_started ->
  Forall terminal (document_rows k d) ->
  Forall terminal (document_rows k d').
Proof.
  intros E N T. apply serve_inv in E.
  destruct (served_documents _ _ _ _ _ _ E)
    as [[Ed _] | (p & x & s & obj & d0 & d1 & J & R & St & O & E0 & U & E1)].
  - unfold document_rows in *. rewrite Ed. exact T.
  - destruct O as [Os Oj Oi Oe].
    destruct (upsert_document _ _ _ _ _ U Os Oi)
      as (job & k0 & row & _ & _ & Rows & Cs & Others & _).
    unfold document_rows in *. rewrite E1.
    destruct (String.eqb_spec k k0) as [->|Nk].
    + rewrite Rows. constructor; [|constructor].
      apply (terminal_status_written x s); try assumption.
      intros ->. apply N. exists p. auto.
    + rewrite (Others k Nk), E0. exact T.
Qed.

(** C4, as amended. Once the Document Job row of a job holds a terminal
    status, no sequence of later requests without a
    [document.processing.started] event sets it back to a status that is
    not terminal; and an acknowledged [document.processing.failed] event
    leaves the one row of its job in status [failed] with the
    [error_message] it carries, whatever the row held before. (A later
    started event does set the row back to [processing].) *)
Theorem terminal_status_kept_without_started :
  (forall (requests : list (Env * Request)) (d : Database) (k : string),
      Forall (fun er => ~ routed_to (snd er) document_processing_started) requests ->
      Forall terminal (document_rows k d) ->
      Forall terminal (document_rows k (serve_all requests d)))
  /\ (forall (env : Env) (req : Request) (d d' : Database) (response : Response)
             (tr : list Event) (payload : json),
         serve env req d = (response, d', tr) ->
         status response = 200 ->
         JSON.parse (body req) = Some payload ->
         route_of (effective_event_type req payload) = Some document_processing_failed ->
         Forall (shaped doclayer_documents) (documents d) ->
         exists k row,
           job_key req = Some k
           /\ document_rows k d' = [row]
           /\ Store.cell row "status" = JStr "failed"
           /\ forall v, field (field (Some payload) "data") "error" = Some v ->
                        Store.cell row "error_message" = v).
Proof.
  split.
  - intros requests. induction requests as [|[env req] rest IH]; intros d k N T;
      simpl; [exact T|].
    inversion N as [|? ? Nh Nt]; subst. apply IH; [exact Nt|].
    apply (terminal_kept env req d _ _ _ k (serve_eta env req d) Nh T).
  - intros env req d d' response tr payload E S J R Sh.
    destruct (document_event_outcome _ _ _ _ _ _ payload _ "failed" E S J R eq_refl)
      as (k & row & K & Rows & Cs & _ & Err & _).
    exists k, row. repeat split; try assumption.
    intros v Ev. apply Err; auto.
Qed.

Lemma terminal_status_kept_without_started_witness :
  Forall terminal
         (document_rows "job_1"
            (serve_all [(env_open, failed_job_1); (env_open, archived);
                        (env_open, batch_started_b1)] after_completed))
  /\ exists row,
       document_rows "job_1" (snd (fst (serve env_open failed_job_1 after_started)))
       = [row]
       /\ Store.cell row "status" = JStr "failed"
       /\ Store.cell row "error_message" = JStr "bad scan".
Proof.
  destruct terminal_status_kept_without_started as [Kept Failed]. split.
  - apply Kept.
    + repeat constructor; intros (p & J & R); vm_compute in J; injection J as <-;
        vm_compute in R; discriminate.
    + vm_compute. repeat constructor.
  - destruct (Failed env_open failed_job_1 after_started _ _ _
                (JObj [("event_type", JStr "document.processing.failed");
                       ("data", JObj [("job_id", JStr "job_1");
                                      ("error", JStr "bad scan");
                                      ("error_type", JStr "ocr")])])
                (serve_eta _ _ _))
      as (k & row & K & Rows & Cs & Ce).
    + vm_compute. reflexivity.
    + vm_compute. reflexivity.
    + vm_compute. reflexivity.
    + vm_compute. repeat constructor.
    + assert (Ek : k = "job_1") by (vm_compute in K; congruence). subst k.
      exists row. split; [exact Rows|]. split; [exact Cs|]. apply Ce. reflexivity.
Defined.

(** C4 as stated fails: a started event that arrives after the completed
    event of the same job sets the row back to [processing]. *)
Lemma started_after_completed_reverts :
  (exists row, document_rows "job_1" after_completed = [row]
               /\ Store.cell row "status" = JStr "completed")
  /\ (exists row, document_rows "job_1" after_completed_then_started = [row]
                  /\ Store.cell row "status" = JStr "processing")
  /\ status (fst (fst (serve env_open started_job_1 after_completed))) = 200.
Proof.
  split; [|split]; vm_compute.
  - eexists. split; reflexivity.
  - eexists. split; reflexivity.
  - reflexivity.
Qed.

(** ** Which events create entity rows *)

Lemma update_keeps_count (t : Table) (now : string) (obj : row) (c text : string)
      (d d' : Database) :
  Store.update t now obj c text d = inr d' ->
  length (Store.rows t d') = length (Store.rows t d).
Proof.
  intro E. apply update_inr in E. destruct E as (-> & _).
  rewrite rows_with_rows. apply length_map.
Qed.

Lemma dispatched_entity_rows (env : Env) (eventType : value) (payload : json)
      (w w' : World) (r : Result unit) (t : Table) :
  dispatched env eventType payload w r w' ->
  In t entity_tables ->
  length (Store.rows t (db w')) = length (Store.rows t (db w))
  \/ exists x, route_of eventType = Some x /\ entity_created_by x = Some t.
Proof.
  intros [R | R | x R U | x s obj e msg R S O A | x s obj d' msg w2 R S O A En
          | x t0 op stmt e failure msg R S St A | x t0 op stmt d' msg R S St A] T;
    try (left; reflexivity).
  - apply answer_inr in A. destruct A as [_ A]. destruct En as [F _].
    cbn [db] in F.
    destruct (Store.Table_eqb t doclayer_documents) eqn:Et.
    + right. exists x. split; [exact R|].
      destruct t; try discriminate Et.
      destruct x; simpl in S; try discriminate; reflexivity.
    + left. rewrite F.
      * rewrite (statement_frame _ _ _ _ _ _ (statement_upsert _ _ obj _) A);
          [reflexivity|]. intros ->. discriminate.
      * intros ->. simpl in T. intuition discriminate.
  - apply answer_inr in A. destruct A as [_ A]. cbn [db].
    destruct (Store.Table_eqb t t0) eqn:Et.
    + assert (t = t0) as -> by (destruct t, t0; try discriminate; reflexivity).
      destruct St as [o | o c | o c text].
      * exfalso. destruct x; simpl in S; try discriminate;
          injection S as <-; simpl in T; intuition discriminate.
      * right. exists x. split; [exact R|].
        destruct x; simpl in S; try discriminate; injection S as <-; reflexivity.
      * left. apply (update_keeps_count _ _ _ _ _ _ _ A).
    + left. rewrite (statement_frame _ _ _ _ _ _ St A); [reflexivity|].
      intros ->. destruct t0; discriminate.
Qed.

(** C3, as amended. A request adds a row to the documents, batches or
    workflows table only if its routing key is one whose handler upserts
    into that table: [batch.started] for batches, [workflow.started] for
    workflows, and any of the three [document.processing.*] keys for
    documents. Completed, failed and progress events of batches and
    workflows never create a row; completed and failed events of documents
    can. *)
Theorem entity_rows_created_by_upsert (env : Env) (req : Request) (d d' : Database)
        (response : Response) (tr : list Event) (t : Table) :
  serve env req d = (response, d', tr) ->
  In t entity_tables ->
  length (Store.rows t d) <> length (Store.rows t d') ->
  exists r, routed_to req r /\ entity_created_by r = Some t.
Proof.
  intros E T L. apply serve_inv in E.
  destruct (served_routed _ _ _ _ _ _ E)
    as [[-> _] | (payload & r & w & w' & J & D & F & _)]; [congruence|].
  destruct (F t) as [F1 F2].
  { intros ->. simpl in T. intuition discriminate. }
  destruct (dispatched_entity_rows _ _ _ _ _ _ t D T) as [Same | (x & R & C)].
  - exfalso. apply L. congruence.
  - exists x. split; [exists payload; auto | exact C].
Qed.

Lemma entity_rows_created_by_upsert_witness :
  exists r, routed_to failed_job_2 r
            /\ entity_created_by r = Some doclayer_documents.
Proof.
  apply (entity_rows_created_by_upsert env_open failed_job_2 after_completed
           _ _ _ doclayer_documents (serve_eta _ _ _)).
  - simpl. auto.
  - vm_compute. discriminate.
Defined.

(** C3 as stated fails for documents: a completed event for a job that
    has no row creates the row. *)
Lemma completed_event_creates_row :
  document_rows "job_1" Store.empty = []
  /\ status (fst (fst (serve env_open completed_job_1 Store.empty))) = 200
  /\ exists row, document_rows "job_1" after_completed = [row]
                 /\ Store.cell row "status" = JStr "completed".
Proof.
  split; [reflexivity|]. split; [vm_compute; reflexivity|].
  vm_compute. eexists. split; reflexivity.
Qed.

(** ** The form of an accepted signature *)

Lemma Ok_injective {A : Type} (a b : A) : Ok a = Ok b -> a = b.
Proof. intro H. injection H as H. exact H. Qed.

Lemma length_append (s t : string) :
  String.length (s ++ t) = String.length s + String.length t.
Proof. induction s; simpl; congruence. Qed.

Lemma prefix_split (p s : string) :
  String.prefix p s = true -> exists rest, s = (p ++ rest)%string.
Proof.
  revert s. induction p as [|c p IH]; intros s H.
  - exists s. reflexivity.
  - destruct s as [|c' s]; simpl in H; [discriminate|].
    destruct (ascii_dec c c') as [->|]; [|discriminate].
    destruct (IH s H) as [rest ->]. exists rest. reflexivity.
Qed.

(** X1. For a body and a secret that is not empty, [verifySignature] accepts
    one signature string only: [sha256=] followed by the lowercase hex
    digest of the HMAC. *)
Theorem verifySignature_accepts_one (body signature secret : string) :
  secret <> EmptyString ->
  verifySignature body signature secret = Ok true
  <-> signature = signature_for secret body.
Proof.
  intro N. split.
  - rewrite (verifySignature_decides _ _ _ N). intro H. apply Ok_injective in H.
    apply andb_true_iff in H. destruct H as [H E].
    apply andb_true_iff in H. destruct H as [_ P].
    destruct (prefix_split _ _ P) as [rest ->].
    rewrite prefixed_replace in E. apply String.eqb_eq in E.
    unfold signature_for. rewrite E. reflexivity.
  - intros ->. apply verifySignature_own_signature, N.
Qed.

Lemma verifySignature_accepts_one_witness :
  verifySignature "{}" "sha256=00" "s3cret" = Ok true
  <-> "sha256=00" = signature_for "s3cret" "{}".
Proof. apply (verifySignature_accepts_one "{}" "sha256=00" "s3cret"). discriminate. Defined.

Lemma byte_hex_lower (b : byte) :
  forallb is_lower_hex (list_ascii_of_string (byte_hex b)) = true.
Proof. destruct b; vm_compute; reflexivity. Qed.

Lemma list_ascii_app (s t : string) :
  list_ascii_of_string (s ++ t) = list_ascii_of_string s ++ list_ascii_of_string t.
Proof. induction s; simpl; congruence. Qed.

(** X2. The hex encoding of a buffer has two characters a byte, all of them
    among [0-9a-f], and can be read back; the signature of a body has 71
    characters. *)
Theorem hex_digest_shape (buffer : list byte) (secret body : string) :
  String.length (hex buffer) = 2 * List.length buffer
  /\ forallb is_lower_hex (list_ascii_of_string (hex buffer)) = true
  /\ unhex (hex buffer) = Some buffer
  /\ String.length (signature_for secret body) = 71.
Proof.
  assert (L : forall bs, String.length (hex bs) = 2 * List.length bs).
  { induction bs as [|b bs IH]; [reflexivity|].
    rewrite hex_cons, length_append, byte_hex_length, IH. simpl. lia. }
  split; [apply L|]. split; [|split].
  - induction buffer as [|b bs IH]; [reflexivity|].
    rewrite hex_cons, list_ascii_app, forallb_app, byte_hex_lower, IH. reflexivity.
  - induction buffer as [|b bs IH]; [reflexivity|].
    rewrite hex_cons. pose proof (byte_of_hex_byte_hex b) as B.
    pose proof (byte_hex_length b) as Lb.
    destruct (byte_hex b) as [|h [|l [|]]]; try discriminate Lb.
    cbn [String.append unhex]. rewrite B, IH. reflexivity.
  - unfold signature_for. rewrite length_append, L, sign_length. reflexivity.
Qed.

(** ** The handler, step by step *)

Lemma serve_settle (env : Env) (req : Request) (d : Database) :
  method req = "POST" ->
  serve env req d = settle (attempt env req (mkWorld d [])).
Proof.
  intro P. unfold serve, settle. rewrite P. cbn [String.eqb Ascii.eqb Bool.eqb negb].
  destruct (attempt env req (mkWorld d [])) as [[response|e] w]; reflexivity.
Qed.

Lemma attempt_open (env : Env) (req : Request) (w : World) :
  gate_open env req -> attempt env req w = process env req w.
Proof.
  intros [G | (secret & G & V)]; unfold attempt, signature_rejected, bind;
    rewrite G; [reflexivity|].
  unfold lift. rewrite V. reflexivity.
Qed.

Lemma process_run (env : Env) (req : Request) (d : Database) (payload : json) :
  JSON.parse (body req) = Some payload ->
  (payload = JNull -> nonempty (x_webhook_event req) <> None) ->
  process env req (mkWorld d [])
  = match dispatch env (effective_event_type req payload) payload
                   (audited env req payload d) with
    | (Ok _, w2) =>
        (Ok (mkResponse 200 (Success (effective_event_type req payload)
                                     (deliveryId_of req))),
         marked env req w2)
    | (Throw e, w2) => (Throw e, w2)
    end.
Proof.
  intros J T. unfold process. unfold bind at 1. rewrite J. cbn [ret].
  unfold bind at 1. rewrite eventType_of_run.
  assert (C : match payload with JNull => true | _ => false end
              && match nonempty (x_webhook_event req) with
                 | None => true
                 | Some _ => false
                 end = false).
  { destruct payload; try reflexivity.
    destruct (nonempty (x_webhook_event req)); [reflexivity|].
    exfalso. apply T; reflexivity. }
  rewrite C. unfold bind at 1. cbn [emit]. unfold bind at 1.
  change (mkWorld (db (mkWorld d []))
                  (trace (mkWorld d []) ++ [console_log "Processing webhook: "]))
    with (say (mkWorld d []) (console_log "Processing webhook: ")).
  unfold audited.
  destruct (call_returns env doclayer_webhook_events Insert
              (Store.insert doclayer_webhook_events (now env)
                 [Js.literal (audit_record (effective_event_type req payload)
                                           (deliveryId_of req) payload)])
              (say (mkWorld d []) (console_log "Processing webhook: ")))
    as [o I].
  unfold from_insert at 1. rewrite I. unfold from_insert.
  unfold bind at 1.
  destruct (dispatch env (effective_event_type req payload) payload _)
    as [[[]|e] w2]; [|reflexivity].
  unfold bind at 1. unfold marked.
  destruct (call_returns env doclayer_webhook_events Update
              (Store.update doclayer_webhook_events (now env)
                 (Js.literal (processed_mark env)) "event_id"
                 (Js.ToString (Some (JStr (deliveryId_of req))))) w2)
    as [o' U].
  unfold from_update_eq at 1. rewrite U. reflexivity.
Qed.

(** The whole of a request that reaches the router. *)
Lemma serve_run (env : Env) (req : Request) (d : Database) (payload : json) :
  method req = "POST" ->
  gate_open env req ->
  JSON.parse (body req) = Some payload ->
  (payload = JNull -> nonempty (x_webhook_event req) <> None) ->
  serve env req d
  = match dispatch env (effective_event_type req payload) payload
                   (audited env req payload d) with
    | (Ok _, w2) =>
        (mkResponse 200 (Success (effective_event_type req payload)
                                 (deliveryId_of req)),
         db (marked env req w2), trace (marked env req w2))
    | (Throw e, w2) =>
        (mkResponse 500 (InternalServerError e), db w2,
         trace w2 ++ [console_error "Webhook processing error:"])
    end.
Proof.
  intros P G J T.
  rewrite (serve_settle _ _ _ P), (attempt_open _ _ _ G), (process_run _ _ _ _ J T).
  destruct (dispatch env _ payload _) as [[[]|e] w2]; reflexivity.
Qed.

(** ** The answers of the handler *)

(** X3. Every request is answered 200, 401, 405 or 500: 405 exactly when the
    method is not POST, 401 only under a configured secret, and in both
    cases the store is left as it was and nothing is sent to it. *)
Theorem status_of_every_request (env : Env) (req : Request) (d : Database) :
  let '(response, d', tr) := serve env req d in
  In (status response) [200; 401; 405; 500]
  /\ (status response = 405 <-> method req <> "POST")
  /\ (status response = 401 ->
      exists secret, DOCLAYER_WEBHOOK_SECRET env = Some secret
                     /\ secret <> EmptyString)
  /\ (status response = 401 \/ status response = 405 ->
      d' = d /\ forall t op o, ~ In (db_call t op o) tr).
Proof.
  destruct (serve env req d) as [[response d'] tr] eqn:E. apply serve_inv in E.
  assert (Other : forall n : nat,
             n <> 401 -> n <> 405 -> method req = "POST" ->
             In n [200; 401; 405; 500] ->
             In n [200; 401; 405; 500]
             /\ (n = 405 <-> method req <> "POST")
             /\ (n = 401 ->
                 exists secret, DOCLAYER_WEBHOOK_SECRET env = Some secret
                                /\ secret <> EmptyString)
             /\ (n = 401 \/ n = 405 ->
                 d' = d /\ forall t op o, ~ In (db_call t op o) tr)).
  { intros n N1 N5 P I. split; [exact I|]. split; [split; intro; contradiction|].
    split; [intro; contradiction|]. intros [|]; contradiction. }
  destruct E as [P | secret P S V | P G J | P G J X
                 | payload e w' P G J T D | payload w' P G J T D];
    cbn [status];
    try (apply Other; [discriminate | discriminate | exact P | simpl; auto 6]).
  - split; [simpl; auto 6|]. split; [split; [intros _; exact P | reflexivity]|].
    split; [discriminate|].
    intros _. split; [reflexivity|]. intros t op o [].
  - split; [simpl; auto 6|]. split; [split; [discriminate | contradiction]|].
    split.
    + intros _. exists secret. apply nonempty_Some, S.
    + intros _. split; [reflexivity|]. intros t op o [I|[]]. discriminate.
Qed.

(** X4. A POST that passes the signature gate with a body that is not JSON is
    answered 500 with the [SyntaxError] of [JSON.parse]; no audit row is
    written and nothing is sent to the store. *)
Theorem malformed_body_rejected (env : Env) (req : Request) (d : Database) :
  method req = "POST" ->
  gate_open env req ->
  JSON.parse (body req) = None ->
  serve env req d
  = (mkResponse 500 (InternalServerError SyntaxError), d,
     [console_error "Webhook processing error:"]).
Proof.
  intros P G J. rewrite (serve_settle _ _ _ P), (attempt_open _ _ _ G).
  unfold process. unfold bind at 1. rewrite J. reflexivity.
Qed.

Lemma malformed_body_rejected_witness :
  serve env_open (post None None "{'event_type':") Store.empty
  = (mkResponse 500 (InternalServerError SyntaxError), Store.empty,
     [console_error "Webhook processing error:"]).
Proof.
  apply (malformed_body_rejected env_open (post None None "{'event_type':") Store.empty).
  - reflexivity.
  - left. reflexivity.
  - vm_compute. reflexivity.
Defined.

(** X5. Without a secret (the variable unset or empty) the signature header is
    not looked at: the request is served the same whatever it holds. *)
Theorem unsigned_mode_ignores_signature (env : Env) (req : Request) (d : Database)
        (sg : option string) :
  nonempty (DOCLAYER_WEBHOOK_SECRET env) = None ->
  serve env (with_signature req sg) d = serve env req d.
Proof.
  intro S. unfold serve. cbn [method with_signature].
  destruct (negb (String.eqb (method req) "POST")); [reflexivity|].
  unfold attempt, signature_rejected, bind. rewrite S. cbn [ret]. reflexivity.
Qed.

Lemma unsigned_mode_ignores_signature_witness :
  serve (mkEnv (Some EmptyString) None None noon store_up api_down)
        (with_signature archived (Some "sha256=00")) Store.empty
  = serve (mkEnv (Some EmptyString) None None noon store_up api_down)
          archived Store.empty.
Proof.
  apply (unsigned_mode_ignores_signature
           (mkEnv (Some EmptyString) None None noon store_up api_down)).
  reflexivity.
Defined.

Lemma process_without_secret (env : Env) (req : Request) (sg : option string)
      (w : World) :
  process env (with_signature req sg) w = process (without_secret env) req w.
Proof. reflexivity. Qed.

(** X6. Under a configured secret, a request that carries the signature of its
    body is served exactly as the same request is when no secret is
    configured. *)
Theorem signed_request_served_as_open (env : Env) (req : Request) (d : Database)
        (secret : string) :
  DOCLAYER_WEBHOOK_SECRET env = Some secret ->
  secret <> EmptyString ->
  serve env (signed secret req) d = serve (without_secret env) req d.
Proof.
  intros S N. unfold serve. cbn [method signed with_signature].
  destruct (negb (String.eqb (method req) "POST")); [reflexivity|].
  rewrite attempt_open.
  - rewrite (attempt_open (without_secret env)) by (left; reflexivity).
    unfold signed. rewrite process_without_secret. reflexivity.
  - right. exists secret. split; [apply nonempty_configured; assumption|].
    cbn [body x_webhook_signature signed with_signature].
    rewrite or_default_header. apply verifySignature_own_signature, N.
Qed.

Lemma signed_request_served_as_open_witness :
  serve env_secret (signed "s3cret" archived) Store.empty
  = serve (without_secret env_secret) archived Store.empty.
Proof.
  apply (signed_request_served_as_open env_secret archived Store.empty "s3cret").
  - reflexivity.
  - discriminate.
Defined.

(** ** Events the handlers have nothing to read from *)

Lemma with_data_unreadable (payload : json) (h : value -> json -> M unit) (w : World) :
  readable (field (Some payload) "data") = false ->
  (forall v, readable v = false -> h v payload w = (Throw TypeError, w)) ->
  with_data payload h w = (Throw TypeError, w).
Proof.
  intros U H. unfold with_data, bind.
  destruct payload as [| | | | |fields]; try (cbn [prop ret]; apply H; reflexivity).
  - reflexivity.
  - cbn [prop ret]. apply H. exact U.
Qed.

Ltac first_read_throws :=
  let v := fresh "v" in
  let U := fresh "U" in
  intros v U; destruct v as [[]|]; try discriminate U; reflexivity.

Lemma dispatch_unreadable (env : Env) (eventType : value) (payload : json)
      (w : World) (r : Route) :
  route_of eventType = Some r ->
  r <> test_ping ->
  readable (field (Some payload) "data") = false ->
  dispatch env eventType payload w = (Throw TypeError, w).
Proof.
  intros R N U. unfold dispatch. rewrite R.
  destruct r; try contradiction;
    apply with_data_unreadable; try exact U; first_read_throws.
Qed.

(** X7. An event routed to a handler whose payload has no [data] object is
    answered 500 with a [TypeError], for the batch, workflow and billing
    handlers as for the document handlers: the audit insert is all that
    was sent to the store, the tables of the entities are as they were and
    the audit row is not marked processed. *)
Theorem event_without_data_aborts (env : Env) (req : Request) (d : Database)
        (payload : json) (r : Route) :
  method req = "POST" ->
  gate_open env req ->
  JSON.parse (body req) = Some payload ->
  route_of (effective_event_type req payload) = Some r ->
  r <> test_ping ->
  readable (field (Some payload) "data") = false ->
  let '(response, d', tr) := serve env req d in
  response = mkResponse 500 (InternalServerError TypeError)
  /\ (forall t, t <> doclayer_webhook_events -> Store.rows t d' = Store.rows t d)
  /\ (exists o, tr = [console_log "Processing webhook: ";
                      db_call doclayer_webhook_events Insert o;
                      console_error "Webhook processing error:"]).
Proof.
  intros P G J R N U.
  assert (T : payload = JNull -> nonempty (x_webhook_event req) <> None).
  { intros -> X. unfold effective_event_type in R. rewrite X in R. discriminate. }
  rewrite (serve_run _ _ _ _ P G J T), (dispatch_unreadable _ _ _ _ _ R N U).
  split; [reflexivity|]. split.
  - intros t Nt. apply audited_frame, Nt.
  - destruct (audited_trace env req payload d) as [o ->]. exists o. reflexivity.
Qed.

Lemma event_without_data_aborts_witness :
  let '(response, d', tr) := serve env_open started_without_data Store.empty in
  response = mkResponse 500 (InternalServerError TypeError)
  /\ (forall t, t <> doclayer_webhook_events ->
                Store.rows t d' = Store.rows t Store.empty)
  /\ (exists o, tr = [console_log "Processing webhook: ";
                      db_call doclayer_webhook_events Insert o;
                      console_error "Webhook processing error:"]).
Proof.
  apply (event_without_data_aborts env_open started_without_data Store.empty
           (JObj [("event_type", JStr "batch.started")]) batch_started).
  - reflexivity.
  - left. reflexivity.
  - vm_compute. reflexivity.
  - reflexivity.
  - discriminate.
  - reflexivity.
Defined.

(** X8. A [test.ping] is acknowledged with 200 whatever its payload holds,
    [null] included when the event header names it: the payload is not
    read, and no table but the audit log is touched. *)
Theorem test_ping_acknowledged (env : Env) (req : Request) (d : Database)
        (payload : json) :
  method req = "POST" ->
  gate_open env req ->
  JSON.parse (body req) = Some payload ->
  route_of (effective_event_type req payload) = Some test_ping ->
  let '(response, d', tr) := serve env req d in
  response = mkResponse 200 (Success (Some (JStr "test.ping")) (deliveryId_of req))
  /\ In (console_log "Received test ping from Doclayer") tr
  /\ (forall t, t <> doclayer_webhook_events -> Store.rows t d' = Store.rows t d)
  /\ (forall t op o, In (db_call t op o) tr -> t = doclayer_webhook_events).
Proof.
  intros P G J R.
  assert (T : payload = JNull -> nonempty (x_webhook_event req) <> None).
  { intros -> X. unfold effective_event_type in R. rewrite X in R. discriminate. }
  assert (Et : effective_event_type req payload = Some (JStr "test.ping")).
  { destruct (effective_event_type req payload) as [[| | | s | |]|];
      try discriminate R. cbn [route_of] in R. unfold routing_keys in R.
    repeat match type of R with
           | assoc _ (_ :: _) = _ => cbn [assoc fst snd] in R
           | (if String.eqb ?a ?b then _ else _) = _ =>
               destruct (String.eqb_spec a b);
               [first [discriminate R | congruence]|]
           end.
    cbn [assoc] in R. discriminate. }
  rewrite (serve_run _ _ _ _ P G J T). unfold dispatch. rewrite R. cbn [emit].
  rewrite Et. split; [reflexivity|].
  destruct (audited_trace env req payload d) as [o Ea].
  destruct (marked_trace env req
              (mkWorld (db (audited env req payload d))
                       (trace (audited env req payload d)
                        ++ [console_log "Received test ping from Doclayer"])))
    as [o' Em].
  rewrite Em. cbn [trace]. rewrite Ea. split; [simpl; auto 6|]. split.
  - intros t Nt. rewrite marked_frame by exact Nt. cbn [db].
    apply audited_frame, Nt.
  - intros t op o1 I. simpl in I.
    destruct I as [I|[I|[I|[I|[]]]]]; try discriminate; congruence.
Qed.

Lemma test_ping_acknowledged_witness :
  let '(response, d', tr) := serve env_open ping_null Store.empty in
  response = mkResponse 200 (Success (Some (JStr "test.ping")) "unknown")
  /\ In (console_log "Received test ping from Doclayer") tr
  /\ (forall t, t <> doclayer_webhook_events ->
                Store.rows t d' = Store.rows t Store.empty)
  /\ (forall t op o, In (db_call t op o) tr -> t = doclayer_webhook_events).
Proof.
  apply (test_ping_acknowledged env_open ping_null Store.empty JNull).
  - reflexivity.
  - left. reflexivity.
  - vm_compute. reflexivity.
  - reflexivity.
Defined.

(** ** Events without an event type *)

Lemma audit_insert_refused (now : string) (eventType : value) (deliveryId : string)
      (payload : json) (d : Database) :
  eventType = None \/ eventType = Some JNull ->
  Store.insert doclayer_webhook_events now
    [Js.literal (audit_record eventType deliveryId payload)] d
  = inl NotNullViolation.
Proof.
  intros [->| ->]; reflexivity.
Qed.

(** X9. A body that parses to [null], without event header: reading
    [payload.event_type] throws, the answer is 500 and nothing is sent to
    the store. *)
Theorem null_payload_without_header (env : Env) (req : Request) (d : Database) :
  method req = "POST" ->
  gate_open env req ->
  JSON.parse (body req) = Some JNull ->
  nonempty (x_webhook_event req) = None ->
  serve env req d
  = (mkResponse 500 (InternalServerError TypeError), d,
     [console_error "Webhook processing error:"]).
Proof.
  intros P G J X. rewrite (serve_settle _ _ _ P), (attempt_open _ _ _ G).
  unfold process. unfold bind at 1. rewrite J. cbn [ret].
  unfold bind at 1. rewrite eventType_of_run, X. reflexivity.
Qed.

Lemma null_payload_without_header_witness :
  serve env_open (post None None "null") Store.empty
  = (mkResponse 500 (InternalServerError TypeError), Store.empty,
     [console_error "Webhook processing error:"]).
Proof.
  apply (null_payload_without_header env_open (post None None "null") Store.empty).
  - reflexivity.
  - left. reflexivity.
  - vm_compute. reflexivity.
  - reflexivity.
Defined.

(** X10. An event that names no event type (no header, and a payload whose
    [event_type] is absent or [null]) is acknowledged with 200 as an
    unhandled event, but leaves no audit row: the insert violates NOT NULL
    on [event_type] and its error is not looked at. No table gains a row
    and the entity tables are as they were. *)
Theorem event_without_type_leaves_no_trace (env : Env) (req : Request) (d : Database)
        (payload : json) :
  method req = "POST" ->
  gate_open env req ->
  JSON.parse (body req) = Some payload ->
  payload <> JNull ->
  effective_event_type req payload = None
  \/ effective_event_type req payload = Some JNull ->
  let '(response, d', tr) := serve env req d in
  status response = 200
  /\ (exists e o, tr = [console_log "Processing webhook: ";
                        db_call doclayer_webhook_events Insert (Some e);
                        console_log "Unhandled event type: ";
                        db_call doclayer_webhook_events Update o])
  /\ (forall t, t <> doclayer_webhook_events -> Store.rows t d' = Store.rows t d)
  /\ List.length (webhook_events d') = List.length (webhook_events d).
Proof.
  intros P G J N Et.
  assert (T : payload = JNull -> nonempty (x_webhook_event req) <> None)
    by (intro; contradiction).
  assert (R : route_of (effective_event_type req payload) = None)
    by (destruct Et as [-> | ->]; reflexivity).
  rewrite (serve_run _ _ _ _ P G J T). unfold dispatch. rewrite R. cbn [emit].
  assert (A : exists e, audited env req payload d
                        = mkWorld d [console_log "Processing webhook: ";
                                     db_call doclayer_webhook_events Insert (Some e)]).
  { unfold audited, from_insert, call, answer.
    rewrite (audit_insert_refused _ _ _ _ _ Et).
    destruct (unavailable env _ _); eexists; reflexivity. }
  destruct A as [e ->]. cbn [db trace List.app].
  split; [reflexivity|].
  match goal with
  | |- context [marked env req ?w] =>
      destruct (marked_cases env req w) as [(e' & ->) | ->]
  end; cbn [db trace List.app].
  - split; [eauto|]. split; [reflexivity|]. reflexivity.
  - split; [eauto|]. split.
    + intros t Nt. apply rows_with_rows_other, Nt.
    + cbn [webhook_events Store.with_rows]. apply length_map.
Qed.

Lemma event_without_type_leaves_no_trace_witness :
  let '(response, d', tr) := serve env_open untyped Store.empty in
  status response = 200
  /\ (exists e o, tr = [console_log "Processing webhook: ";
                        db_call doclayer_webhook_events Insert (Some e);
                        console_log "Unhandled event type: ";
                        db_call doclayer_webhook_events Update o])
  /\ (forall t, t <> doclayer_webhook_events ->
                Store.rows t d' = Store.rows t Store.empty)
  /\ List.length (webhook_events d') = List.length (webhook_events Store.empty).
Proof.
  apply (event_without_type_leaves_no_trace env_open untyped Store.empty
           (JObj [("data", JObj [("job_id", JStr "job_1")])])).
  - reflexivity.
  - left. reflexivity.
  - vm_compute. reflexivity.
  - discriminate.
  - left. reflexivity.
Defined.

(** ** The order of the statements *)

(** X11. The audit insert is the first statement of every request that reaches
    the store and the update that marks the webhook is the last; that
    update is sent when the request succeeds and only then, and nothing in
    between addresses the audit log. *)
Theorem statements_in_order (env : Env) (req : Request) (d : Database) :
  let '(response, d', tr) := serve env req d in
  (status response = 200 ->
   exists o mid o',
     tr = [console_log "Processing webhook: "; db_call doclayer_webhook_events Insert o]
          ++ mid ++ [db_call doclayer_webhook_events Update o']
     /\ Forall handler_event mid)
  /\ (status response = 500 ->
      tr = [console_error "Webhook processing error:"]
      \/ exists o mid,
           tr = [console_log "Processing webhook: ";
                 db_call doclayer_webhook_events Insert o]
                ++ mid ++ [console_error "Webhook processing error:"]
           /\ Forall handler_event mid)
  /\ (status response <> 200 -> status response <> 500 ->
      forall t op o, ~ In (db_call t op o) tr).
Proof.
  destruct (serve env req d) as [[response d'] tr] eqn:E. apply serve_inv in E.
  destruct E as [P | secret P S V | P G J | P G J X
                 | payload e w' P G J T D | payload w' P G J T D];
    cbn [status].
  - split; [discriminate|]. split; [discriminate|]. intros _ _ t op o [].
  - split; [discriminate|]. split; [discriminate|].
    intros _ _ t op o [I|[]]. discriminate.
  - split; [discriminate|]. split; [auto | congruence].
  - split; [discriminate|]. split; [auto | congruence].
  - split; [discriminate|]. split; [|congruence]. intros _. right.
    destruct (dispatched_frame _ _ _ _ _ _ D) as (_ & mid & -> & H).
    destruct (audited_trace env req payload d) as [o ->].
    exists o, mid. rewrite <- List.app_assoc. auto.
  - split; [|split; [discriminate | congruence]]. intros _.
    destruct (dispatched_frame _ _ _ _ _ _ D) as (_ & mid & Em & H).
    destruct (marked_trace env req w') as [o' ->]. rewrite Em.
    destruct (audited_trace env req payload d) as [o ->].
    exists o, mid, o'. rewrite <- List.app_assoc. auto.
Qed.

(** ** What a run can do to the store and show of itself *)

Section Progress.

Variable now : string.

Lemma reaches_trans (allowed : list (Table * DbOp)) (d1 d2 d3 : Database) :
  reaches now allowed d1 d2 -> reaches now allowed d2 d3 -> reaches now allowed d1 d3.
Proof.
  induction 1 as [|d d1 d2 t op stmt I W E _ IH]; intro H; [exact H|].
  eapply reaches_step; eauto.
Qed.

Lemma reaches_one (allowed : list (Table * DbOp)) (d d' : Database) (t : Table)
      (op : DbOp) (stmt : Database -> PostgrestError + Database) :
  In (t, op) allowed -> write now t op stmt -> stmt d = inr d' ->
  reaches now allowed d d'.
Proof. intros I W E. eapply reaches_step; eauto. apply reaches_refl. Qed.

Lemma reaches_weaken (allowed allowed' : list (Table * DbOp)) (d d' : Database) :
  incl allowed allowed' -> reaches now allowed d d' -> reaches now allowed' d d'.
Proof.
  intros I. induction 1 as [|d d1 d2 t op stmt A W E _ IH]; [apply reaches_refl|].
  eapply reaches_step; eauto.
Qed.

Lemma expected_weaken (allowed allowed' : list (Table * DbOp))
      (fetches fetches' : string -> Prop) (e : Event) :
  incl allowed allowed' -> (forall u, fetches u -> fetches' u) ->
  expected allowed fetches e -> expected allowed' fetches' e.
Proof. intros I F. destruct e; simpl; auto. Qed.

Lemma progress_refl (allowed : list (Table * DbOp)) (fetches : string -> Prop)
      (w : World) : progress now allowed fetches w w.
Proof.
  split; [apply reaches_refl|]. exists []. rewrite app_nil_r. auto.
Qed.

Lemma progress_trans (allowed : list (Table * DbOp)) (fetches : string -> Prop)
      (w1 w2 w3 : World) :
  progress now allowed fetches w1 w2 -> progress now allowed fetches w2 w3 ->
  progress now allowed fetches w1 w3.
Proof.
  intros [R1 (t1 & E1 & F1)] [R2 (t2 & E2 & F2)]. split.
  - eapply reaches_trans; eassumption.
  - exists (t1 ++ t2). rewrite E2, E1, List.app_assoc. split; [reflexivity|].
    apply Forall_app; auto.
Qed.

Lemma progress_weaken (allowed allowed' : list (Table * DbOp))
      (fetches fetches' : string -> Prop) (w w' : World) :
  incl allowed allowed' -> (forall u, fetches u -> fetches' u) ->
  progress now allowed fetches w w' -> progress now allowed' fetches' w w'.
Proof.
  intros I F [R (tr & E & H)]. split; [eapply reaches_weaken; eassumption|].
  exists tr. split; [exact E|].
  eapply Forall_impl; [|exact H]. intro e. apply expected_weaken; assumption.
Qed.

Variable allowed : list (Table * DbOp).
Variable fetches : string -> Prop.

Local Abbreviation steady c := (progressing now allowed fetches c).

Lemma progressing_ret {A : Type} (a : A) : steady (ret a).
Proof. intro w. apply progress_refl. Qed.

Lemma progressing_throw {A : Type} (e : exn) : steady (@throw A e).
Proof. intro w. apply progress_refl. Qed.

Lemma progressing_lift {A : Type} (r : Result A) : steady (lift r).
Proof. intro w. apply progress_refl. Qed.

Lemma progressing_bind {A B : Type} (c : M A) (k : A -> M B) :
  steady c -> (forall a, steady (k a)) -> steady (bind c k).
Proof.
  intros Hc Hk w. unfold bind. specialize (Hc w).
  destruct (c w) as [[a|e] w1]; cbn [snd] in *; [|assumption].
  eapply progress_trans; [eassumption | apply Hk].
Qed.

Lemma progressing_try_catch {A : Type} (c : M A) (h : exn -> M A) :
  steady c -> (forall e, steady (h e)) -> steady (try_catch c h).
Proof.
  intros Hc Hh w. unfold try_catch. specialize (Hc w).
  destruct (c w) as [[a|e] w1]; cbn [snd] in *; [assumption|].
  eapply progress_trans; [eassumption | apply Hh].
Qed.

Lemma progressing_emit (e : Event) : expected allowed fetches e -> steady (emit e).
Proof.
  intros H w. split; [apply reaches_refl|]. exists [e]. auto.
Qed.

Lemma progressing_prop (v : value) (k : string) : steady (prop v k).
Proof. intro w. destruct v as [[]|]; apply progress_refl. Qed.

Lemma progressing_mapM {A B : Type} (f : A -> M B) (l : list A) :
  (forall a, steady (f a)) -> steady (mapM f l).
Proof.
  intro H. induction l as [|a l IH]; simpl.
  - apply progressing_ret.
  - apply progressing_bind; [apply H|]. intro b.
    apply progressing_bind; [apply IH|]. intro bs. apply progressing_ret.
Qed.

End Progress.

Section Runs.

Variable env : Env.

Lemma progressing_call (allowed : list (Table * DbOp)) (fetches : string -> Prop)
      (t : Table) (op : DbOp) (stmt : Database -> PostgrestError + Database) :
  In (t, op) allowed -> write (now env) t op stmt ->
  progressing (now env) allowed fetches (call env t op stmt).
Proof.
  intros I W w. unfold call.
  destruct (answer env t op stmt (db w)) as [e|d'] eqn:A; cbn [snd].
  - split; [apply reaches_refl|]. eexists. split; [reflexivity|].
    constructor; [exact I | constructor].
  - apply answer_inr in A. destruct A as [_ A]. split.
    + apply (reaches_one _ _ _ _ t op stmt I W A).
    + eexists. split; [reflexivity|]. constructor; [exact I | constructor].
Qed.

Lemma progressing_from_insert (allowed : list (Table * DbOp)) (fetches : string -> Prop)
      (t : Table) (obj : list (string * value)) :
  In (t, Insert) allowed ->
  progressing (now env) allowed fetches (from_insert env t obj).
Proof. intro I. apply progressing_call; [exact I | constructor]. Qed.

Lemma progressing_from_insert_all (allowed : list (Table * DbOp))
      (fetches : string -> Prop) (t : Table) (objs : list (list (string * value))) :
  In (t, Insert) allowed ->
  progressing (now env) allowed fetches (from_insert_all env t objs).
Proof. intro I. apply progressing_call; [exact I | constructor]. Qed.

Lemma progressing_from_upsert (allowed : list (Table * DbOp)) (fetches : string -> Prop)
      (t : Table) (obj : list (string * value)) (c : string) :
  In (t, Upsert) allowed ->
  progressing (now env) allowed fetches (from_upsert env t obj c).
Proof. intro I. apply progressing_call; [exact I | constructor]. Qed.

Lemma progressing_from_update_eq (allowed : list (Table * DbOp))
      (fetches : string -> Prop) (t : Table) (obj : list (string * value))
      (c : string) (v : value) :
  In (t, Update) allowed ->
  progressing (now env) allowed fetches (from_update_eq env t obj c v).
Proof. intro I. apply progressing_call; [exact I | constructor]. Qed.

Lemma progressing_from_select_single (allowed : list (Table * DbOp))
      (fetches : string -> Prop) (t : Table) (c : string) (v : value) :
  In (t, Select) allowed ->
  progressing (now env) allowed fetches (from_select_single env t c v).
Proof.
  intros I w. unfold from_select_single.
  destruct (if unavailable env t Select then _ else _); cbn [snd];
    (split; [apply reaches_refl|]); eexists; (split; [reflexivity|]);
    (constructor; [exact I | constructor]).
Qed.

Lemma progressing_weaken (allowed allowed' : list (Table * DbOp))
      (fetches fetches' : string -> Prop) {A : Type} (c : M A) :
  incl allowed allowed' -> (forall u, fetches u -> fetches' u) ->
  progressing (now env) allowed fetches c -> progressing (now env) allowed' fetches' c.
Proof. intros I F H w. eapply progress_weaken; [exact I | exact F | apply H]. Qed.

End Runs.

Ltac membership := simpl; auto 8; fail.

Ltac progressing_step :=
  first
    [ apply progressing_ret
    | apply progressing_throw
    | apply progressing_prop
    | apply progressing_emit; membership
    | apply progressing_from_upsert; membership
    | apply progressing_from_update_eq; membership
    | apply progressing_from_insert; membership
    | apply progressing_from_insert_all; membership
    | apply progressing_from_select_single; membership
    | apply progressing_bind; [|intro]
    | match goal with
      | |- progressing _ _ _ (logged ?x _) => destruct x; unfold logged
      | |- progressing _ _ _ (match ?x with _ => _ end) => destruct x
      | |- progressing _ _ _ (if ?x then _ else _) => destruct x
      end ].

Lemma progressing_extraction_of (now : string) (allowed : list (Table * DbOp))
      (fetches : string -> Prop) (record : row) (ext : json) :
  progressing now allowed fetches (extraction_of record ext).
Proof. unfold extraction_of. repeat progressing_step. Qed.

Lemma fetchAndStoreExtractions_progressing (env : Env) (jobId documentId : value)
      (apiKey : string) :
  progressing (now env)
    [(doclayer_documents, Select); (doclayer_extractions, Insert)]
    (fun u => u = extractions_url env documentId)
    (fetchAndStoreExtractions env jobId documentId apiKey).
Proof.
  unfold fetchAndStoreExtractions. fold (extractions_url env documentId).
  apply progressing_try_catch; [|intro; repeat progressing_step].
  apply progressing_bind; [apply progressing_emit; reflexivity | intros _].
  destruct (fetch env _) as [|code text]; [apply progressing_throw|].
  repeat first [ apply progressing_mapM; intro; apply progressing_extraction_of
               | progressing_step ].
Qed.

(** ** Reading the fields of an event *)

Lemma prop_readable (v : value) (k : string) :
  readable v = true -> prop v k = ret (field v k).
Proof. destruct v as [[]|]; try discriminate; reflexivity. Qed.

Lemma prop_unreadable (v : value) (k : string) :
  readable v = false -> prop v k = throw TypeError.
Proof. destruct v as [[]|]; try discriminate; reflexivity. Qed.

Lemma bind_ret {A B : Type} (a : A) (k : A -> M B) : bind (ret a) k = k a.
Proof. reflexivity. Qed.

Lemma bind_throw {A B : Type} (e : exn) (k : A -> M B) : bind (throw e) k = throw e.
Proof. reflexivity. Qed.

Lemma with_data_run (payload : json) (h : value -> json -> M unit) :
  payload <> JNull ->
  with_data payload h = h (field (Some payload) "data") payload.
Proof. intro N. destruct payload; try contradiction; reflexivity. Qed.

Ltac read_fields Hr :=
  rewrite ?(prop_readable _ _ Hr); repeat (rewrite bind_ret; cbv beta).

Lemma handleProcessingCompleted_progressing (env : Env) (eventType : value)
      (payload : json) :
  route_of eventType = Some document_processing_completed ->
  progressing (now env) (writes_of (route_of eventType))
    (fetches_of env eventType payload)
    (with_data payload (handleProcessingCompleted env)).
Proof.
  intro R. rewrite R. cbn [writes_of].
  destruct payload as [| | | | |fields];
    try (unfold with_data, handleProcessingCompleted; repeat progressing_step; fail).
  rewrite with_data_run by discriminate.
  destruct (readable (field (Some (JObj fields)) "data")) eqn:Hr.
  2:{ unfold handleProcessingCompleted. rewrite (prop_unreadable _ _ Hr), bind_throw.
      apply progressing_throw. }
  unfold handleProcessingCompleted. read_fields Hr.
  apply progressing_bind; [progressing_step | intros [e|]];
    [repeat progressing_step|].
  apply progressing_bind; [progressing_step | intros _].
  destruct (nonempty (DOCLAYER_API_KEY env)) as [apiKey|] eqn:K; [|progressing_step].
  destruct (Js.truthy _); [|progressing_step].
  eapply progressing_weaken; [| |apply fetchAndStoreExtractions_progressing].
  - intros x I. simpl in I |- *. tauto.
  - intros u ->. split; [exact R|]. split; [congruence | reflexivity].
Qed.

Lemma dispatch_progressing (env : Env) (eventType : value) (payload : json) :
  progressing (now env) (writes_of (route_of eventType))
    (fetches_of env eventType payload) (dispatch env eventType payload).
Proof.
  unfold dispatch. destruct (route_of eventType) as [[]|] eqn:R;
    try (rewrite <- R; apply handleProcessingCompleted_progressing, R);
    cbn [writes_of]; unfold with_data;
    try unfold handleProcessingStarted; try unfold handleProcessingFailed;
    try unfold handleBatchStarted; try unfold handleBatchProgress;
    try unfold handleBatchCompleted; try unfold handleBatchFailed;
    try unfold handleBillingCreditsLow; try unfold handleBillingCreditsExhausted;
    try unfold handleBillingUsageReport; try unfold handleWorkflowStarted;
    try unfold handleWorkflowCompleted; try unfold handleWorkflowFailed;
    repeat progressing_step.
Qed.

(** ** A request as a whole *)

Lemma surjective_pairing_world (w : World) : mkWorld (db w) (trace w) = w.
Proof. destruct w; reflexivity. Qed.

Lemma audited_progress (env : Env) (req : Request) (payload : json) (d : Database)
      (allowed : list (Table * DbOp)) (fetches : string -> Prop) :
  progress (now env) (audit_writes ++ allowed) fetches (mkWorld d [])
           (audited env req payload d).
Proof.
  unfold audited. eapply progress_trans.
  - apply (progressing_emit (now env) _ fetches (console_log "Processing webhook: ") I
             (mkWorld d [])).
  - apply (progressing_from_insert env); simpl; auto.
Qed.

Lemma marked_progress (env : Env) (req : Request) (w : World)
      (allowed : list (Table * DbOp)) (fetches : string -> Prop) :
  progress (now env) (audit_writes ++ allowed) fetches w (marked env req w).
Proof. unfold marked. apply (progressing_from_update_eq env); simpl; auto. Qed.

Lemma progress_say (now : string) (allowed : list (Table * DbOp))
      (fetches : string -> Prop) (w w' : World) (e : Event) :
  progress now allowed fetches w w' -> expected allowed fetches e ->
  progress now allowed fetches w (mkWorld (db w') (trace w' ++ [e])).
Proof.
  intros H E. eapply progress_trans; [exact H|].
  apply (progressing_emit now allowed fetches e E w').
Qed.

(** Either a request is turned away before the router, or it is one of
    those [serve_run] describes. *)
Lemma serve_cases (env : Env) (req : Request) (d d' : Database)
      (response : Response) (tr : list Event) :
  serve env req d = (response, d', tr) ->
  (d' = d /\ status response <> 200
   /\ (tr = [] \/ exists msg, tr = [console_error msg]))
  \/ exists payload,
       method req = "POST" /\ gate_open env req
       /\ JSON.parse (body req) = Some payload
       /\ (payload = JNull -> nonempty (x_webhook_event req) <> None).
Proof.
  intro E. apply serve_inv in E.
  destruct E as [P | secret P S V | P G J | P G J X
                 | payload e w' P G J T _ | payload w' P G J T _];
    try (left; split; [reflexivity|]; split; [discriminate|]; eauto; fail);
    right; exists payload; auto.
Qed.

(** What a request does: the store it leaves is reached by successful
    statements among those of the request, and its trace shows nothing
    else than console lines, such statements and the API requests of the
    event. *)
Lemma serve_progress (env : Env) (req : Request) (d d' : Database)
      (response : Response) (tr : list Event) :
  serve env req d = (response, d', tr) ->
  reaches (now env) (statements_of req) d d'
  /\ Forall (expected (statements_of req) (fetches_of_request env req)) tr.
Proof.
  intro E.
  destruct (serve_cases _ _ _ _ _ _ E)
    as [(-> & _ & [-> | (msg & ->)]) | (payload & P & G & J & T)];
    try (split; [apply reaches_refl | repeat constructor]).
  rewrite (serve_run _ _ _ _ P G J T) in E.
  assert (Pr : progress (now env) (statements_of req) (fetches_of_request env req)
                        (mkWorld d []) (mkWorld d' tr)).
  { pose proof (dispatch_progressing env (effective_event_type req payload) payload
                  (audited env req payload d)) as D.
    apply (progress_weaken _ _ (statements_of req) _ (fetches_of_request env req)) in D.
    - destruct (dispatch env _ payload _) as [[[]|x] w2]; cbn [snd] in D;
        injection E as _ <- <-.
      + eapply progress_trans; [apply audited_progress|].
        eapply progress_trans; [exact D|].
        rewrite surjective_pairing_world. apply marked_progress.
      + apply progress_say; [|exact I].
        eapply progress_trans; [apply audited_progress | exact D].
    - unfold statements_of, route_of_request. rewrite J.
      apply incl_appr, incl_refl.
    - intros u F. exists payload. auto. }
  destruct Pr as [R (t & Et & F)]. cbn [db trace] in *. subst. auto.
Qed.

(** ** The constraints of the migrations are kept *)

Lemma Table_eqb_spec (a b : Table) : reflect (a = b) (Store.Table_eqb a b).
Proof. destruct a, b; constructor; congruence. Qed.













(** ** What a request addresses, and what it never does *)

Lemma in_statements_of (req : Request) (t : Table) (op : DbOp) :
  In (t, op) (statements_of req) ->
  (t = doclayer_webhook_events /\ (op = Insert \/ op = Update))
  \/ In (t, op) (writes_of (route_of_request req)).
Proof.
  unfold statements_of. intro I. apply in_app_or in I. destruct I as [I|I]; [|auto].
  left. simpl in I. destruct I as [I|[I|[]]]; injection I as <- <-; auto.
Qed.

(** X13. Every statement of a request is one of its route, or the insert or the
    update on the audit log: an event of one kind never addresses the
    tables of another, and only a [document.processing.completed] event
    reads [doclayer_documents] or writes [doclayer_extractions]. *)
Theorem statements_of_the_route (env : Env) (req : Request) (d : Database)
        (t : Table) (op : DbOp) (o : option PostgrestError) :
  In (db_call t op o) (snd (serve env req d)) ->
  (t = doclayer_webhook_events /\ (op = Insert \/ op = Update))
  \/ In (t, op) (writes_of (route_of_request req)).
Proof.
  intro I. destruct (serve_progress _ _ _ _ _ _ (serve_eta env req d)) as [_ F].
  rewrite Forall_forall in F. apply in_statements_of. apply (F _ I).
Qed.

Lemma statements_of_the_route_witness :
  (doclayer_batches = doclayer_webhook_events /\ (Upsert = Insert \/ Upsert = Update))
  \/ In (doclayer_batches, Upsert) (writes_of (route_of_request batch_started_b1)).
Proof.
  apply (statements_of_the_route env_open batch_started_b1 Store.empty
           doclayer_batches Upsert None).
  vm_compute. auto 6.
Defined.

Lemma write_grows (now : string) (t : Table) (op : DbOp)
      (stmt : Database -> PostgrestError + Database) (d d' : Database) (t' : Table) :
  write now t op stmt -> stmt d = inr d' ->
  (t' <> t -> Store.rows t' d' = Store.rows t' d)
  /\ (op = Insert -> exists news, Store.rows t d' = Store.rows t d ++ news)
  /\ List.length (Store.rows t' d) <= List.length (Store.rows t' d').
Proof.
  intros W E.
  assert (U : forall obj c text d1,
             Store.update t now obj c text d = inr d1 ->
             (t' <> t -> Store.rows t' d1 = Store.rows t' d)
             /\ List.length (Store.rows t' d) <= List.length (Store.rows t' d1)).
  { intros obj c text d1 E1. apply update_inr in E1. destruct E1 as (-> & _).
    split; [apply rows_with_rows_other|].
    destruct (Table_eqb_spec t' t) as [->|N].
    - rewrite rows_with_rows, length_map. lia.
    - rewrite (rows_with_rows_other _ _ _ _ _ N). lia. }
  assert (A : forall news fresh,
             (t' <> t ->
              Store.rows t' (Store.with_rows t (Store.rows t d ++ news) fresh d)
              = Store.rows t' d)
             /\ List.length (Store.rows t' d)
                <= List.length (Store.rows t'
                                  (Store.with_rows t (Store.rows t d ++ news) fresh d))).
  { intros news fresh. split; [apply rows_with_rows_other|].
    destruct (Table_eqb_spec t' t) as [->|N].
    - rewrite rows_with_rows, length_app. lia.
    - rewrite (rows_with_rows_other _ _ _ _ _ N). lia. }
  destruct W as [t objs | t obj c | t obj c text].
  - apply insert_inr in E. destruct E as (news & _ & -> & _).
    destruct (A news (List.length objs)) as [A1 A2].
    split; [exact A1|]. split; [|exact A2].
    intros _. exists news. apply rows_with_rows.
  - apply upsert_inr in E. destruct E as (_ & [(k & _ & _ & E) | (_ & -> & _)]).
    + destruct (U _ _ _ _ E) as [U1 U2]. split; [exact U1|].
      split; [discriminate | exact U2].
    + destruct (A [Store.new_row t now (uuid_counter d) obj] 1) as [A1 A2].
      split; [exact A1|]. split; [discriminate | exact A2].
  - destruct (U _ _ _ _ E) as [U1 U2]. split; [exact U1|].
    split; [discriminate | exact U2].
Qed.

Lemma append_only_statement (req : Request) (t : Table) (op : DbOp) :
  In t append_only -> In (t, op) (statements_of req) -> op = Insert \/ op = Select.
Proof.
  intros A I. apply in_statements_of in I. destruct I as [[-> _] | I].
  - simpl in A. intuition discriminate.
  - destruct (route_of_request req) as [[]|]; simpl in I, A;
      intuition (try discriminate; try congruence).
Qed.

(** X14. No request removes a row from any table, and the tables of
    extractions, billing alerts and usage reports are only added to: the
    rows they held are still there, unchanged and in their order. *)
Theorem rows_never_removed (env : Env) (req : Request) (d : Database) :
  let '(response, d', tr) := serve env req d in
  (forall t, List.length (Store.rows t d) <= List.length (Store.rows t d'))
  /\ (forall t, In t append_only ->
                exists news, Store.rows t d' = Store.rows t d ++ news).
Proof.
  destruct (serve env req d) as [[response d'] tr] eqn:E.
  destruct (serve_progress _ _ _ _ _ _ E) as [R _]. clear E.
  induction R as [d|d d1 d2 t0 op stmt I W E _ IH].
  - split; [auto|]. intros t _. exists []. rewrite app_nil_r. reflexivity.
  - destruct IH as [L A]. split.
    + intro t. destruct (write_grows _ _ _ _ _ _ t W E) as (_ & _ & G).
      specialize (L t). lia.
    + intros t At. destruct (A t At) as [news2 ->].
      destruct (write_grows _ _ _ _ _ _ t W E) as (F & N & _).
      destruct (Table_eqb_spec t t0) as [->|Nt].
      * destruct (append_only_statement _ _ _ At I) as [-> | ->];
          [|inversion W].
        destruct N as [news1 ->]; [reflexivity|].
        exists (news1 ++ news2). symmetry. apply List.app_assoc.
      * rewrite (F Nt). exists news2. reflexivity.
Qed.

(** ** Calls to the Doclayer API *)




(** ** [fetchAndStoreExtractions], case by case *)

Lemma extraction_of_run (record : row) (ext : json) (w : World) :
  ext <> JNull ->
  exists obj,
    extraction_of record ext w = (Ok obj, w)
    /\ assoc "document_id" obj = Some (Some (Store.cell record "id")).
Proof.
  intro N. destruct ext; try contradiction; eexists; split; reflexivity.
Qed.

Lemma mapM_extraction_of (record : row) (items : list json) (w : World) :
  Forall (fun ext => ext <> JNull) items ->
  exists objs,
    mapM (extraction_of record) items w = (Ok objs, w)
    /\ List.length objs = List.length items
    /\ Forall (fun obj => assoc "document_id" obj = Some (Some (Store.cell record "id")))
              objs.
Proof.
  induction 1 as [|ext items N _ IH].
  - exists []. repeat split. constructor.
  - destruct IH as (objs & E & L & F).
    destruct (extraction_of_run record ext w N) as (obj & Eo & D).
    exists (obj :: objs). cbn [mapM]. unfold bind. rewrite Eo, E.
    split; [reflexivity|]. split; [simpl; congruence|]. constructor; assumption.
Qed.

Lemma mapM_extraction_of_null (record : row) (items : list json) (w : World) :
  In JNull items -> mapM (extraction_of record) items w = (Throw TypeError, w).
Proof.
  induction items as [|ext items IH]; intros I; [destruct I|].
  cbn [mapM]. unfold bind.
  destruct ext; try reflexivity;
    (destruct I as [I|I]; [discriminate|]);
    match goal with
    | |- context [extraction_of record ?e w] =>
        destruct (extraction_of_run record e w) as (obj & -> & _); [discriminate|]
    end; rewrite (IH I); reflexivity.
Qed.

Lemma in_2xx (code : nat) :
  200 <= code <= 299 -> negb ((200 <=? code) && (code <=? 299))%nat = false.
Proof.
  intros [L U]. apply Nat.leb_le in L, U. rewrite L, U. reflexivity.
Qed.

Ltac fetch_prefix :=
  cbv [fetchAndStoreExtractions try_catch]; cbv beta zeta;
  match goal with
  | |- context [(?base ++ "/api/v4/documents/" ++ Js.ToString ?id ++ "/extractions")%string] =>
      change (base ++ "/api/v4/documents/" ++ Js.ToString id ++ "/extractions")%string
        with (extractions_url _ id)
  end.

Lemma fetch_start (env : Env) (jobId documentId : value) (apiKey : string)
      (w : World) :
  fetchAndStoreExtractions env jobId documentId apiKey w
  = let url := extractions_url env documentId in
    let w0 := say w (http_get url) in
    match
      match fetch env url with
      | NetworkFailure => (Throw TypeError, w0)
      | Responded code text =>
          if negb ((200 <=? code) && (code <=? 299))%nat
          then (Ok tt, say w0 (console_error "Failed to fetch extractions: "))
          else
            match JSON.parse text with
            | None => (Throw SyntaxError, w0)
            | Some extractionsData =>
                (docRecord <- from_select_single env doclayer_documents
                                "doclayer_job_id" jobId ;;
                 match docRecord with
                 | None =>
                     emit (console_error "Document record not found for extractions")
                 | Some record =>
                     listed <- prop (Some extractionsData) "extractions" ;;
                     items <-
                       (if Js.truthy listed then
                          match listed with
                          | Some (JArr items) => ret items
                          | _ => throw TypeError
                          end
                        else ret []) ;;
                     extractions <- mapM (extraction_of record) items ;;
                     if (0 <? List.length extractions)%nat then
                       error <- from_insert_all env doclayer_extractions extractions ;;
                       match error with
                       | Some _ => emit (console_error "Failed to insert extractions:")
                       | None => emit (console_log "Stored ")
                       end
                     else ret tt
                 end) w0
            end
      end
    with
    | (Ok a, w') => (Ok a, w')
    | (Throw _, w') => (Ok tt, say w' (console_error "Error fetching extractions:"))
    end.
Proof.
  unfold fetchAndStoreExtractions, try_catch, extractions_url. cbv zeta.
  unfold bind at 1. cbn [emit]. unfold say.
  destruct (fetch env _) as [|code text]; [reflexivity|].
  destruct (negb _); [reflexivity|].
  unfold bind at 1. destruct (JSON.parse text); reflexivity.
Qed.

Lemma select_found (env : Env) (jobId : value) (w : World) (record : row) :
  linked_record env jobId (db w) record ->
  from_select_single env doclayer_documents "doclayer_job_id" jobId w
  = (Ok (Some record), say w (db_call doclayer_documents Select None)).
Proof.
  intros [U S]. unfold from_select_single. rewrite U, S. reflexivity.
Qed.

Lemma select_not_found (env : Env) (jobId : value) (w : World) :
  (forall record, ~ linked_record env jobId (db w) record) ->
  exists e,
    from_select_single env doclayer_documents "doclayer_job_id" jobId w
    = (Ok None, say w (db_call doclayer_documents Select (Some e))).
Proof.
  intro N. unfold from_select_single.
  destruct (unavailable env doclayer_documents Select) eqn:U; [eexists; reflexivity|].
  destruct (Store.select_single _ _ _ (db w)) as [e|record] eqn:S;
    [eexists; reflexivity|].
  exfalso. apply (N record). split; assumption.
Qed.

Lemma fetched_start (env : Env) (jobId documentId : value) (apiKey : string)
      (w : World) (data : json) (record : row) :
  fetched env documentId data ->
  linked_record env jobId (db w) record ->
  fetchAndStoreExtractions env jobId documentId apiKey w
  = match
      (listed <- prop (Some data) "extractions" ;;
       items <-
         (if Js.truthy listed then
            match listed with
            | Some (JArr items) => ret items
            | _ => throw TypeError
            end
          else ret []) ;;
       extractions <- mapM (extraction_of record) items ;;
       if (0 <? List.length extractions)%nat then
         error <- from_insert_all env doclayer_extractions extractions ;;
         match error with
         | Some _ => emit (console_error "Failed to insert extractions:")
         | None => emit (console_log "Stored ")
         end
       else ret tt)
        (mkWorld (db w)
                 (trace w ++ [http_get (extractions_url env documentId);
                              db_call doclayer_documents Select None]))
    with
    | (Ok a, w') => (Ok a, w')
    | (Throw _, w') => (Ok tt, say w' (console_error "Error fetching extractions:"))
    end.
Proof.
  intros (code & text & F & C & J) L. rewrite fetch_start. cbv zeta.
  rewrite F, (in_2xx _ C), J. unfold bind at 1.
  rewrite (select_found env jobId (say w (http_get (extractions_url env documentId)))
             record L).
  unfold say. cbn [db trace]. rewrite <- List.app_assoc. reflexivity.
Qed.

(** X16. When the API cannot be reached, answers outside 2xx or with a body
    that is not JSON, or when the Document Job row of the job is not found
    (none, several, or the query fails), [fetchAndStoreExtractions] logs
    one error and returns: nothing is thrown, the store is as it was and no
    insert is sent. *)
Theorem failed_fetch_stores_nothing (env : Env) (jobId documentId : value)
        (apiKey : string) (w : World) :
  fetch env (extractions_url env documentId) = NetworkFailure
  \/ (exists code text,
         fetch env (extractions_url env documentId) = Responded code text
         /\ (code < 200 \/ 299 < code \/ JSON.parse text = None))
  \/ ((exists data, fetched env documentId data)
      /\ forall record, ~ linked_record env jobId (db w) record) ->
  exists tr msg,
    fetchAndStoreExtractions env jobId documentId apiKey w
    = (Ok tt,
       mkWorld (db w)
               (trace w ++ http_get (extractions_url env documentId)
                           :: tr ++ [console_error msg]))
    /\ (tr = [] \/ exists e, tr = [db_call doclayer_documents Select (Some e)]).
Proof.
  intro H. rewrite fetch_start. cbv zeta.
  destruct H as [F | [(code & text & F & C) | ((data & code & text & F & C & J) & N)]];
    rewrite F.
  - exists [], "Error fetching extractions:". unfold say. cbn [db trace].
    rewrite <- List.app_assoc. auto.
  - destruct (negb ((200 <=? code) && (code <=? 299))%nat) eqn:X.
    + exists [], "Failed to fetch extractions: ". unfold say. cbn [db trace].
      rewrite <- List.app_assoc. auto.
    + apply negb_false_iff, andb_true_iff in X. destruct X as [X1 X2].
      apply Nat.leb_le in X1, X2.
      destruct C as [C | [C | C]]; try lia. rewrite C.
      exists [], "Error fetching extractions:". unfold say. cbn [db trace].
      rewrite <- List.app_assoc. auto.
  - rewrite (in_2xx _ C), J. unfold bind at 1.
    destruct (select_not_found env jobId
                (say w (http_get (extractions_url env documentId)))) as [e ->];
      [exact N|].
    exists [db_call doclayer_documents Select (Some e)],
           "Document record not found for extractions".
    unfold say. cbn [emit db trace]. rewrite <- !List.app_assoc. eauto.
Qed.

Lemma failed_fetch_stores_nothing_witness :
  exists tr msg,
    fetchAndStoreExtractions env_open (Some (JStr "job_1")) (Some (JStr "doc_1"))
                             "key" world_after_completed
    = (Ok tt,
       mkWorld after_completed
               ([] ++ http_get "https://api.doclayer.ai/api/v4/documents/doc_1/extractions"
                   :: tr ++ [console_error msg]))
    /\ (tr = [] \/ exists e, tr = [db_call doclayer_documents Select (Some e)]).
Proof.
  apply (failed_fetch_stores_nothing env_open (Some (JStr "job_1"))
           (Some (JStr "doc_1")) "key" world_after_completed).
  left. reflexivity.
Defined.

Lemma listed_items {C : Type} (data : json) (items : list json)
      (g : list json -> M C) (w : World) :
  field (Some data) "extractions" = Some (JArr items) ->
  (listed <- prop (Some data) "extractions" ;;
   items <-
     (if Js.truthy listed then
        match listed with
        | Some (JArr items) => ret items
        | _ => throw TypeError
        end
      else ret []) ;;
   g items) w
  = g items w.
Proof.
  intro F. destruct data; try discriminate F. cbn [field] in F.
  unfold bind. cbn [prop ret]. rewrite F. reflexivity.
Qed.

Lemma bind_run {A B : Type} (c : M A) (k : A -> M B) (w : World) :
  bind c k w
  = match c w with
    | (Ok a, w') => k a w'
    | (Throw e, w') => (Throw e, w')
    end.
Proof. reflexivity. Qed.

Lemma new_extraction_document (now : string) (id : nat) (obj : row) (v : json) :
  assoc "document_id" obj = Some v ->
  Store.cell (Store.new_row doclayer_extractions now id obj) "document_id" = v.
Proof. intro H. unfold Store.cell. cbn. rewrite H. reflexivity. Qed.

Lemma assoc_sent (k : string) (obj : list (string * value)) (v : json) :
  assoc k obj = Some (Some v) ->
  assoc k (map (fun kv => (fst kv, match snd kv with Some x => x | None => JNull end))
               obj)
  = Some v.
Proof.
  induction obj as [|[k' x] obj IH]; simpl; [discriminate|].
  destruct (String.eqb k k'); [|exact IH]. intro E. injection E as ->. reflexivity.
Qed.

(** X17. With a 2xx JSON answer that lists extractions, none of them [null],
    and the Document Job row of the job found, one insert carries them
    all: either it is refused and nothing is stored, or the table gains one
    row for each extraction listed, every one of them holding the primary
    key of that Document Job row as [document_id]. *)
Theorem stored_extractions_linked (env : Env) (jobId documentId : value)
        (apiKey : string) (w : World) (data : json) (record : row)
        (items : list json) :
  fetched env documentId data ->
  linked_record env jobId (db w) record ->
  field (Some data) "extractions" = Some (JArr items) ->
  items <> [] ->
  Forall (fun ext => ext <> JNull) items ->
  let w' := snd (fetchAndStoreExtractions env jobId documentId apiKey w) in
  let seen := [http_get (extractions_url env documentId);
               db_call doclayer_documents Select None] in
  (exists e,
      db w' = db w
      /\ trace w' = trace w ++ seen
                    ++ [db_call doclayer_extractions Insert (Some e);
                        console_error "Failed to insert extractions:"])
  \/ (exists news,
         extractions (db w') = extractions (db w) ++ news
         /\ List.length news = List.length items
         /\ Forall (fun r => Store.cell r "document_id" = Store.cell record "id") news
         /\ (forall t, t <> doclayer_extractions ->
                       Store.rows t (db w') = Store.rows t (db w))
         /\ trace w' = trace w ++ seen
                       ++ [db_call doclayer_extractions Insert None;
                           console_log "Stored "]).
Proof.
  intros F L Li Ne Nn. cbv zeta.
  rewrite (fetched_start _ _ _ _ _ _ _ F L).
  rewrite (listed_items _ _ _ _ Li).
  destruct (mapM_extraction_of record items
              (mkWorld (db w)
                 (trace w ++ [http_get (extractions_url env documentId);
                              db_call doclayer_documents Select None])) Nn)
    as (objs & Em & Len & Doc).
  rewrite bind_run, Em.
  assert (P : (0 <? List.length objs)%nat = true).
  { apply Nat.ltb_lt. rewrite Len. destruct items; [contradiction | simpl; lia]. }
  rewrite P, bind_run. unfold from_insert_all, call.
  destruct (answer env _ _ _ _) as [e|d'] eqn:A; cbn [emit snd db trace].
  - left. exists e. split; [reflexivity|]. rewrite <- !List.app_assoc. reflexivity.
  - right. apply answer_inr in A. destruct A as [_ A].
    unfold Store.insert in A. destruct (negb _); [discriminate|].
    apply commit_inr in A. destruct A as (-> & _ & _).
    eexists. split; [reflexivity|]. split; [|split; [|split]].
    + rewrite length_map, length_combine, length_seq, !length_map, Nat.min_id.
      exact Len.
    + apply Forall_map, Forall_forall. intros [i obj] I.
      apply in_combine_r in I. apply in_map_iff in I.
      destruct I as (obj0 & <- & I). cbn [snd fst].
      apply new_extraction_document, assoc_sent.
      rewrite Forall_forall in Doc. apply Doc, I.
    + intros t Nt. apply rows_with_rows_other, Nt.
    + rewrite <- !List.app_assoc. reflexivity.
Qed.

Lemma stored_extractions_linked_witness :
  exists (record : row) (items : list json),
    let w' := snd (fetchAndStoreExtractions env_api (Some (JStr "job_1"))
                     (Some (JStr "doc_1")) "key" world_after_completed) in
    let seen := [http_get (extractions_url env_api (Some (JStr "doc_1")));
                 db_call doclayer_documents Select None] in
    (exists e,
        db w' = db world_after_completed
        /\ trace w' = trace world_after_completed ++ seen
                      ++ [db_call doclayer_extractions Insert (Some e);
                          console_error "Failed to insert extractions:"])
    \/ (exists news,
           extractions (db w') = extractions (db world_after_completed) ++ news
           /\ List.length news = List.length items
           /\ Forall (fun r => Store.cell r "document_id" = Store.cell record "id") news
           /\ (forall t, t <> doclayer_extractions ->
                         Store.rows t (db w') = Store.rows t (db world_after_completed))
           /\ trace w' = trace world_after_completed ++ seen
                         ++ [db_call doclayer_extractions Insert None;
                             console_log "Stored "]).
Proof.
  eexists. eexists.
  eapply (stored_extractions_linked env_api (Some (JStr "job_1")) (Some (JStr "doc_1"))
            "key" world_after_completed).
  - eexists. eexists. split; [reflexivity|]. split; [lia|]. vm_compute. reflexivity.
  - split; [reflexivity|]. vm_compute. reflexivity.
  - reflexivity.
  - discriminate.
  - repeat constructor; discriminate.
Defined.

(** X18. One [null] among the extractions listed makes the whole call give up:
    the error is caught and logged, no insert is sent and none of the
    other extractions is stored. *)
Theorem null_extraction_stores_none (env : Env) (jobId documentId : value)
        (apiKey : string) (w : World) (data : json) (record : row)
        (items : list json) :
  fetched env documentId data ->
  linked_record env jobId (db w) record ->
  field (Some data) "extractions" = Some (JArr items) ->
  In JNull items ->
  fetchAndStoreExtractions env jobId documentId apiKey w
  = (Ok tt,
     mkWorld (db w)
             (trace w ++ [http_get (extractions_url env documentId);
                          db_call doclayer_documents Select None;
                          console_error "Error fetching extractions:"])).
Proof.
  intros F L Li I. rewrite (fetched_start _ _ _ _ _ _ _ F L).
  rewrite (listed_items _ _ _ _ Li), bind_run, (mapM_extraction_of_null _ _ _ I).
  unfold say. cbn [db trace]. rewrite <- List.app_assoc. reflexivity.
Qed.

Lemma null_extraction_stores_none_witness :
  fetchAndStoreExtractions
    (env_api_with "{'extractions':[{'type':'field','value':1},null]}")
    (Some (JStr "job_1")) (Some (JStr "doc_1")) "key" world_after_completed
  = (Ok tt,
     mkWorld after_completed
             ([] ++ [http_get "https://api.doclayer.ai/api/v4/documents/doc_1/extractions";
                     db_call doclayer_documents Select None;
                     console_error "Error fetching extractions:"])).
Proof.
  eapply (null_extraction_stores_none
            (env_api_with "{'extractions':[{'type':'field','value':1},null]}")
            (Some (JStr "job_1")) (Some (JStr "doc_1")) "key" world_after_completed).
  - eexists. eexists. split; [reflexivity|]. split; [lia|]. vm_compute. reflexivity.
  - split; [reflexivity|]. vm_compute. reflexivity.
  - reflexivity.
  - simpl. auto.
Defined.

(** X19. When the answer lists no extraction (the key is absent or falsy, or
    the array is empty), nothing is stored and nothing is logged: no
    insert is sent. *)
Theorem nothing_listed_nothing_stored (env : Env) (jobId documentId : value)
        (apiKey : string) (w : World) (data : json) (record : row) :
  fetched env documentId data ->
  linked_record env jobId (db w) record ->
  data <> JNull ->
  Js.truthy (field (Some data) "extractions") = false
  \/ field (Some data) "extractions" = Some (JArr []) ->
  fetchAndStoreExtractions env jobId documentId apiKey w
  = (Ok tt,
     mkWorld (db w)
             (trace w ++ [http_get (extractions_url env documentId);
                          db_call doclayer_documents Select None])).
Proof.
  intros F L N H. rewrite (fetched_start _ _ _ _ _ _ _ F L).
  destruct H as [H | H].
  - rewrite (prop_readable (Some data)) by (destruct data; try contradiction; reflexivity).
    rewrite bind_ret. cbv beta. rewrite H. rewrite bind_ret. reflexivity.
  - rewrite (listed_items _ _ _ _ H). reflexivity.
Qed.

Lemma nothing_listed_nothing_stored_witness :
  fetchAndStoreExtractions (env_api_with "{'count':0}")
    (Some (JStr "job_1")) (Some (JStr "doc_1")) "key" world_after_completed
  = (Ok tt,
     mkWorld after_completed
             ([] ++ [http_get "https://api.doclayer.ai/api/v4/documents/doc_1/extractions";
                     db_call doclayer_documents Select None])).
Proof.
  eapply (nothing_listed_nothing_stored (env_api_with "{'count':0}")
            (Some (JStr "job_1")) (Some (JStr "doc_1")) "key" world_after_completed).
  - eexists. eexists. split; [reflexivity|]. split; [lia|]. vm_compute. reflexivity.
  - split; [reflexivity|]. vm_compute. reflexivity.
  - discriminate.
  - left. reflexivity.
Defined.

Lemma reaches_extractions (now : string) (d d' : Database) :
  reaches now [(doclayer_documents, Select); (doclayer_extractions, Insert)] d d' ->
  (forall t, t <> doclayer_extractions -> Store.rows t d' = Store.rows t d)
  /\ exists news, extractions d' = extractions d ++ news.
Proof.
  induction 1 as [d|d d1 d2 t op stmt I W E _ [F (news2 & A)]].
  - split; [reflexivity|]. exists []. rewrite app_nil_r. reflexivity.
  - destruct I as [I|[I|[]]]; injection I as <- <-; [inversion W|].
    destruct (write_grows _ _ _ _ _ _ doclayer_extractions W E) as (_ & N & _).
    destruct N as [news1 N]; [reflexivity|]. cbn [Store.rows] in N. split.
    + intros t Nt. rewrite (F t Nt).
      destruct (write_grows _ _ _ _ _ _ t W E) as (G & _). apply G, Nt.
    + exists (news1 ++ news2). rewrite A, N. symmetry. apply List.app_assoc.
Qed.

(** X20. [fetchAndStoreExtractions] never throws, whatever the API answers and
    whatever the store does: it returns normally after one request to the
    extractions URL of the document (the default base URL when
    [DOCLAYER_API_URL] is unset or empty), leaves every table but
    [doclayer_extractions] as it was, and there only adds rows. *)
Theorem fetchAndStoreExtractions_never_throws (env : Env) (jobId documentId : value)
        (apiKey : string) (w : World) :
  exists w' tr,
    fetchAndStoreExtractions env jobId documentId apiKey w = (Ok tt, w')
    /\ trace w' = trace w ++ http_get (extractions_url env documentId) :: tr
    /\ (forall u, ~ In (http_get u) tr)
    /\ (forall t, t <> doclayer_extractions ->
                  Store.rows t (db w') = Store.rows t (db w))
    /\ exists news, extractions (db w') = extractions (db w) ++ news.
Proof.
  assert (Quiet : forall msg,
             exists w' tr,
               (Ok tt, say (say w (http_get (extractions_url env documentId)))
                           (console_error msg))
               = (Ok tt, w')
               /\ trace w' = trace w ++ http_get (extractions_url env documentId) :: tr
               /\ (forall u, ~ In (http_get u) tr)
               /\ (forall t, t <> doclayer_extractions ->
                             Store.rows t (db w') = Store.rows t (db w))
               /\ exists news, extractions (db w') = extractions (db w) ++ news).
  { intro msg. eexists. exists [console_error msg]. split; [reflexivity|].
    unfold say. cbn [db trace]. rewrite <- List.app_assoc.
    split; [reflexivity|]. split; [intros u [X|[]]; discriminate|].
    split; [reflexivity|]. exists []. rewrite app_nil_r. reflexivity. }
  rewrite fetch_start. cbv zeta.
  destruct (fetch env _) as [|code text]; [apply Quiet|].
  destruct (negb _); [apply Quiet|].
  destruct (JSON.parse text) as [data|]; [|apply Quiet].
  match goal with
  | |- context [bind ?c ?k (say w ?e)] =>
      assert (H : progressing (now env)
                    [(doclayer_documents, Select); (doclayer_extractions, Insert)]
                    (fun _ => False) (bind c k))
        by (repeat first [ apply progressing_mapM; intro; apply progressing_extraction_of
                         | progressing_step ]);
      specialize (H (say w e)); destruct (bind c k (say w e)) as [r w1]
  end.
  cbn [snd] in H. destruct H as [R (tr & Et & F)].
  apply reaches_extractions in R. destruct R as [Fr A]. cbn [say db] in Fr, A.
  assert (Nh : forall u, ~ In (http_get u) tr).
  { intros u I. rewrite Forall_forall in F. exact (F _ I). }
  cbn [say trace] in Et. rewrite <- List.app_assoc in Et. cbn [List.app] in Et.
  destruct r as [[]|e].
  - exists w1, tr. auto.
  - eexists. exists (tr ++ [console_error "Error fetching extractions:"]).
    split; [reflexivity|]. unfold say. cbn [db trace]. rewrite Et.
    split; [rewrite <- List.app_assoc; reflexivity|].
    split; [|auto].
    intros u I. apply in_app_or in I. destruct I as [I|[I|[]]];
      [exact (Nh u I) | discriminate].
Qed.

(** ** Document events without a job identifier *)

Lemma upsert_needs_job_id (now : string) (obj : row) (d d' : Database) :
  assoc "doclayer_job_id" obj = None \/ assoc "doclayer_job_id" obj = Some JNull ->
  Store.upsert doclayer_documents now obj "doclayer_job_id" d <> inr d'.
Proof.
  intros H U. apply upsert_inr in U. destruct U as [V _].
  destruct (document_status_not_null _ V) as [_ N]. apply N.
  destruct (new_document_cells now (uuid_counter d) obj) as (-> & _).
  destruct H as [-> | ->]; reflexivity.
Qed.

(** X21. A [document.processing.*] event whose [data] names no job identifier
    ([job_id] absent or [null]) is never acknowledged: the upsert cannot
    pass NOT NULL on [doclayer_job_id], the handler throws its error, the
    answer is 500, no Document Job row is written and the audit row is not
    marked processed. *)
Theorem document_event_needs_job_id (env : Env) (req : Request) (d : Database)
        (payload : json) (x : Route) (s : string) :
  method req = "POST" ->
  gate_open env req ->
  JSON.parse (body req) = Some payload ->
  route_of (effective_event_type req payload) = Some x ->
  document_status x = Some s ->
  job_id_of payload = None \/ job_id_of payload = Some JNull ->
  let '(response, d', tr) := serve env req d in
  status response = 500
  /\ (forall t, t <> doclayer_webhook_events -> Store.rows t d' = Store.rows t d)
  /\ (forall o, ~ In (db_call doclayer_webhook_events Update o) tr).
Proof.
  intros P G J R S Nj.
  assert (T : payload = JNull -> nonempty (x_webhook_event req) <> None).
  { intros -> X. unfold effective_event_type in R. rewrite X in R. discriminate. }
  rewrite (serve_run _ _ _ _ P G J T).
  pose proof (dispatch_dispatched env (effective_event_type req payload) payload
                (audited env req payload d)) as D.
  destruct (dispatch env _ payload _) as [r w2]. cbn [fst snd] in D.
  destruct (dispatched_documents _ _ _ _ _ _ D)
    as [[_ N] | (x' & s' & obj & d1 & R' & _ & O & U & _)].
  2:{ exfalso. destruct O as [_ Oj _ _].
      apply (upsert_needs_job_id _ _ _ _ ltac:(rewrite Oj; exact Nj) U). }
  destruct r as [[]|e]; [exfalso; apply (N eq_refl x s R S)|].
  split; [reflexivity|].
  destruct (dispatched_frame _ _ _ _ _ _ D) as (_ & mid & Em & H).
  destruct (audited_trace env req payload d) as [o Ea].
  split.
  - intros t Nt. rewrite <- (audited_frame env req payload d t Nt).
    inversion D; subst; reflexivity.
  - intros o' I. rewrite Em, Ea in I.
    apply in_app_or in I. destruct I as [I|I]; [|revert I; not_in_small].
    apply in_app_or in I. destruct I as [I|I]; [revert I; not_in_small|].
    exact (handler_events_leave_audit_log _ _ _ H I).
Qed.

Lemma document_event_needs_job_id_witness :
  let '(response, d', tr) := serve env_open started_without_job Store.empty in
  status response = 500
  /\ (forall t, t <> doclayer_webhook_events ->
                Store.rows t d' = Store.rows t Store.empty)
  /\ (forall o, ~ In (db_call doclayer_webhook_events Update o) tr).
Proof.
  apply (document_event_needs_job_id env_open started_without_job Store.empty
           (JObj [("event_type", JStr "document.processing.started");
                  ("data", JObj [("checksum", JStr "abc")])])
           document_processing_started "processing").
  - reflexivity.
  - left. reflexivity.
  - vm_compute. reflexivity.
  - reflexivity.
  - reflexivity.
  - left. reflexivity.
Defined.

(** ** The statement of each handler *)



(** ** Updates that find no row *)








(** ** Billing alerts *)




(** ** What a document event leaves of the row it updates *)

Lemma dispatch_document (env : Env) (eventType : value) (payload : json)
      (w : World) (x : Route) (s : string) :
  route_of eventType = Some x ->
  document_status x = Some s ->
  readable (field (Some payload) "data") = true ->
  match answer env doclayer_documents Upsert
          (Store.upsert doclayer_documents (now env)
             (Js.literal (entity_fields env x payload)) "doclayer_job_id") (db w) with
  | inl e =>
      fst (dispatch env eventType payload w) = Throw (Thrown e)
      /\ db (snd (dispatch env eventType payload w)) = db w
  | inr d1 =>
      fst (dispatch env eventType payload w) = Ok tt
      /\ documents (db (snd (dispatch env eventType payload w))) = documents d1
  end.
Proof.
  intros R S Hr.
  assert (N : payload <> JNull) by (intros ->; discriminate Hr).
  unfold dispatch. rewrite R.
  destruct x; try discriminate S; rewrite (with_data_run _ _ N);
    match goal with
    | |- context [handleProcessingStarted] => unfold handleProcessingStarted
    | |- context [handleProcessingCompleted] => unfold handleProcessingCompleted
    | |- context [handleProcessingFailed] => unfold handleProcessingFailed
    end;
    read_fields Hr; unfold from_upsert, toISOString_now; rewrite !bind_run;
    unfold call; cbn [entity_fields];
    match goal with
    | |- match ?a with _ => _ end =>
        let st := fresh "st" in
        set (st := a); change (answer _ _ _ _ _) with st; destruct st as [e|d1]
    end;
    cbv [bind emit ret throw]; cbn [fst snd db trace]; try (split; reflexivity).
  destruct (nonempty (DOCLAYER_API_KEY env)) as [apiKey|]; [|split; reflexivity].
  destruct (Js.truthy _); [|split; reflexivity].
  match goal with
  | |- context [fetchAndStoreExtractions ?e ?j ?i ?k ?w0] =>
      destruct (fetchAndStoreExtractions_run e j i k w0) as (w' & -> & [F _])
  end.
  cbn [fst snd]. split; [reflexivity|].
  apply (F doclayer_documents). discriminate.
Qed.

Lemma assoc_literal_none (c : string) (l : list (string * value)) :
  ~ In c (map fst l) -> assoc c (Js.literal l) = None.
Proof.
  induction l as [|[k [v|]] l IH]; simpl; intro N; [reflexivity | |].
  - destruct (String.eqb_spec c k) as [->|_]; [exfalso; auto | apply IH; auto].
  - apply IH; auto.
Qed.

Lemma upsert_document_updates (now : string) (obj : row) (d d1 : Database)
      (job : json) (k : string) (r0 : row) :
  Store.upsert doclayer_documents now obj "doclayer_job_id" d = inr d1 ->
  assoc "doclayer_job_id" obj = Some job ->
  Store.pg_text job = Some k ->
  document_rows k d = [r0] ->
  document_rows k d1 = [Store.updated doclayer_documents now obj r0].
Proof.
  intros U Oj K Rows. apply upsert_inr in U. destruct U as [_ U].
  destruct (new_document_cells now (uuid_counter d) obj) as (Cj & _).
  rewrite Oj in Cj. rewrite Cj, K in U. unfold document_rows in *.
  destruct U as [(k0 & E0 & _ & U) | (X & _)].
  - injection E0 as <-. apply update_inr in U. destruct U as (-> & _).
    change (documents (Store.with_rows doclayer_documents ?rs 0 d)) with rs.
    change (Store.rows doclayer_documents d) with (documents d).
    rewrite filter_map_stable
      by (intro r; apply updated_document_matching with job; auto).
    rewrite Rows. cbn [map].
    assert (M0 : Store.matching "doclayer_job_id" k r0 = true).
    { assert (I : In r0 (filter (Store.matching "doclayer_job_id" k) (documents d)))
        by (rewrite Rows; simpl; auto).
      apply filter_In in I. apply I. }
    rewrite M0. reflexivity.
  - specialize (X k eq_refl). apply existsb_false_filter in X.
    change (Store.rows doclayer_documents d) with (documents d) in X.
    rewrite X in Rows. discriminate.
Qed.

(** X24. An acknowledged document event on a job that has a row changes, beside
    [updated_at], only the columns its handler names: every other column
    keeps what the row held. The checksum and the creation dates recorded
    at the start stay through completion or failure, and a completed event
    that follows a failed one leaves the [error_message] and [error_type]
    of the failure in the row. *)
Theorem document_event_keeps_other_columns (env : Env) (req : Request)
        (d d' : Database) (response : Response) (tr : list Event) (payload : json)
        (x : Route) (s k : string) (r0 : row) (c : string) :
  serve env req d = (response, d', tr) ->
  status response = 200 ->
  JSON.parse (body req) = Some payload ->
  route_of (effective_event_type req payload) = Some x ->
  document_status x = Some s ->
  job_key req = Some k ->
  document_rows k d = [r0] ->
  ~ In c (map fst (entity_fields env x payload)) ->
  c <> "updated_at" ->
  exists row, document_rows k d' = [row] /\ Store.cell row c = Store.cell r0 c.
Proof.
  intros E St J R S K Rows Nc Nu.
  destruct (serve_cases _ _ _ _ _ _ E)
    as [(_ & N & _) | (payload' & P & G & J' & T)]; [contradiction|].
  rewrite J in J'. injection J' as <-.
  rewrite (serve_run _ _ _ _ P G J T) in E.
  destruct (readable (field (Some payload) "data")) eqn:Hr.
  2:{ rewrite (dispatch_unreadable _ _ _ _ _ R) in E.
      - injection E as <- _ _. discriminate St.
      - intros ->. discriminate S.
      - exact Hr. }
  pose proof (dispatch_document env _ payload (audited env req payload d) x s R S Hr)
    as D.
  destruct (answer env _ _ _ _) as [e|d1] eqn:A.
  - destruct D as [D _].
    destruct (dispatch env _ payload _) as [r w2]. cbn [fst] in D. subst r.
    injection E as <- _ _. discriminate St.
  - destruct D as [D1 D2].
    destruct (dispatch env _ payload _) as [r w2]. cbn [fst snd] in D1, D2. subst r.
    injection E as _ <- _.
    apply answer_inr in A. destruct A as [_ A].
    unfold job_key in K. rewrite J in K.
    destruct (job_id_of payload) as [job|] eqn:Ej; [|discriminate].
    assert (Oj : assoc "doclayer_job_id" (Js.literal (entity_fields env x payload))
                 = Some job).
    { unfold job_id_of in Ej.
      destruct x; try discriminate S; cbn [entity_fields];
        rewrite assoc_literal; cbn [String.eqb Ascii.eqb Bool.eqb]; rewrite Ej;
        reflexivity. }
    assert (Rows' : document_rows k (db (audited env req payload d)) = [r0]).
    { unfold document_rows in *.
      change (documents (db (audited env req payload d)))
        with (Store.rows doclayer_documents (db (audited env req payload d))).
      rewrite audited_frame by discriminate. exact Rows. }
    pose proof (upsert_document_updates _ _ _ _ _ _ _ A Oj K Rows') as Up.
    exists (Store.updated doclayer_documents (now env)
              (Js.literal (entity_fields env x payload)) r0).
    split.
    + unfold document_rows in *.
      change (documents (db (marked env req w2)))
        with (Store.rows doclayer_documents (db (marked env req w2))).
      rewrite marked_frame by discriminate. cbn [Store.rows]. rewrite D2. exact Up.
    + rewrite (updated_document_cell _ _ _ _ Nu), (assoc_literal_none _ _ Nc).
      unfold Store.cell. destruct (assoc c r0); reflexivity.
Qed.

Lemma document_event_keeps_other_columns_witness :
  exists row,
    document_rows "job_1"
      (snd (fst (serve env_open completed_job_1_again after_started_then_failed)))
    = [row]
    /\ Store.cell row "error_message" = JStr "bad scan"
    /\ Store.cell row "status" = JStr "completed".
Proof.
  destruct (document_event_keeps_other_columns env_open completed_job_1_again
              after_started_then_failed _ _ _
              (JObj [("data", JObj [("job_id", JStr "job_1");
                                    ("document_id", JStr "doc_1");
                                    ("insights_count", JNum 4 0)])])
              document_processing_completed "completed" "job_1"
              (hd [] (document_rows "job_1" after_started_then_failed))
              "error_message" (serve_eta _ _ _))
    as (row & Rows & C).
  - vm_compute. reflexivity.
  - vm_compute. reflexivity.
  - reflexivity.
  - reflexivity.
  - vm_compute. reflexivity.
  - vm_compute. reflexivity.
  - simpl. intuition discriminate.
  - discriminate.
  - exists row. split; [exact Rows|]. split.
    + rewrite C. vm_compute. reflexivity.
    + assert (X : [row] = document_rows "job_1"
                    (snd (fst (serve env_open completed_job_1_again
                                 after_started_then_failed))))
        by (symmetry; exact Rows).
      vm_compute in X. injection X as ->. reflexivity.
Defined.

(** ** When the insert of extractions is refused *)











(** ** What the audit row records *)





(** ** The causes of a 500 *)

Lemma dispatched_thrown (env : Env) (eventType : value) (payload : json)
      (w w' : World) (e : exn) :
  dispatched env eventType payload w (Throw e) w' ->
  e = TypeError
  \/ exists error, e = Thrown error
                   /\ In (db_call doclayer_documents Upsert (Some error)) (trace w').
Proof.
  intro D. inversion D; subst.
  - left. reflexivity.
  - right. eexists. split; [reflexivity|]. cbn [trace].
    apply in_or_app. right. simpl. auto.
Qed.

(** X27. A 500 has one of three causes: a body that is not JSON
    ([SyntaxError]), a payload the handler cannot read its fields from
    ([TypeError]), or the error of a failed upsert into
    [doclayer_documents]. No failure of the audit log, of the batch,
    workflow or billing tables, of the Doclayer API or of the signature
    check ends in a 500. *)
Theorem causes_of_a_500 (env : Env) (req : Request) (d : Database) (e : exn) :
  content (fst (fst (serve env req d))) = InternalServerError e ->
  status (fst (fst (serve env req d))) = 500
  /\ (e = SyntaxError
      \/ e = TypeError
      \/ exists error,
           e = Thrown error
           /\ In (db_call doclayer_documents Upsert (Some error))
                 (snd (serve env req d))).
Proof.
  destruct (serve env req d) as [[response d'] tr] eqn:E. cbn [fst snd].
  apply serve_inv in E.
  destruct E as [P | secret P S V | P G J | P G J X
                 | payload x w' P G J T D | payload w' P G J T D];
    cbn [content status]; intro C; try discriminate C; injection C as <-;
    (split; [reflexivity|]); auto.
  destruct (dispatched_thrown _ _ _ _ _ _ D) as [-> | (error & -> & I)]; [auto|].
  right. right. exists error. split; [reflexivity|]. apply in_or_app. auto.
Qed.

Lemma causes_of_a_500_witness :
  status (fst (fst (serve env_documents_down started_job_1 Store.empty))) = 500
  /\ (Thrown Unavailable = SyntaxError
      \/ Thrown Unavailable = TypeError
      \/ exists error,
           Thrown Unavailable = Thrown error
           /\ In (db_call doclayer_documents Upsert (Some error))
                 (snd (serve env_documents_down started_job_1 Store.empty))).
Proof.
  apply (causes_of_a_500 env_documents_down started_job_1 Store.empty
           (Thrown Unavailable)).
  reflexivity.
Defined.

(** ** The rows of other jobs *)



(** ** The foreign key of the extractions *)

Lemma mapM_extraction_of_any (record : row) (items : list json) (w : World) :
  match mapM (extraction_of record) items w with
  | (Ok objs, w') =>
      w' = w
      /\ Forall (fun obj => assoc "document_id" obj = Some (Some (Store.cell record "id")))
                objs
  | (Throw _, w') => w' = w
  end.
Proof.
  induction items as [|ext items IH]; [cbn; auto|].
  cbn [mapM]. rewrite bind_run.
  destruct ext;
    try (match goal with
         | |- context [extraction_of record ?e w] =>
             destruct (extraction_of_run record e w) as (obj & -> & D);
             [discriminate|]
         end;
         rewrite bind_run;
         destruct (mapM (extraction_of record) items w) as [[objs|x] w1];
         [destruct IH as [-> F]; cbn; auto | exact IH]).
  reflexivity.
Qed.

Lemma select_single_in (t : Table) (c text : string) (d : Database) (r : row) :
  Store.select_single t c text d = inr r -> In r (Store.rows t d).
Proof.
  unfold Store.select_single.
  destruct (filter (Store.matching c text) (Store.rows t d)) as [|r0 [|]] eqn:F;
    try discriminate.
  intro E. injection E as <-.
  assert (I : In r0 (filter (Store.matching c text) (Store.rows t d)))
    by (rewrite F; simpl; auto).
  apply filter_In in I. apply I.
Qed.

Lemma insert_extractions_reference (now : string) (record : row)
      (objs : list (list (string * value))) (d d' : Database) :
  In record (documents d) ->
  Forall (fun obj => assoc "document_id" obj = Some (Some (Store.cell record "id"))) objs ->
  Store.insert doclayer_extractions now (map sent objs) d = inr d' ->
  documents d' = documents d
  /\ exists news, extractions d' = extractions d ++ news
                  /\ Forall (references d) news.
Proof.
  intros I F E. unfold Store.insert in E. destruct (negb _); [discriminate|].
  apply commit_inr in E. destruct E as (-> & _ & _).
  split; [reflexivity|]. eexists. split; [reflexivity|].
  apply Forall_map, Forall_forall. intros [i obj] Io.
  apply in_combine_r in Io. apply in_map_iff in Io.
  destruct Io as (obj0 & <- & Io). cbn [snd fst].
  exists record. split; [exact I|].
  apply new_extraction_document, assoc_sent.
  rewrite Forall_forall in F. apply F, Io.
Qed.

Lemma fetch_references (env : Env) (jobId documentId : value) (apiKey : string)
      (w : World) :
  documents (db (snd (fetchAndStoreExtractions env jobId documentId apiKey w)))
  = documents (db w)
  /\ exists news,
       extractions (db (snd (fetchAndStoreExtractions env jobId documentId apiKey w)))
       = extractions (db w) ++ news
       /\ Forall (references (db w)) news.
Proof.
  assert (Same : forall w', db w' = db w ->
             documents (db w') = documents (db w)
             /\ exists news, extractions (db w') = extractions (db w) ++ news
                             /\ Forall (references (db w)) news).
  { intros w' ->. split; [reflexivity|]. exists []. rewrite app_nil_r. auto. }
  rewrite fetch_start. cbv zeta.
  destruct (fetch env _) as [|code text]; [apply Same; reflexivity|].
  destruct (negb _); [apply Same; reflexivity|].
  destruct (JSON.parse text) as [data|]; [|apply Same; reflexivity].
  rewrite bind_run. unfold from_select_single.
  destruct (if unavailable env doclayer_documents Select then _ else _)
    as [e|record] eqn:Sel; [apply Same; reflexivity|].
  assert (Ir : In record (documents (db w))).
  { destruct (unavailable env doclayer_documents Select); [discriminate|].
    apply (select_single_in _ _ _ _ _ Sel). }
  rewrite bind_run.
  destruct (prop (Some data) "extractions" _) as [[listed|x] w1] eqn:Pr.
  2:{ destruct data; try discriminate Pr; injection Pr as _ <-; apply Same; reflexivity. }
  assert (w1 = say (say w (http_get (extractions_url env documentId)))
                   (db_call doclayer_documents Select None)).
  { destruct data; injection Pr as _ <-; reflexivity. }
  subst w1. rewrite bind_run.
  destruct (Js.truthy listed); [destruct listed as [[| | | |items|]|]|];
    try (apply Same; reflexivity);
    cbn [ret]; rewrite bind_run;
    match goal with
    | |- context [mapM (extraction_of record) ?l ?w0] =>
        pose proof (mapM_extraction_of_any record l w0) as M;
        destruct (mapM (extraction_of record) l w0) as [[objs|x] w2]
    end;
    try (subst w2; apply Same; reflexivity);
    destruct M as [-> F];
    (destruct (0 <? List.length objs)%nat; [|apply Same; reflexivity]);
    rewrite bind_run; unfold from_insert_all, call;
    (destruct (answer env _ _ _ _) as [e|d'] eqn:A; [apply Same; reflexivity|]);
    apply answer_inr in A; destruct A as [_ A]; cbn [say db] in A;
    destruct (insert_extractions_reference _ _ _ _ _ Ir F A) as (Ed & news & En & Fn);
    cbn [emit snd db]; split; [exact Ed|]; exists news; auto.
Qed.

Lemma referential_same (d d' : Database) :
  documents d' = documents d -> extractions d' = extractions d ->
  referential d -> referential d'.
Proof.
  unfold referential, references. intros -> ->. auto.
Qed.

Lemma upsert_keeps_ids (now : string) (obj : row) (d d1 : Database) :
  Store.upsert doclayer_documents now obj "doclayer_job_id" d = inr d1 ->
  assoc "id" obj = None ->
  extractions d1 = extractions d
  /\ forall r, In r (documents d) ->
               exists r', In r' (documents d1) /\ Store.cell r' "id" = Store.cell r "id".
Proof.
  intros U Ni. apply upsert_inr in U. destruct U as (_ & [(k & _ & _ & U) | (_ & -> & _)]).
  - apply update_inr in U. destruct U as (-> & _). split; [reflexivity|].
    intros r I. eexists. split; [apply in_map, I|]. cbn beta.
    destruct (Store.matching _ _ r); [|reflexivity].
    rewrite updated_document_cell by discriminate. rewrite Ni.
    unfold Store.cell. destruct (assoc "id" r); reflexivity.
  - split; [reflexivity|]. intros r I. exists r. split; [|reflexivity].
    apply in_or_app. left. exact I.
Qed.

Lemma entity_fields_no_id (env : Env) (x : Route) (payload : json) :
  assoc "id" (Js.literal (entity_fields env x payload)) = None.
Proof.
  apply assoc_literal_none. destruct x; simpl; intuition discriminate.
Qed.

Lemma dispatch_document_store (env : Env) (eventType : value) (payload : json)
      (w : World) (x : Route) (s : string) :
  route_of eventType = Some x ->
  document_status x = Some s ->
  readable (field (Some payload) "data") = true ->
  match answer env doclayer_documents Upsert
          (Store.upsert doclayer_documents (now env)
             (Js.literal (entity_fields env x payload)) "doclayer_job_id") (db w) with
  | inl e => db (snd (dispatch env eventType payload w)) = db w
  | inr d1 =>
      documents (db (snd (dispatch env eventType payload w))) = documents d1
      /\ exists news,
           extractions (db (snd (dispatch env eventType payload w)))
           = extractions d1 ++ news
           /\ Forall (references d1) news
  end.
Proof.
  intros R S Hr.
  assert (N : payload <> JNull) by (intros ->; discriminate Hr).
  assert (Same : forall d1 : Database,
             documents d1 = documents d1
             /\ exists news, extractions d1 = extractions d1 ++ news
                             /\ Forall (references d1) news).
  { intro d1. split; [reflexivity|]. exists []. rewrite app_nil_r. auto. }
  unfold dispatch. rewrite R.
  destruct x; try discriminate S; rewrite (with_data_run _ _ N);
    match goal with
    | |- context [handleProcessingStarted] => unfold handleProcessingStarted
    | |- context [handleProcessingCompleted] => unfold handleProcessingCompleted
    | |- context [handleProcessingFailed] => unfold handleProcessingFailed
    end;
    read_fields Hr; unfold from_upsert, toISOString_now; rewrite !bind_run;
    unfold call; cbn [entity_fields];
    match goal with
    | |- match ?a with _ => _ end =>
        let st := fresh "st" in
        set (st := a); change (answer _ _ _ _ _) with st; destruct st as [e|d1]
    end;
    cbv [bind emit ret throw]; cbn [fst snd db trace];
    try reflexivity; try apply Same.
  destruct (nonempty (DOCLAYER_API_KEY env)) as [apiKey|]; [|apply Same].
  destruct (Js.truthy _); [|apply Same].
  match goal with
  | |- context [fetchAndStoreExtractions ?e ?j ?i ?k ?w0] =>
      pose proof (fetch_references e j i k w0) as F;
      destruct (fetchAndStoreExtractions_run e j i k w0) as (w' & Ef & _);
      rewrite Ef in F |- *
  end.
  cbn [fst snd db] in F |- *. exact F.
Qed.

Lemma dispatch_referential (env : Env) (eventType : value) (payload : json)
      (w : World) :
  referential (db w) -> referential (db (snd (dispatch env eventType payload w))).
Proof.
  intro H.
  destruct (route_of eventType) as [x|] eqn:R.
  2:{ unfold dispatch. rewrite R. exact H. }
  destruct (document_status x) as [s|] eqn:S.
  - destruct (readable (field (Some payload) "data")) eqn:Hr.
    2:{ rewrite (dispatch_unreadable _ _ _ _ _ R); [exact H | | exact Hr].
        intros ->. discriminate S. }
    pose proof (dispatch_document_store env _ payload w x s R S Hr) as D.
    destruct (answer env _ _ _ _) as [e|d1] eqn:A; [rewrite D; exact H|].
    destruct D as (Ed & news & En & Fn).
    apply answer_inr in A. destruct A as [_ A].
    destruct (upsert_keeps_ids _ _ _ _ A (entity_fields_no_id env x payload))
      as [Ee Ids].
    unfold referential. rewrite En, Ee. apply Forall_app. split.
    + eapply Forall_impl; [|exact H]. intros ext (r & I & C).
      destruct (Ids r I) as (r' & I' & C'). exists r'. rewrite Ed. split; [exact I'|].
      congruence.
    + eapply Forall_impl; [|exact Fn]. intros ext (r & I & C).
      exists r. rewrite Ed. auto.
  - pose proof (dispatch_dispatched env eventType payload w) as D.
    destruct (dispatch env eventType payload w) as [r w']. cbn [fst snd] in *.
    inversion D; subst; cbn [db say]; try exact H; try congruence.
    + match goal with
      | A : answer _ _ _ _ _ = inr _, St : is_statement _ _ _ _,
        Sc : secondary_call _ = Some _ |- _ =>
          apply answer_inr in A; destruct A as [_ A];
          destruct (secondary_not_audit _ _ _ Sc) as [_ Nd];
          pose proof (secondary_call_table _ _ _ Sc) as Tb;
          apply (referential_same (db w));
          [ apply (statement_frame _ _ _ _ _ _ St A doclayer_documents); congruence
          | apply (statement_frame _ _ _ _ _ _ St A doclayer_extractions);
            intros <-; simpl in Tb; intuition discriminate
          | exact H ]
      end.
Qed.

Lemma serve_referential (env : Env) (req : Request) (d : Database) :
  referential d -> referential (snd (fst (serve env req d))).
Proof.
  intro H.
  destruct (serve_cases _ _ _ _ _ _ (serve_eta env req d))
    as [(-> & _) | (payload & P & G & J & T)]; [exact H|].
  rewrite (serve_run _ _ _ _ P G J T).
  assert (Ha : referential (db (audited env req payload d))).
  { apply (referential_same d); [| |exact H].
    - apply (audited_frame env req payload d doclayer_documents). discriminate.
    - apply (audited_frame env req payload d doclayer_extractions). discriminate. }
  pose proof (dispatch_referential env (effective_event_type req payload) payload _ Ha)
    as Hd.
  destruct (dispatch env _ payload _) as [[[]|e] w2]; cbn [fst snd] in *; [|exact Hd].
  apply (referential_same (db w2)); [| |exact Hd].
  - apply (marked_frame env req w2 doclayer_documents). discriminate.
  - apply (marked_frame env req w2 doclayer_extractions). discriminate.
Qed.

(** X29. The handler never breaks the foreign key of [doclayer_extractions]:
    if every extraction of the store references a Document Job row, so
    does every extraction after a request. Extractions are inserted with
    the primary key of the row just looked up, and no request removes a
    Document Job row or changes its primary key. Hence the key holds after
    any sequence of requests on the empty store. *)
Theorem extractions_reference_documents :
  (forall (env : Env) (req : Request) (d : Database),
      referential d -> referential (snd (fst (serve env req d))))
  /\ (forall requests : list (Env * Request),
         referential (serve_all requests Store.empty)).
Proof.
  split; [exact serve_referential|].
  assert (H : forall requests d, referential d -> referential (serve_all requests d)).
  { induction requests as [|[env req] rest IH]; intros d C; simpl; [exact C|].
    apply IH, serve_referential, C. }
  intro requests. apply H. constructor.
Qed.

Lemma extractions_reference_documents_witness :
  referential (snd (fst (serve env_api completed_job_1 Store.empty))).
Proof.
  apply (proj1 extractions_reference_documents env_api completed_job_1 Store.empty).
  constructor.
Defined.
